(** * MatterSim [Potential]: the differentiable forward/training engine

    A shallow embedding of [src/mattersim/forcefield/potential.py].

    - Tensor entries are values of an abstract scalar type [R] with the
      arithmetic the source uses (no algebraic law is assumed, so every
      statement holds for IEEE floats as well as for the rationals).
    - Validation metrics are Python floats compared with [<]: a float is
      NaN, an infinity or a finite (rational) number, and [<] is false as
      soon as one operand is NaN.
    - Epochs, patience and intervals are Python integers: [Z].
    - torch, torch_ema and the energy model are external collaborators; they
      enter as section variables (oracles) with their call signature. *)

From Stdlib Require Import ZArith QArith Lia Permutation.
From stdpp Require Import base option list gmap strings.

Local Open Scope string_scope.
Local Open Scope list_scope.
Local Open Scope Z_scope.

(** ** Scalars *)

Class Scalar (R : Type) := {
  rlit : Q → R;          (* a numeric literal of the source *)
  rnat : nat → R;        (* an integer entry promoted to the float dtype *)
  radd : R → R → R;
  rmul : R → R → R;
  rdiv : R → R → R;
  rneg : R → R;
}.

(** ** Python floats

    The validation metrics are Python floats (the values
    [MeanMetric.compute().item()] returns): IEEE-754 doubles.  A double is
    NaN, an infinity or a finite number, which is a rational. *)

Inductive float :=
  | NaN
  | NegInf
  | Finite (q : Q)
  | PosInf.

(** [a < b] on finite floats. *)
Definition Qltb (a b : Q) : bool :=
  (Qnum a * Z.pos (Qden b) <? Qnum b * Z.pos (Qden a))%Z.

(** Python's [a < b]: the order of the extended real line, and [False] as
    soon as one operand is NaN. *)
Definition flt (a b : float) : bool :=
  match a, b with
  | NaN, _ | _, NaN => false
  | _, NegInf => false
  | NegInf, _ => true
  | PosInf, _ => false
  | Finite _, PosInf => true
  | Finite p, Finite q => Qltb p q
  end.

(** ** Exceptions

    [Ok v] is normal completion; [Raise e] is an uncaught Python exception. *)

Inductive exn :=
  | KeyError | IndexError | ValueError | AttributeError | AssertionError
  | NotImplementedError | ZeroDivisionError | StopIteration | RuntimeError
  | FileNotFoundError | TypeError | UnboundLocalError.

Inductive result (A : Type) :=
  | Ok (a : A)
  | Raise (e : exn).
Arguments Ok {A} a.
Arguments Raise {A} e.

#[global] Instance result_ret : MRet result := λ A a, Ok a.
#[global] Instance result_bind : MBind result := λ A B k r,
  match r with Ok a => k a | Raise e => Raise e end.
#[global] Instance result_fmap : FMap result := λ A B f r,
  match r with Ok a => Ok (f a) | Raise e => Raise e end.

Definition of_option {A} (e : exn) (o : option A) : result A :=
  match o with Some a => Ok a | None => Raise e end.

Definition is_ok {A} (r : result A) : bool :=
  match r with Ok _ => true | Raise _ => false end.

(** ** Training state *)

Section Engine.
Context {R : Type} {SR : Scalar R}.

(** A [state_dict()]: the flattened tensors of a module. *)
Definition state_dict := list R.

(** What unpickling can yield for a sub-state entry of a checkpoint. *)
Inductive entry :=
  | EDict (sd : state_dict)              (* a plain state dict *)
  | EObject (sd : option state_dict)     (* a live object, maybe with .state_dict() *)
  | ECorrupt.                            (* anything else *)

Inductive model_kind := M3Gnet | M3Gnet_multi_head.

Definition model_args := list (string * Q).

Record Model := {
  m_kind : model_kind;
  m_args : model_args;
  m_params : state_dict;   (* the raw parameters, model.parameters() *)
  m_training : bool;       (* model.training *)
}.

Record Adam := {
  adam_lr : Q;
  adam_eps : Q;
  adam_state : option state_dict;   (* None: freshly constructed *)
}.

Inductive Scheduler :=
  | StepLR (step_size : Z) (gamma : Q) (st : option state_dict)
  | ReduceLROnPlateau (factor : Q) (patience : Z) (st : option state_dict).

(** torch_ema.ExponentialMovingAverage *)
Record ExponentialMovingAverage := {
  ema_decay : Q;
  shadow_params : state_dict;
  collected_params : option state_dict;
}.

Record checkpoint := {
  ck_model_name : option string;
  ck_model : option entry;
  ck_model_args : option model_args;
  ck_optimizer : option entry;
  ck_ema : option entry;
  ck_scheduler : option entry;
  ck_last_epoch : option Z;
  ck_validation_metrics : option (gmap string float);
  ck_description : option string;
}.

Record Potential := {
  model : Model;
  optimizer : Adam;
  scheduler : Scheduler;
  ema : ExponentialMovingAverage;
  model_name : string;
  validation_metrics : gmap string float;
  last_epoch : Z;
  description : string;
  best_metric : float;
  rank : option Z;
  idx : option nat;          (* self.idx: absent until train_model sets it *)
}.

Definition set_params (w : state_dict) (m : Model) : Model :=
  {| m_kind := m_kind m; m_args := m_args m; m_params := w;
     m_training := m_training m |}.

Definition set_training (b : bool) (m : Model) : Model :=
  {| m_kind := m_kind m; m_args := m_args m; m_params := m_params m;
     m_training := b |}.

Definition set_collected (c : option state_dict) (e : ExponentialMovingAverage)
    : ExponentialMovingAverage :=
  {| ema_decay := ema_decay e; shadow_params := shadow_params e;
     collected_params := c |}.

Definition set_model (m : Model) (p : Potential) : Potential :=
  {| model := m; optimizer := optimizer p; scheduler := scheduler p;
     ema := ema p; model_name := model_name p;
     validation_metrics := validation_metrics p; last_epoch := last_epoch p;
     description := description p;  best_metric := best_metric p; rank := rank p; idx := idx p |}.

Definition set_ema (e : ExponentialMovingAverage) (p : Potential) : Potential :=
  {| model := model p; optimizer := optimizer p; scheduler := scheduler p;
     ema := e; model_name := model_name p;
     validation_metrics := validation_metrics p; last_epoch := last_epoch p;
     description := description p;  best_metric := best_metric p; rank := rank p; idx := idx p |}.

Definition set_best_metric (q : float) (p : Potential) : Potential :=
  {| model := model p; optimizer := optimizer p; scheduler := scheduler p;
     ema := ema p; model_name := model_name p;
     validation_metrics := validation_metrics p; last_epoch := last_epoch p;
     description := description p;  best_metric := q; rank := rank p; idx := idx p |}.

Definition set_rank_idx (r : option Z) (i : option nat) (p : Potential) : Potential :=
  {| model := model p; optimizer := optimizer p; scheduler := scheduler p;
     ema := ema p; model_name := model_name p;
     validation_metrics := validation_metrics p; last_epoch := last_epoch p;
     description := description p;  best_metric := best_metric p; rank := r; idx := i |}.

(** ** The checkpoint directory [save_path] *)

Inductive ckpt_file :=
  | BestModel              (* best_model.pth *)
  | CkptEpoch (e : Z)      (* ckpt_{epoch}.pth *)
  | LastModel.             (* last_model.pth *)

#[global] Instance ckpt_file_eq_dec : EqDecision ckpt_file.
Proof. solve_decision. Defined.

#[global] Instance ckpt_file_countable : Countable ckpt_file.
Proof.
  refine (inj_countable'
    (λ f, match f with
          | BestModel => inl false | LastModel => inl true
          | CkptEpoch e => inr e end)
    (λ x, match x with
          | inl false => BestModel | inl true => LastModel
          | inr e => CkptEpoch e end) _).
  by intros [].
Defined.

(** The directory content and the sequence of [torch.save] calls made. *)
Record World := {
  disk : gmap ckpt_file checkpoint;
  writes : list (ckpt_file * checkpoint);
}.

Definition torch_save (f : ckpt_file) (c : checkpoint) (w : World) : World :=
  {| disk := <[f := c]> (disk w); writes := writes w ++ [(f, c)] |}.

Definition torch_load (f : ckpt_file) (w : World) : result checkpoint :=
  of_option FileNotFoundError (disk w !! f).

Definition scheduler_state (s : Scheduler) : option state_dict :=
  match s with StepLR _ _ st => st | ReduceLROnPlateau _ _ st => st end.

(** [Potential.save]: one record with all nine keys. *)
Definition to_checkpoint (self : Potential) : checkpoint :=
  {| ck_model_name := Some (model_name self);
     ck_model := Some (EDict (m_params (model self)));
     ck_model_args := Some (m_args (model self));
     ck_optimizer := Some (EDict (default [] (adam_state (optimizer self))));
     ck_ema := Some (EDict (shadow_params (ema self)));
     ck_scheduler := Some (EDict (default [] (scheduler_state (scheduler self))));
     ck_last_epoch := Some (last_epoch self);
     ck_validation_metrics := Some (validation_metrics self);
     ck_description := Some (description self) |}.

Definition save (self : Potential) (f : ckpt_file) (w : World) : World :=
  torch_save f (to_checkpoint self) w.

(** ** torch_ema's parameter swap

    [with self.ema.average_parameters(): body] is
    [store(); copy_to(); try: body finally: restore()]. *)

Definition ema_store (self : Potential) : Potential :=
  set_ema (set_collected (Some (m_params (model self))) (ema self)) self.

Definition ema_copy_to (self : Potential) : Potential :=
  set_model (set_params (shadow_params (ema self)) (model self)) self.

Definition ema_restore (self : Potential) : result Potential :=
  c ← of_option RuntimeError (collected_params (ema self));
  Ok (set_ema (set_collected None (ema self))
        (set_model (set_params c (model self)) self)).

Definition average_parameters {A}
    (body : Potential → result (A * Potential)) (self : Potential)
    : result (A * Potential) :=
  '(a, self1) ← body (ema_copy_to (ema_store self));
  self2 ← ema_restore self1;
  Ok (a, self2).

(** ** Checkpoint selection and early stopping *)

(** The tuple [(loss, e_mae, f_mae, s_mae)] a validation pass returns. *)
Record metric := {
  val_loss : float; val_mae_e : float; val_mae_f : float; val_mae_s : float;
}.

Definition supported_metrics : list string :=
  ["val_loss"; "val_mae_e"; "val_mae_f"; "val_mae_s"].

(** [self.saved_name], assigned once in [__init__] and never changed. *)
Definition saved_name : list string :=
  ["loss"; "MAE_energy"; "MAE_force"; "MAE_stress"].

(** [metric[i]] *)
Definition metric_at (m : metric) (i : nat) : result float :=
  match i with
  | 0%nat => Ok (val_loss m) | 1%nat => Ok (val_mae_e m)
  | 2%nat => Ok (val_mae_f m) | 3%nat => Ok (val_mae_s m)
  | _ => Raise IndexError
  end.

(** How control leaves the [try] body of [save_model]. *)
Inductive try_outcome :=
  | Completed (w : World)       (* fell off the end of the try body *)
  | Returned (w : World)        (* [return True] *)
  | Excepted (w : World).       (* caught by [except BaseException] *)

(** Lines 401-426. *)
Definition save_model_try (self : Potential) (epoch early_stop_patience : Z)
    (metric_name : string) (save_checkpoint : bool) (m : metric) (w : World)
    : try_outcome :=
  match torch_load BestModel w with
  | Raise _ => Excepted w
  | Ok best_model =>
    if negb (bool_decide (metric_name ∈ supported_metrics)) then Excepted w
    else
      let improved : result bool :=
        if save_checkpoint then
          i ← of_option AttributeError (idx self);
          cur ← metric_at m i;
          vm ← of_option KeyError (ck_validation_metrics best_model);
          name ← of_option IndexError (saved_name !! i);
          best ← of_option KeyError (vm !! name);
          Ok (flt cur best)
        else Ok false in
      match improved with
      | Raise _ => Excepted w
      | Ok b =>
        let w1 := if b then save self BestModel w else w in
        match ck_last_epoch best_model with
        | None => Excepted w1
        | Some e_best =>
          if e_best + early_stop_patience <? epoch then Returned w1
          else Completed w1
        end
      end
  end.

(** [Potential.save_model]; the boolean is the early-stop signal. *)
Definition save_model (epoch early_stop_patience : Z) (metric_name : string)
    (save_checkpoint : bool) (m : metric) (ckpt_interval : Z)
    (self : Potential) (w : World) : result (bool * World * Potential) :=
  '(r, self') ← average_parameters (λ self,
    match save_model_try self epoch early_stop_patience metric_name
            save_checkpoint m w with
    | Returned w1 => Ok ((true, w1), self)
    | out =>
      let w1 := match out with
                | Excepted w' =>
                    if save_checkpoint then save self BestModel w' else w'
                | Completed w' | Returned w' => w'
                end in
      w2 ← (if save_checkpoint then
              if ckpt_interval =? 0 then Raise ZeroDivisionError
              else if epoch `mod` ckpt_interval =? 0
                   then Ok (save self (CkptEpoch epoch) w1) else Ok w1
            else Ok w1);
      let w3 := if save_checkpoint then save self LastModel w2 else w2 in
      Ok ((false, w3), self)
    end) self;
  Ok (r, self').

(** [Potential.save_model_ddp] *)
Definition save_model_ddp (epoch early_stop_patience : Z) (metric_name : string)
    (save_checkpoint : bool) (m : metric) (ckpt_interval : Z)
    (self : Potential) (w : World) : result (bool * World * Potential) :=
  '(r, self') ← average_parameters (λ self,
    if negb (bool_decide (metric_name ∈ supported_metrics))
    then Raise AssertionError
    else
      i ← of_option AttributeError (idx self);
      cur ← metric_at m i;
      let '(self1, w1) :=
        if flt cur (best_metric self) then
          (set_best_metric cur self,
           if save_checkpoint && bool_decide (rank self = Some 0)
           then save (set_best_metric cur self) BestModel w else w)
        else (self, w) in
      w3 ← (if bool_decide (rank self1 = Some 0) && save_checkpoint then
              w2 ← (if ckpt_interval =? 0 then Raise ZeroDivisionError
                    else if epoch `mod` ckpt_interval =? 0
                         then Ok (save self1 (CkptEpoch epoch) w1) else Ok w1);
              Ok (save self1 LastModel w2)
            else Ok w1);
      Ok ((false, w3), self1)) self;
  Ok (r, self').

(** *** Notions used to state what the checkpoint step does *)

(** The engine inside [with self.ema.average_parameters()]: the shadow
    parameters swapped in. *)
Definition averaged (self : Potential) : Potential :=
  ema_copy_to (ema_store self).

(** The engine after the [with] block: the raw parameters back in place. *)
Definition restored (self : Potential) : Potential :=
  set_ema (set_collected None (ema (averaged self)))
    (set_model (set_params (m_params (model self)) (model (averaged self)))
       (averaged self)).

(** Saving the engine under each of the files [fs], in order. *)
Definition save_all (self : Potential) (fs : list ckpt_file) (w : World)
    : World :=
  foldl (λ w f, save self f w) w fs.

(** A dictionary of validation metrics with the four keys [train_model]
    stores. *)
Definition four_metrics (vm : gmap string float) : Prop :=
  ∀ n, n ∈ saved_name → is_Some (vm !! n).

(** A best record as [save] writes it during [train_model]: it carries
    [last_epoch] and the four saved metrics. *)
Definition complete_record (c : checkpoint) : Prop :=
  is_Some (ck_last_epoch c)
  ∧ ∃ vm, ck_validation_metrics c = Some vm ∧ four_metrics vm.

Definition best_complete (w : World) : Prop :=
  ∀ c, disk w !! BestModel = Some c → complete_record c.

(** [self.validation_metrics[self.saved_name[self.idx]]]: the value of the
    selected metric the engine currently holds. *)
Definition selected_metric (self : Potential) : option float :=
  i ← idx self; n ← saved_name !! i; validation_metrics self !! n.

(** [record["validation_metrics"][saved_name[i]]] *)
Definition record_metric (i : nat) (ck : checkpoint) : option float :=
  vm ← ck_validation_metrics ck; n ← saved_name !! i; vm !! n.

(** [best_model["validation_metrics"][self.saved_name[self.idx]]] *)
Definition recorded_metric (self : Potential) (best_model : checkpoint)
    : option float :=
  i ← idx self; record_metric i best_model.

(** The record lets the [try] body of [save_model] reach the early-stop
    test of line 423: it has the key ["last_epoch"] and, when the metric is
    compared (lines 415-421, with persistence only), the entry of the
    selected metric.  On any other record the body raises [KeyError]. *)
Definition usable_record (save_checkpoint : bool) (self : Potential)
    (best_model : checkpoint) : Prop :=
  is_Some (ck_last_epoch best_model)
  ∧ (save_checkpoint = true → is_Some (recorded_metric self best_model)).

(** The record on disk when the checkpoint step of [epoch] starts tells the
    loop to stop. *)
Definition patience_exceeded (P epoch : Z) (save_checkpoint : bool)
    (self : Potential) (w : World) : Prop :=
  ∃ best_model e_best,
    disk w !! BestModel = Some best_model
    ∧ usable_record save_checkpoint self best_model
    ∧ ck_last_epoch best_model = Some e_best
    ∧ epoch > e_best + P.

(** ** [Potential.__init__] *)

Record kwargs := {
  kw_lr : option Q; kw_step_size : option Z; kw_gamma : option Q;
  kw_factor : option Q; kw_patience : option Z; kw_ema_decay : option Q;
  kw_model_name : option string;
  kw_validation_metrics : option (gmap string float);
  kw_last_epoch : option Z; kw_description : option string;
}.

Definition no_kwargs : kwargs :=
  {| kw_lr := None; kw_step_size := None; kw_gamma := None; kw_factor := None;
     kw_patience := None; kw_ema_decay := None; kw_model_name := None;
     kw_validation_metrics := None; kw_last_epoch := None;
     kw_description := None |}.

(** The [scheduler] argument: a name or a scheduler object. *)
Inductive scheduler_arg :=
  | SchedulerName (s : string)
  | SchedulerObject (s : Scheduler).

Definition Potential_init (model : Model) (optimizer : option Adam)
    (scheduler : scheduler_arg) (ema : option ExponentialMovingAverage)
    (kw : kwargs) : result Potential :=
  let optimizer :=
    match optimizer with
    | None => {| adam_lr := default (1 # 1000)%Q (kw_lr kw);
                 adam_eps := (1 # 10000000)%Q; adam_state := None |}
    | Some o => o
    end in
  scheduler ←
    match scheduler with
    | SchedulerObject s => Ok s
    | SchedulerName s =>
      if bool_decide (s = "StepLR") then
        Ok (StepLR (default 10 (kw_step_size kw))
                   (default (95 # 100)%Q (kw_gamma kw)) None)
      else if bool_decide (s = "ReduceLROnPlateau") then
        Ok (ReduceLROnPlateau (default (8 # 10)%Q (kw_factor kw))
                              (default 50 (kw_patience kw)) None)
      else Raise NotImplementedError
    end;
  let ema :=
    match ema with
    | None => {| ema_decay := default (99 # 100)%Q (kw_ema_decay kw);
                 shadow_params := m_params model; collected_params := None |}
    | Some e => e
    end in
  Ok {| model := model; optimizer := optimizer; scheduler := scheduler;
        ema := ema;
        model_name := default "m3gnet" (kw_model_name kw);
        validation_metrics :=
          default {[ "loss" := Finite 10000 ]} (kw_validation_metrics kw);
        last_epoch := default (-1) (kw_last_epoch kw);
        description := default "" (kw_description kw);
        best_metric := Finite 10; rank := None; idx := None |}.

(** ** [Potential.train_model]: the epoch loop *)

Section TrainModel.

(** Lines 237-354 of an epoch: the training pass, the validation pass and
    the scheduler step, all collaborators of the checkpoint logic.  They
    update the model, optimizer, scheduler and EMA and yield the validation
    tuple. *)
Variable run_epoch :
  Z → Potential →
  result (Model * Adam * Scheduler * ExponentialMovingAverage * metric).

(** [torch.distributed.get_rank()] of this process. *)
Variable get_rank : Z.

Variables (early_stop_patience : Z) (metric_name : string)
          (save_checkpoint : bool) (ckpt_interval : Z) (is_distributed : bool).

(** Lines 237-363: everything before the checkpoint step. *)
Definition epoch_body (epoch : Z) (self : Potential)
    : result (Potential * metric) :=
  '(m, o, s, e, met) ← run_epoch epoch self;
  Ok ({| model := m; optimizer := o; scheduler := s; ema := e;
         model_name := model_name self;
         validation_metrics :=
           <["loss" := val_loss met]> (<["MAE_energy" := val_mae_e met]>
           (<["MAE_force" := val_mae_f met]>
           (<["MAE_stress" := val_mae_s met]> ∅)));
         last_epoch := epoch;
         description := description self;
         best_metric := best_metric self; rank := rank self;
         idx := idx self |}, met).

(** Lines 364-387. *)
Definition checkpoint_step (epoch : Z) (met : metric) (self : Potential)
    (w : World) : result (bool * World * Potential) :=
  if is_distributed then
    save_model_ddp epoch early_stop_patience metric_name save_checkpoint met
      ckpt_interval self w
  else
    save_model epoch early_stop_patience metric_name save_checkpoint met
      ckpt_interval self w.

(** The [for epoch in ...] loop; the last component is the epoch at which
    the loop was left through [break], if it was. *)
Fixpoint epoch_loop (epochs : list Z) (self : Potential) (w : World)
    : result (Potential * World * option Z) :=
  match epochs with
  | [] => Ok (self, w, None)
  | epoch :: rest =>
    '(self1, met) ← epoch_body epoch self;
    '(stop, w1, self2) ← checkpoint_step epoch met self1 w;
    if (stop : bool) then Ok (self2, w1, Some epoch)
    else epoch_loop rest self2 w1
  end.

(** [range(a, b)] *)
Definition py_range (a b : Z) : list Z :=
  (λ i, a + Z.of_nat i) <$> seq 0 (Z.to_nat (b - a)).

Definition train_model (epochs : Z) (self : Potential) (w : World)
    : result (Potential * World * option Z) :=
  i ← of_option ValueError
        (fst <$> list_find (λ s, s = metric_name) supported_metrics);
  let self :=
    set_rank_idx (if is_distributed then Some get_rank else rank self)
                 (Some i) self in
  epoch_loop (py_range (last_epoch self + 1) epochs) self w.

End TrainModel.

(** In the single-process run from [(self, w)] the checkpoint step of
    epoch [e] wrote the record [c] as [best_model.pth]: the run reaches [e]
    without an early stop, and [c] is among the [torch.save] calls the run
    through [e] adds. *)
Definition saved_at
    (run_epoch : Z → Potential →
       result (Model * Adam * Scheduler * ExponentialMovingAverage * metric))
    (get_rank P : Z) (metric_name : string) (save_checkpoint : bool)
    (ckpt_interval : Z) (self : Potential) (w : World) (e : Z)
    (c : checkpoint) : Prop :=
  ∃ self_e w_e self_e' w_e' stopped new,
    train_model run_epoch get_rank P metric_name save_checkpoint
      ckpt_interval false e self w = Ok (self_e, w_e, None)
    ∧ train_model run_epoch get_rank P metric_name save_checkpoint
        ckpt_interval false (e + 1) self w = Ok (self_e', w_e', stopped)
    ∧ writes w_e' = (writes w_e ++ new)%list
    ∧ (BestModel, c) ∈ new.

(** What is known after the distributed loop ran over [es] from
    [(self0, w0)] and reached [(self', w')]: the in-memory best metric is
    its initial value or below it, the selected metric of no epoch run so
    far is below it, and every [best_model.pth] written was written at an
    epoch whose selected metric is below the initial best metric and below
    the selected metric of every earlier epoch that is not NaN. *)
Definition ddp_facts
    (run_epoch : Z → Potential →
       result (Model * Adam * Scheduler * ExponentialMovingAverage * metric))
    (P : Z) (metric_name : string) (save_checkpoint : bool)
    (ckpt_interval : Z) (self0 : Potential) (w0 : World) (es : list Z)
    (self' : Potential) (w' : World) : Prop :=
  (best_metric self' = best_metric self0
   ∨ flt (best_metric self') (best_metric self0) = true)
  ∧ (∀ pre x post, es = (pre ++ x :: post)%list →
       ∃ s1 w1 q,
         epoch_loop run_epoch P metric_name save_checkpoint ckpt_interval
           true (pre ++ [x]) self0 w0 = Ok (s1, w1, None)
         ∧ selected_metric s1 = Some q
         ∧ flt q (best_metric self') = false)
  ∧ ∃ new, writes w' = (writes w0 ++ new)%list
      ∧ ∀ ck, (BestModel, ck) ∈ new →
          ∃ pre x post s1 w1 q,
            es = (pre ++ x :: post)%list
            ∧ ck_last_epoch ck = Some x
            ∧ epoch_loop run_epoch P metric_name save_checkpoint
                ckpt_interval true (pre ++ [x]) self0 w0 = Ok (s1, w1, None)
            ∧ selected_metric s1 = Some q
            ∧ flt q (best_metric self0) = true
            ∧ ∀ pre' x' post' s' w'' q',
                pre = (pre' ++ x' :: post')%list →
                epoch_loop run_epoch P metric_name save_checkpoint
                  ckpt_interval true (pre' ++ [x']) self0 w0
                  = Ok (s', w'', None) →
                selected_metric s' = Some q' → q' ≠ NaN →
                flt q q' = true.

(** The selected metric of epoch [e] in the distributed run from
    [(self, w)]: what the engine holds when the run through [e] is done. *)
Definition selected_metric_at
    (run_epoch : Z → Potential →
       result (Model * Adam * Scheduler * ExponentialMovingAverage * metric))
    (get_rank P : Z) (metric_name : string) (save_checkpoint : bool)
    (ckpt_interval : Z) (self : Potential) (w : World) (e : Z)
    : option float :=
  match train_model run_epoch get_rank P metric_name save_checkpoint
          ckpt_interval true (e + 1) self w with
  | Ok (s, _, _) => selected_metric s
  | Raise _ => None
  end.

(** ** [Potential.load] *)

Section Load.

(** [M3Gnet(device=device, **model_args).to(device)]: the freshly
    initialised parameters. *)
Variable construct_model : model_kind → model_args → result state_dict.
(** [load_state_dict] of the model (with [strict=False]), of an optimizer,
    a scheduler and an EMA: each validates the dictionary and may raise. *)
Variable model_load_state_dict : Model → state_dict → result Model.
Variable optimizer_load_state_dict : Adam → state_dict → result Adam.
Variable scheduler_load_state_dict : Scheduler → state_dict → result Scheduler.
Variable ema_load_state_dict :
  ExponentialMovingAverage → state_dict → result ExponentialMovingAverage.

(** [obj.load_state_dict(checkpoint[key])] *)
Definition load_direct {T} (load_sd : T → state_dict → result T) (obj : T)
    (e : option entry) : result T :=
  e ← of_option KeyError e;
  match e with
  | EDict sd => load_sd obj sd
  | EObject _ | ECorrupt => Raise TypeError
  end.

(** [obj.load_state_dict(checkpoint[key].state_dict())] *)
Definition load_via_state_dict {T} (load_sd : T → state_dict → result T)
    (obj : T) (e : option entry) : result T :=
  e ← of_option KeyError e;
  match e with
  | EObject (Some sd) => load_sd obj sd
  | EObject None | EDict _ | ECorrupt => Raise AttributeError
  end.

(** The nested [try] of lines 1079-1085 (and 1086-1092). *)
Definition restore {T} (load_sd : T → state_dict → result T) (obj : T)
    (e : option entry) : result T :=
  match load_direct load_sd obj e with
  | Ok o => Ok o
  | Raise _ => load_via_state_dict load_sd obj e
  end.

(** The values of the locals [optimizer, scheduler, last_epoch,
    validation_metrics, description, ema] after lines 1076-1112. *)
Record training_state := {
  ts_optimizer : option Adam;
  ts_scheduler : scheduler_arg;
  ts_last_epoch : Z;
  ts_validation_metrics : gmap string float;
  ts_description : string;
  ts_ema : option ExponentialMovingAverage;
}.

Definition default_training_state : training_state :=
  {| ts_optimizer := None; ts_scheduler := SchedulerName "StepLR";
     ts_last_epoch := -1; ts_validation_metrics := {[ "loss" := Finite 0 ]};
     ts_description := ""; ts_ema := None |}.

Definition load_training_state_of (ck : checkpoint) (model : Model)
    : training_state :=
  let optimizer :=
    {| adam_lr := (1 # 1000)%Q; adam_eps := (1 # 100000000)%Q;
       adam_state := None |} in
  let scheduler := StepLR 10 (95 # 100)%Q None in
  let optimizer :=
    match restore optimizer_load_state_dict optimizer (ck_optimizer ck) with
    | Ok o => Some o
    | Raise _ => None
    end in
  let scheduler :=
    match restore scheduler_load_state_dict scheduler (ck_scheduler ck) with
    | Ok s => SchedulerObject s
    | Raise _ => SchedulerName "StepLR"
    end in
  let meta :=
    last_epoch ← of_option KeyError (ck_last_epoch ck);
    validation_metrics ← of_option KeyError (ck_validation_metrics ck);
    description ← of_option KeyError (ck_description ck);
    Ok (last_epoch, validation_metrics, description) in
  let meta : Z * gmap string float * string :=
    match meta with
    | Ok x => x
    | Raise _ => (-1, {[ "loss" := Finite 0 ]}, "")
    end in
  let ema :=
    let ema := {| ema_decay := (99 # 100)%Q; shadow_params := m_params model;
                  collected_params := None |} in
    match load_direct ema_load_state_dict ema (ck_ema ck) with
    | Ok e => Some e
    | Raise _ => None
    end in
  {| ts_optimizer := optimizer; ts_scheduler := scheduler;
     ts_last_epoch := meta.1.1; ts_validation_metrics := meta.1.2;
     ts_description := meta.2; ts_ema := ema |}.

Definition pretrained_path : string := "m3gnet/pretrained/mpf/best_model.pth".

(** [Potential.load]; [files] is what [torch.load] can read. *)
Definition load (model_name : string) (load_path : option string)
    (load_training_state : bool) (kw : kwargs)
    (files : gmap string checkpoint) : result Potential :=
  load_path ←
    match load_path with
    | None => if bool_decide (model_name = "m3gnet") then Ok pretrained_path
              else Raise NotImplementedError
    | Some p => Ok p
    end;
  checkpoint ← of_option FileNotFoundError (files !! load_path);
  name ← of_option KeyError (ck_model_name checkpoint);
  if negb (bool_decide (name = model_name)) then Raise AssertionError else
  kind ← (if bool_decide (model_name = "m3gnet") then Ok M3Gnet
          else if bool_decide (model_name = "m3gnet_multi_head")
               then Ok M3Gnet_multi_head
          else Raise NotImplementedError);
  args ← of_option KeyError (ck_model_args checkpoint);
  params ← construct_model kind args;
  let model := {| m_kind := kind; m_args := args; m_params := params;
                  m_training := true |} in
  model ← load_direct model_load_state_dict model (ck_model checkpoint);
  let ts := if load_training_state
            then load_training_state_of checkpoint model
            else default_training_state in
  let model := set_training false model in
  (* a keyword given twice is a TypeError *)
  if bool_decide (is_Some (kw_model_name kw) ∨ is_Some (kw_last_epoch kw)
                  ∨ is_Some (kw_validation_metrics kw)
                  ∨ is_Some (kw_description kw))
  then Raise TypeError else
  Potential_init model (ts_optimizer ts) (ts_scheduler ts) (ts_ema ts)
    {| kw_lr := kw_lr kw; kw_step_size := kw_step_size kw;
       kw_gamma := kw_gamma kw; kw_factor := kw_factor kw;
       kw_patience := kw_patience kw; kw_ema_decay := kw_ema_decay kw;
       kw_model_name := Some model_name;
       kw_validation_metrics := Some (ts_validation_metrics ts);
       kw_last_epoch := Some (ts_last_epoch ts);
       kw_description := Some (ts_description ts) |}.

End Load.




(** ** Tensors and the autograd tape *)

Definition vec3 : Type := R * R * R.
Definition mat3 : Type := vec3 * vec3 * vec3.      (* three rows *)

Inductive tval :=
  | Mat3s (c : list mat3)       (* shape (B, 3, 3) *)
  | Vec3s (p : list vec3)       (* shape (N, 3) *)
  | Scalars (e : list R)        (* shape (B,) *)
  | Ints (n : list nat)         (* integer tensor of shape (B,) *)
  | Opaque.                     (* features and index tensors *)

(** A tensor object: its value, its [requires_grad] flag and the tensors
    it was computed from (none for a leaf). *)
Record tensor := {
  t_val : tval;
  requires_grad : bool;
  t_inputs : list nat;
}.

Inductive event :=
  | ModelForward (m : Model) (input : gmap string nat) (dataset_idx : Z)
  | AutogradGrad (outputs inputs : list nat) (create_graph : bool).

(** Tensor objects are addressed by their position in [heap]. *)
Record Torch := {
  heap : list tensor;
  trace : list event;
}.

(** The address the next new tensor gets. *)
Definition next_id (st : Torch) : nat := length (heap st).

(** A new tensor computed from [inputs]; it requires grad when one of them
    does. *)
Definition alloc (v : tval) (inputs : list nat) (st : Torch) : Torch :=
  let rg := existsb (λ i, from_option requires_grad false (heap st !! i)) inputs in
  {| heap := heap st ++ [{| t_val := v; requires_grad := rg;
                            t_inputs := inputs |}];
     trace := trace st |}.

Definition log (ev : event) (st : Torch) : Torch :=
  {| heap := heap st; trace := trace st ++ [ev] |}.

(** [t.requires_grad_(True)] *)
Definition requires_grad_ (i : nat) (st : Torch) : Torch :=
  {| heap := alter (λ t, {| t_val := t_val t; requires_grad := true;
                            t_inputs := t_inputs t |}) i (heap st);
     trace := trace st |}.

Definition value_of (st : Torch) (i : nat) : result tval :=
  t_val <$> of_option RuntimeError (heap st !! i).

Definition as_mat3s (v : tval) : result (list mat3) :=
  match v with Mat3s c => Ok c | _ => Raise TypeError end.
Definition as_vec3s (v : tval) : result (list vec3) :=
  match v with Vec3s p => Ok p | _ => Raise TypeError end.
Definition as_scalars (v : tval) : result (list R) :=
  match v with Scalars e => Ok e | _ => Raise TypeError end.
Definition as_ints (v : tval) : result (list nat) :=
  match v with Ints n => Ok n | _ => Raise TypeError end.

Definition vec3_map (f : R → R) (v : vec3) : vec3 :=
  let '(a, b, c) := v in (f a, f b, f c).
Definition mat3_map (f : R → R) (m : mat3) : mat3 :=
  let '(a, b, c) := m in (vec3_map f a, vec3_map f b, vec3_map f c).
Definition vec3_add (u v : vec3) : vec3 :=
  let '(a, b, c) := u in let '(x, y, z) := v in (radd a x, radd b y, radd c z).
Definition mat3_add (m n : mat3) : mat3 :=
  let '(a, b, c) := m in let '(x, y, z) := n in
  (vec3_add a x, vec3_add b y, vec3_add c z).

Definition zero3 : mat3 :=
  let z := rlit 0 in ((z, z, z), (z, z, z), (z, z, z)).
(** [torch.eye(3)] *)
Definition eye3 : mat3 :=
  let z := rlit 0 in let o := rlit 1 in ((o, z, z), (z, o, z), (z, z, o)).

(** ["i, ij -> j"]: a row vector times a matrix. *)
Definition vec_mat (v : vec3) (m : mat3) : vec3 :=
  let '(x, y, z) := v in
  let '((a1, a2, a3), (b1, b2, b3), (c1, c2, c3)) := m in
  (radd (radd (rmul x a1) (rmul y b1)) (rmul z c1),
   radd (radd (rmul x a2) (rmul y b2)) (rmul z c2),
   radd (radd (rmul x a3) (rmul y b3)) (rmul z c3)).

(** The 3 x 3 matrix product. *)
Definition mat_mul (m n : mat3) : mat3 :=
  let '(a, b, c) := m in (vec_mat a n, vec_mat b n, vec_mat c n).

(** Elementwise combination along the leading dimension with torch's
    broadcasting: equal sizes, or one of them 1. *)
Definition broadcast2 {A B C} (f : A → B → C) (l1 : list A) (l2 : list B)
    : result (list C) :=
  if decide (length l1 = length l2) then Ok (zip_with f l1 l2)
  else match l1, l2 with
       | [a], _ => Ok (f a <$> l2)
       | _, [b] => Ok ((λ a, f a b) <$> l1)
       | _, _ => Raise RuntimeError
       end.

(** [torch.repeat_interleave(x, repeats, dim=0)] *)
Definition repeat_interleave {A} (x : list A) (repeats : list nat)
    : result (list A) :=
  if decide (length repeats = length x)
  then Ok (concat (zip_with (λ a n, replicate n a) x repeats))
  else match repeats with
       | [n] => Ok (concat ((replicate n) <$> x))
       | _ => Raise RuntimeError
       end.

Definition mat3s_at (st : Torch) (i : nat) : result (list mat3) :=
  value_of st i ≫= as_mat3s.
Definition vec3s_at (st : Torch) (i : nat) : result (list vec3) :=
  value_of st i ≫= as_vec3s.
Definition ints_at (st : Torch) (i : nat) : result (list nat) :=
  value_of st i ≫= as_ints.

Definition zeros_like (cell : list mat3) : list mat3 := (λ _, zero3) <$> cell.

Definition ones_like (v : tval) : tval :=
  let o := rlit 1 in
  match v with
  | Mat3s c => Mat3s ((mat3_map (λ _, o)) <$> c)
  | Vec3s p => Vec3s ((vec3_map (λ _, o)) <$> p)
  | Scalars e => Scalars ((λ _, o) <$> e)
  | Ints n => Ints ((λ _, 1%nat) <$> n)
  | Opaque => Opaque
  end.

(** [torch.neg] *)
Definition neg (v : tval) : tval :=
  match v with
  | Mat3s c => Mat3s (mat3_map rneg <$> c)
  | Vec3s p => Vec3s (vec3_map rneg <$> p)
  | Scalars e => Scalars (rneg <$> e)
  | other => other
  end.

(** The [requires_grad] flag and the inputs of the tensor at an address. *)
Definition flag_of (st : Torch) (i : nat) : option bool := requires_grad <$> heap st !! i.
Definition inputs_of (st : Torch) (i : nat) : option (list nat) :=
  t_inputs <$> heap st !! i.

(** The output dictionary with the forces, when their gradient is defined. *)
Definition with_forces (energies : tval) (force_grad : option tval)
    : gmap string tval :=
  match force_grad with
  | Some g => <["forces" := neg g]> {[ "total_energy" := energies ]}
  | None => {[ "total_energy" := energies ]}
  end.

Definition is_model_forward (ev : event) : bool :=
  match ev with ModelForward _ _ _ => true | AutogradGrad _ _ _ => false end.

(** The model as validation evaluates it: the shadow parameters swapped
    in. *)
Definition shadow_model (self : Potential) : Model :=
  set_params (shadow_params (ema self)) (model self).

(** The literal [160.21766208]. *)
Definition unit_conversion : Q := (16021766208 # 100000000)%Q.

(** ** [Potential.forward] *)

Section Forward.

(** [torch.linalg.det] of one 3 x 3 matrix. *)
Variable linalg_det : mat3 → R.
(** [self.model.forward(input, dataset_idx)]: the energy model, a function
    of the model (its parameters and mode) and of the tensors in [input]. *)
Variable model_forward : Model → Torch → gmap string nat → Z → result tval.
(** [torch.autograd.grad(outputs, inputs, grad_outputs, create_graph)]:
    one optional gradient per input, or an exception. *)
Variable autograd_grad :
  Torch → list nat → list nat → list tval → bool → result (list (option tval)).

Definition unsupported (name : string) : bool :=
  bool_decide (name = "graphormer") || bool_decide (name = "geomformer").

(** Lines 944-958: the strain rewrite of [input["cell"]] and
    [input["atom_pos"]]; yields the new [input], the volume and the state. *)
Definition strain_rewrite (strain_id : nat) (strain : list mat3)
    (input : gmap string nat) (st : Torch)
    : result (gmap string nat * list R * Torch) :=
  let st := requires_grad_ strain_id st in
  cell_id ← of_option KeyError (input !! "cell");
  cell ← mat3s_at st cell_id;
  let new_cell_id := next_id st in
  let st := alloc (Mat3s (zip_with mat_mul cell (mat3_add eye3 <$> strain)))
          [cell_id; strain_id] st in
  let input := <["cell" := new_cell_id]> input in
  num_atoms_id ← of_option KeyError (input !! "num_atoms");
  num_atoms ← ints_at st num_atoms_id;
  strain_augment ← repeat_interleave strain num_atoms;
  let strain_augment_id := next_id st in
  let st := alloc (Mat3s strain_augment) [strain_id] st in
  pos_id ← of_option KeyError (input !! "atom_pos");
  pos ← vec3s_at st pos_id;
  new_pos ← broadcast2 vec_mat pos (mat3_add eye3 <$> strain_augment);
  let new_pos_id := next_id st in
  let st := alloc (Vec3s new_pos) [pos_id; strain_augment_id] st in
  let input := <["atom_pos" := new_pos_id]> input in
  new_cell ← mat3s_at st new_cell_id;
  Ok (input, linalg_det <$> (new_cell : list mat3), st).

(** [1 / volume[:, None, None] * stress_grad * 160.21766208] *)
Definition stress_of (volume : list R) (stress_grad : tval) : result tval :=
  g ← as_mat3s stress_grad;
  scaled ← broadcast2 (λ v m, mat3_map (rmul (rdiv (rlit 1) v)) m) volume g;
  Ok (Mat3s (mat3_map (λ x, rmul x (rlit unit_conversion)) <$> scaled)).

(** Returns the [output] dictionary, the (mutated) [input] dictionary and
    the tensor state. *)
Definition forward (self : Potential) (input : gmap string nat)
    (include_forces include_stresses : bool) (dataset_idx : Z) (st : Torch)
    : result (gmap string tval * gmap string nat * Torch) :=
  if unsupported (model_name self) then Raise NotImplementedError else
  cell_id ← of_option KeyError (input !! "cell");
  cell ← mat3s_at st cell_id;
  let strain := zeros_like cell in
  let strain_id := next_id st in
  let st := alloc (Mat3s strain) [] st in
  let volume := linalg_det <$> cell in
  st ← (if include_forces then
          pos_id ← of_option KeyError (input !! "atom_pos");
          Ok (requires_grad_ pos_id st)
        else Ok st);
  '(input, volume, st) ←
    (if include_stresses then strain_rewrite strain_id strain input st
     else Ok (input, volume, st));
  energies ← model_forward (model self) st input dataset_idx;
  let st := log (ModelForward (model self) input dataset_idx) st in
  let energies_id := next_id st in
  let st := alloc energies (map_to_list input).*2 st in
  let output : gmap string tval := {[ "total_energy" := energies ]} in
  (* Only take first derivative if only force is required *)
  '(output, st) ←
    (if include_forces && negb include_stresses then
       pos_id ← of_option KeyError (input !! "atom_pos");
       grad ← autograd_grad st [energies_id] [pos_id] [ones_like energies]
                (m_training (model self));
       let st := log (AutogradGrad [energies_id] [pos_id]
                        (m_training (model self))) st in
       force_grad ← of_option IndexError (grad !! 0%nat);
       Ok (match force_grad with
           | Some g => <["forces" := neg g]> output
           | None => output
           end, st)
     else Ok (output, st));
  (* Take derivatives up to second order if both are required *)
  if include_forces && include_stresses then
    pos_id ← of_option KeyError (input !! "atom_pos");
    grad ← autograd_grad st [energies_id] [pos_id; strain_id]
             [ones_like energies] (m_training (model self));
    let st := log (AutogradGrad [energies_id] [pos_id; strain_id]
                     (m_training (model self))) st in
    force_grad ← of_option IndexError (grad !! 0%nat);
    stress_grad ← of_option IndexError (grad !! 1%nat);
    let output := match force_grad with
                  | Some g => <["forces" := neg g]> output
                  | None => output
                  end in
    output ← match stress_grad with
             | Some g => stresses ← stress_of volume g;
                         Ok (<["stresses" := stresses]> output)
             | None => Ok output
             end;
    Ok (output, input, st)
  else Ok (output, input, st).

(** ** [batch_to_dict], [Potential.loss_calc], [Potential.train_one_epoch] *)

(** A batch from the data loader, already on the device: the fields the
    engine computes with (the feature and index tensors are opaque). *)
Record graph_batch := {
  gb_atom_pos : list vec3;
  gb_cell : list mat3;
  gb_num_atoms : list nat;
  gb_energy : list R;
  gb_forces : list vec3;
  gb_stress : list mat3;
}.

Definition batch_fields (b : graph_batch) : list (string * tval) :=
  [("atom_pos", Vec3s (gb_atom_pos b)); ("cell", Mat3s (gb_cell b));
   ("pbc_offsets", Opaque); ("atom_attr", Opaque); ("edge_index", Opaque);
   ("three_body_indices", Opaque); ("num_three_body", Opaque);
   ("num_bonds", Opaque); ("num_triple_ij", Opaque);
   ("num_atoms", Ints (gb_num_atoms b)); ("num_graphs", Opaque);
   ("batch", Opaque)].

(** The input dictionary over the batch's (leaf) tensors. *)
Definition batch_to_dict (b : graph_batch) (st : Torch)
    : gmap string nat * Torch :=
  foldl (λ '(input, st) '(key, v),
           (<[key := next_id st]> input, alloc v [] st))
        (∅, st) (batch_fields b).

(** [torch.nn.L1Loss()] *)
Variable L1Loss : tval → tval → R.

Definition loss_calc (self : Potential) (b : graph_batch)
    (result_ : gmap string tval) (loss : tval → tval → R)
    (include_energy include_forces include_stresses : bool) (loss_f loss_s : R)
    : result (R * R * R * R) :=
  let e_mae := rlit 0 in
  let f_mae := rlit 0 in
  let s_mae := rlit 0 in
  let loss_ := rlit 0 in
  if unsupported (model_name self) then Raise NotImplementedError else
  '(loss_, e_mae) ←
    (if include_energy then
       e_gt ← broadcast2 rdiv (gb_energy b) (rnat <$> gb_num_atoms b);
       total_energy ← of_option KeyError (result_ !! "total_energy")
                        ≫= as_scalars;
       e_pred ← broadcast2 rdiv total_energy (rnat <$> gb_num_atoms b);
       Ok (radd loss_ (loss (Scalars e_pred) (Scalars e_gt)),
           L1Loss (Scalars e_pred) (Scalars e_gt))
     else Ok (loss_, e_mae));
  '(loss_, f_mae) ←
    (if include_forces then
       let f_gt := Vec3s (gb_forces b) in
       f_pred ← of_option KeyError (result_ !! "forces");
       Ok (radd loss_ (rmul (loss f_pred f_gt) loss_f), L1Loss f_pred f_gt)
     else Ok (loss_, f_mae));
  '(loss_, s_mae) ←
    (if include_stresses then
       let s_gt := Mat3s (gb_stress b) in
       s_pred ← of_option KeyError (result_ !! "stresses");
       Ok (radd loss_ (rmul (loss s_pred s_gt) loss_s), L1Loss s_pred s_gt)
     else Ok (loss_, s_mae));
  Ok (loss_, e_mae, f_mae, s_mae).

(** Lines 626-635: [zero_grad], [backward], gradient clipping, the
    optimizer step and [ema.update()]; yields the new raw parameters, the
    optimizer and the shadow parameters. *)
Variable training_step :
  Potential → R → Torch → state_dict * Adam * state_dict.
(** [MeanMetric().compute().item()] over the values it was updated with. *)
Variable mean : list R → R.

Record accumulators := {
  loss_avg : list R;
  train_e_mae : list R;
  train_f_mae : list R;
  train_s_mae : list R;
}.

Section Epoch.
Variables (loss : tval → tval → R)
          (include_energy include_forces include_stresses : bool)
          (loss_f loss_s : R) (mode : string).

(** The body of [for batch_idx, graph_batch in enumerate(dataloader)]. *)
Definition batch_step (b : graph_batch) (self : Potential) (st : Torch)
    (acc : accumulators) : result (Potential * Torch * accumulators) :=
  if unsupported (model_name self) then Raise NotImplementedError else
  let input := (batch_to_dict b st).1 in
  let st := (batch_to_dict b st).2 in
  '(result_, st, self) ←
    (if bool_decide (mode = "train") then
       '(output, _, st) ←
         forward self input include_forces include_stresses (-1) st;
       Ok (output, st, self)
     else if bool_decide (mode = "val") then
       '(r, self) ← average_parameters (λ self,
          '(output, _, st) ←
            forward self input include_forces include_stresses (-1) st;
          Ok ((output, st), self)) self;
       Ok (r.1, r.2, self)
     else Raise UnboundLocalError);
  '(loss_, e_mae, f_mae, s_mae) ←
    loss_calc self b result_ loss include_energy include_forces
      include_stresses loss_f loss_s;
  let self :=
    if bool_decide (mode = "train") then
      let '(params, opt, shadow) := training_step self loss_ st in
      {| model := set_params params (model self); optimizer := opt;
         scheduler := scheduler self;
         ema := {| ema_decay := ema_decay (ema self); shadow_params := shadow;
                   collected_params := collected_params (ema self) |};
         model_name := model_name self;
         validation_metrics := validation_metrics self;
         last_epoch := last_epoch self; description := description self;
         best_metric := best_metric self; rank := rank self; idx := idx self |}
    else self in
  Ok (self, st,
      {| loss_avg := loss_avg acc ++ [loss_];
         train_e_mae := if include_energy then train_e_mae acc ++ [e_mae]
                        else train_e_mae acc;
         train_f_mae := if include_forces then train_f_mae acc ++ [f_mae]
                        else train_f_mae acc;
         train_s_mae := if include_stresses then train_s_mae acc ++ [s_mae]
                        else train_s_mae acc |}).

Fixpoint run_batches (dataloader : list graph_batch) (self : Potential)
    (st : Torch) (acc : accumulators)
    : result (Potential * Torch * accumulators) :=
  match dataloader with
  | [] => Ok (self, st, acc)
  | b :: rest =>
    '(self, st, acc) ← batch_step b self st acc;
    run_batches rest self st acc
  end.

(** In ["val"] mode the result is [(loss, e_mae, f_mae, s_mae)]. *)
Definition train_one_epoch (dataloader : list graph_batch)
    (self : Potential) (st : Torch)
    : result (option (R * R * R * R) * Potential * Torch) :=
  let self :=
    if bool_decide (mode = "train")
    then set_model (set_training true (model self)) self
    else if bool_decide (mode = "val")
         then set_model (set_training false (model self)) self
         else self in
  '(self, st, acc) ←
    run_batches dataloader self st
      {| loss_avg := []; train_e_mae := []; train_f_mae := [];
         train_s_mae := [] |};
  let loss_avg_ := mean (loss_avg acc) in
  let e_mae := if include_energy then mean (train_e_mae acc) else rlit 0 in
  let f_mae := if include_forces then mean (train_f_mae acc) else rlit 0 in
  let s_mae := if include_stresses then mean (train_s_mae acc) else rlit 0 in
  Ok (if bool_decide (mode = "val")
      then Some (loss_avg_, e_mae, f_mae, s_mae) else None, self, st).

End Epoch.

End Forward.

End Engine.

Arguments state_dict R : clear implicits.
Arguments entry R : clear implicits.
Arguments Model R : clear implicits.
Arguments Adam R : clear implicits.
Arguments Scheduler R : clear implicits.
Arguments ExponentialMovingAverage R : clear implicits.
Arguments checkpoint R : clear implicits.
Arguments Potential R : clear implicits.
Arguments World R : clear implicits.
Arguments try_outcome R : clear implicits.
Arguments scheduler_arg R : clear implicits.
Arguments training_state R : clear implicits.
Arguments vec3 R : clear implicits.
Arguments mat3 R : clear implicits.
Arguments tval R : clear implicits.
Arguments tensor R : clear implicits.
Arguments event R : clear implicits.
Arguments Torch R : clear implicits.
Arguments graph_batch R : clear implicits.
Arguments accumulators R : clear implicits.

(** ** The multi-head scheduler (lines 716-735)

    A data source is the sequence of batches one pass over it yields;
    [len(dataloader)] is its length, [__iter__()] starts at its head and
    [__next__()] pops the head or raises [StopIteration]. *)

(** The running sums [acc + l0, acc + l0 + l1, ...]. *)
Fixpoint running_sum (acc : nat) (lens : list nat) : list nat :=
  match lens with
  | [] => []
  | l :: ls => (acc + l)%nat :: running_sum (acc + l) ls
  end.

(** The flattened index space: source [k] repeated once per batch. *)
Fixpoint owners (k : nat) (lens : list nat) : list nat :=
  match lens with
  | [] => []
  | l :: ls => (replicate l k ++ owners (S k) ls)%list
  end.

Section MultiHead.
Context {B : Type}.

(** [random.shuffle]: an arbitrary rearrangement. *)
Variable shuffle : list nat → list nat.

(** [for i in range(1, len(l)): l[i] += l[i - 1]], run for [n] more
    iterations from index [i]. *)
Fixpoint accumulate (n i : nat) (l : list nat) : list nat :=
  match n with
  | O => l
  | S n' =>
    accumulate n' (S i) (<[i := (l !!! i + l !!! (i - 1))%nat]> l)
  end.

Definition cumulative_len (dataloader_list : list (list B)) : list nat :=
  let dataloader_len := length <$> dataloader_list in
  accumulate (length dataloader_len - 1) 1 dataloader_len.

(** [for dataset_idx, bound in enumerate(bounds): if idx < bound: break];
    [last] is the value [dataset_idx] holds if the loop runs out. *)
Fixpoint find_dataset (k : nat) (bounds : list nat) (idx last : nat) : nat :=
  match bounds with
  | [] => last
  | bound :: rest =>
    if (idx <? bound)%nat then k else find_dataset (S k) rest idx k
  end.

Definition dataset_of (dataloader_len : list nat) (idx : nat) : nat :=
  find_dataset 0 dataloader_len idx 0.

(** [dataloader_iter[dataset_idx].__next__()] *)
Definition iter_next (dataloader_iter : list (list B)) (dataset_idx : nat)
    : result (B * list (list B)) :=
  it ← of_option IndexError (dataloader_iter !! dataset_idx);
  match it with
  | [] => Raise StopIteration
  | graph_batch :: rest => Ok (graph_batch, <[dataset_idx := rest]> dataloader_iter)
  end.

(** The [for idx in idx_list] loop: the (dataset_idx, batch) pairs handed
    to the training step, in order. *)
Fixpoint visit (dataloader_len : list nat) (idx_list : list nat)
    (dataloader_iter : list (list B)) : result (list (nat * B)) :=
  match idx_list with
  | [] => Ok []
  | idx :: rest =>
    let dataset_idx := dataset_of dataloader_len idx in
    '(graph_batch, dataloader_iter) ← iter_next dataloader_iter dataset_idx;
    visits ← visit dataloader_len rest dataloader_iter;
    Ok ((dataset_idx, graph_batch) :: visits)
  end.

Definition multi_head_epoch (dataloader_list : list (list B))
    : result (list (nat * B)) :=
  let dataloader_iter := dataloader_list in
  let dataloader_len := cumulative_len dataloader_list in
  total ← of_option IndexError (last dataloader_len);
  let idx_list := shuffle (seq 0 total) in
  visit dataloader_len idx_list dataloader_iter.

(** The batches an epoch drew from source [k], in the order drawn. *)
Definition drawn_from (k : nat) (visits : list (nat * B)) : list B :=
  snd <$> filter (λ v, v.1 = k) visits.

End MultiHead.

(** * A concrete instance

    Rational scalars, a toy energy model (the energy of a structure is the
    determinant of its cell) and a toy autograd that answers every input
    with a gradient of ones.  They serve to run the engine on examples. *)

#[global] Instance Q_scalar : Scalar Q := {|
  rlit q := q;
  rnat n := inject_Z (Z.of_nat n);
  radd := Qplus;
  rmul := Qmult;
  rdiv := Qdiv;
  rneg := Qopp;
|}.

Definition toy_det (m : mat3 Q) : Q :=
  let '((a1, a2, a3), (b1, b2, b3), (c1, c2, c3)) := m in
  Qred (a1 * (b2 * c3 - b3 * c2) - a2 * (b1 * c3 - b3 * c1)
        + a3 * (b1 * c2 - b2 * c1))%Q.

Definition toy_model_forward (m : Model Q) (st : Torch Q)
    (input : gmap string nat) (dataset_idx : Z) : result (tval Q) :=
  cell_id ← of_option KeyError (input !! "cell");
  cell ← mat3s_at st cell_id;
  Ok (Scalars (toy_det <$> cell)).

Definition toy_autograd_grad (st : Torch Q) (outputs inputs : list nat)
    (grad_outputs : list (tval Q)) (create_graph : bool)
    : result (list (option (tval Q))) :=
  Ok ((λ i, match value_of st i with
            | Ok v => Some (ones_like v)
            | Raise _ => None
            end) <$> inputs).

Definition toy_L1Loss (a b : tval Q) : Q := 0%Q.
Definition toy_loss (a b : tval Q) : Q := 1%Q.
Definition toy_training_step (p : Potential Q) (l : Q) (st : Torch Q)
    : state_dict Q * Adam Q * state_dict Q :=
  (m_params (model p), optimizer p, shadow_params (ema p)).
Definition toy_mean (l : list Q) : Q := 0%Q.

(** One structure with a cubic cell of side 2 and two atoms. *)
Definition toy_batch : graph_batch Q :=
  {| gb_atom_pos := [(0, 0, 0); (1, 1, 1)]%Q;
     gb_cell := [((2, 0, 0), (0, 2, 0), (0, 0, 2))]%Q;
     gb_num_atoms := [2%nat];
     gb_energy := [6%Q];
     gb_forces := [(0, 0, 0); (0, 0, 0)]%Q;
     gb_stress := [((0, 0, 0), (0, 0, 0), (0, 0, 0))]%Q |}.

Definition toy_torch : Torch Q := {| heap := []; trace := [] |}.
Definition toy_input : gmap string nat := (batch_to_dict toy_batch toy_torch).1.
Definition toy_state : Torch Q := (batch_to_dict toy_batch toy_torch).2.

Definition toy_model : Model Q :=
  {| m_kind := M3Gnet; m_args := []; m_params := [1; 2]%Q;
     m_training := false |}.

(** The engine [Potential(toy_model)] builds. *)
Definition toy_self : Potential Q :=
  {| model := toy_model;
     optimizer := {| adam_lr := (1 # 1000)%Q; adam_eps := (1 # 10000000)%Q;
                     adam_state := None |};
     scheduler := StepLR 10 (95 # 100)%Q None;
     ema := {| ema_decay := (99 # 100)%Q; shadow_params := [1; 2]%Q;
               collected_params := None |};
     model_name := "m3gnet";
     validation_metrics := {[ "loss" := Finite 10000 ]};
     last_epoch := -1; description := "";
     best_metric := Finite 10; rank := None; idx := None |}.

(** An engine after some training: the shadow parameters differ from the
    raw ones. *)
Definition toy_trained : Potential Q :=
  set_ema {| ema_decay := (99 # 100)%Q; shadow_params := [3; 4]%Q;
             collected_params := None |} toy_self.

(** A forward result for [toy_batch]. *)
Definition toy_result : gmap string (tval Q) :=
  <["stresses" := Mat3s [((1, 0, 0), (0, 1, 0), (0, 0, 1))]%Q]>
  (<["forces" := Vec3s [(1, 0, 0); (0, 1, 0)]%Q]>
  {[ "total_energy" := Scalars [8%Q] ]}).

(** Training passes that leave the engine as it is and report the
    validation loss [12 - epoch]. *)
Definition toy_run_epoch (epoch : Z) (p : Potential Q)
    : result (Model Q * Adam Q * Scheduler Q * ExponentialMovingAverage Q
              * metric) :=
  Ok (model p, optimizer p, scheduler p, ema p,
      {| val_loss := Finite (inject_Z (12 - epoch)); val_mae_e := Finite 0;
         val_mae_f := Finite 0; val_mae_s := Finite 0 |}).

Definition empty_world : World Q := {| disk := ∅; writes := [] |}.

(** A directory holding a best record of epoch 0 with loss 1. *)
Definition toy_best : checkpoint Q :=
  {| ck_model_name := Some "m3gnet"; ck_model := Some (EDict [1; 2]%Q);
     ck_model_args := Some []; ck_optimizer := Some (EDict []);
     ck_ema := Some (EDict [1; 2]%Q); ck_scheduler := Some (EDict []);
     ck_last_epoch := Some 0;
     ck_validation_metrics :=
       Some (<["loss" := Finite 1]> (<["MAE_energy" := Finite 0]>
            (<["MAE_force" := Finite 0]> {[ "MAE_stress" := Finite 0 ]})));
     ck_description := Some "" |}.
Definition toy_world : World Q :=
  {| disk := {[ BestModel := toy_best ]}; writes := [] |}.

(** An engine resumed after epoch 0. *)
Definition toy_resumed : Potential Q :=
  {| model := toy_model; optimizer := optimizer toy_self;
     scheduler := scheduler toy_self; ema := ema toy_self;
     model_name := "m3gnet";
     validation_metrics := {[ "loss" := Finite 1 ]};
     last_epoch := 0; description := "";
     best_metric := Finite 10; rank := None; idx := None |}.

(** torch stand-ins for [load]: every dictionary is accepted. *)
Definition toy_construct_model (k : model_kind) (a : model_args)
    : result (state_dict Q) := Ok [0; 0]%Q.
Definition toy_model_load (m : Model Q) (sd : state_dict Q)
    : result (Model Q) := Ok (set_params sd m).
Definition toy_optimizer_load (o : Adam Q) (sd : state_dict Q)
    : result (Adam Q) :=
  Ok {| adam_lr := adam_lr o; adam_eps := adam_eps o; adam_state := Some sd |}.
Definition toy_scheduler_load (s : Scheduler Q) (sd : state_dict Q)
    : result (Scheduler Q) :=
  Ok match s with
     | StepLR n g _ => StepLR n g (Some sd)
     | ReduceLROnPlateau f n _ => ReduceLROnPlateau f n (Some sd)
     end.
Definition toy_ema_load (e : ExponentialMovingAverage Q) (sd : state_dict Q)
    : result (ExponentialMovingAverage Q) :=
  Ok {| ema_decay := ema_decay e; shadow_params := sd;
        collected_params := None |}.

(** A record with sound model entries and corrupted training state. *)
Definition corrupted_checkpoint : checkpoint Q :=
  {| ck_model_name := Some "m3gnet"; ck_model := Some (EDict [5; 6]%Q);
     ck_model_args := Some []; ck_optimizer := Some ECorrupt;
     ck_ema := Some ECorrupt; ck_scheduler := Some (EObject None);
     ck_last_epoch := None; ck_validation_metrics := None;
     ck_description := None |}.
Definition toy_files : gmap string (checkpoint Q) :=
  {[ "corrupted.pth" := corrupted_checkpoint ]}.

(** Two sources, of 3 and of 5 batches. *)
Definition toy_sources : list (list nat) :=
  [[10; 11; 12]; [20; 21; 22; 23; 24]]%nat.

(** [random.shuffle] standing in: the reversal. *)
Definition toy_shuffle (l : list nat) : list nat := rev l.

(** ** Notions used to state what a training run leaves on disk *)

Section RunNotions.
Context {R : Type} {SR : Scalar R}.

(** The selected metric of epoch [e] in the single-process run from
    [(self, w)], provided the run reaches [e]: the run up to (excluding)
    [e] ends without an early stop, and the engine holds the metric when
    the run through [e] is done. *)
Definition epoch_metric_at
    (run_epoch : Z → Potential R →
       result (Model R * Adam R * Scheduler R * ExponentialMovingAverage R
               * metric))
    (get_rank P : Z) (metric_name : string) (save_checkpoint : bool)
    (ckpt_interval : Z) (self : Potential R) (w : World R) (e : Z)
    : option float :=
  match train_model run_epoch get_rank P metric_name save_checkpoint
          ckpt_interval false e self w with
  | Ok (_, _, None) =>
    match train_model run_epoch get_rank P metric_name save_checkpoint
            ckpt_interval false (e + 1) self w with
    | Ok (s, _, _) => selected_metric s
    | Raise _ => None
    end
  | _ => None
  end.

(** In the single-process run with persistence from [(self0, w0)], epoch
    [x] is reached after the epochs [pre] (they end without an early
    stop), and the engine holds the selected metric [q] when [x] is
    done. *)
Definition reached
    (run_epoch : Z → Potential R →
       result (Model R * Adam R * Scheduler R * ExponentialMovingAverage R
               * metric))
    (P : Z) (metric_name : string) (ckpt_interval : Z)
    (self0 : Potential R) (w0 : World R) (pre : list Z) (x : Z) (q : float)
    : Prop :=
  ∃ s1 w1 s2 w2 st,
    epoch_loop run_epoch P metric_name true ckpt_interval false pre self0 w0
    = Ok (s1, w1, None)
    ∧ epoch_loop run_epoch P metric_name true ckpt_interval false
        (pre ++ [x]) self0 w0 = Ok (s2, w2, st)
    ∧ selected_metric s2 = Some q.

(** After the epochs [es], [best_model.pth] is the record of an epoch of
    [es] whose selected metric is below that of every earlier epoch that is
    not NaN, and which no epoch of [es] has a selected metric below: without
    NaN, the first epoch whose selected metric is the least. *)
Definition first_minimum
    (run_epoch : Z → Potential R →
       result (Model R * Adam R * Scheduler R * ExponentialMovingAverage R
               * metric))
    (P : Z) (metric_name : string) (ckpt_interval : Z)
    (self0 : Potential R) (w0 : World R) (i : nat) (es : list Z)
    (w' : World R) : Prop :=
  ∃ ck pre x post q,
    es = pre ++ x :: post
    ∧ disk w' !! BestModel = Some ck
    ∧ ck_last_epoch ck = Some x
    ∧ record_metric i ck = Some q
    ∧ reached run_epoch P metric_name ckpt_interval self0 w0 pre x q
    ∧ (∀ pre' x' post' q',
         pre = pre' ++ x' :: post' →
         reached run_epoch P metric_name ckpt_interval self0 w0 pre' x' q' →
         q' ≠ NaN → flt q q' = true)
    ∧ (∀ pre' x' post' q',
         es = pre' ++ x' :: post' →
         reached run_epoch P metric_name ckpt_interval self0 w0 pre' x' q' →
         flt q' q = false).

End RunNotions.

(** ** Notions used to state what [forward] leaves of the tensors *)

Section TensorNotions.
Context {R : Type} {SR : Scalar R}.

(** Every tensor of [st] is still there in [st'], with its value and its
    inputs. *)
Definition tensors_kept (st st' : Torch R) : Prop :=
  (next_id st ≤ next_id st')%nat
  ∧ ∀ i, (i < next_id st)%nat →
      value_of st' i = value_of st i ∧ inputs_of st' i = inputs_of st i.

End TensorNotions.

(** ** Inference: [predict_properties], [get_properties], [load_model] *)

(** [torch.split(t, sizes, dim=0)] with a list of sizes: consecutive
    chunks; the sizes have to add up to the leading dimension. *)
Fixpoint chunks {A} (sizes : list nat) (t : list A) : list (list A) :=
  match sizes with
  | [] => []
  | n :: rest => take n t :: chunks rest (drop n t)
  end.

Definition torch_split {A} (t : list A) (sizes : list nat)
    : result (list (list A)) :=
  if decide (sum_list sizes = length t) then Ok (chunks sizes t)
  else Raise RuntimeError.

Section Inference.
Context {R : Type} {SR : Scalar R}.
Variable linalg_det : mat3 R → R.
Variable model_forward :
  Model R → Torch R → gmap string nat → Z → result (tval R).
Variable autograd_grad :
  Torch R → list nat → list nat → list (tval R) → bool
  → result (list (option (tval R))).

(** The lists [energies], [forces] and [stresses] of
    [predict_properties]: floats, one (n, 3) array per structure, and
    3 x 3 arrays. *)
Record predictions := {
  pr_energies : list R;
  pr_forces : list (list (vec3 R));
  pr_stresses : list (mat3 R);
}.

(** The body of [for batch_idx, graph_batch in enumerate(dataloader)].
    The energies are a tensor of shape (B,), the forces of shape (N, 3)
    and the stresses of shape (B, 3, 3). *)
Definition predict_step (include_forces include_stresses : bool)
    (b : graph_batch R) (self : Potential R) (st : Torch R)
    (acc : predictions) : result (Torch R * predictions) :=
  if unsupported (model_name self) then Raise NotImplementedError else
  let input := (batch_to_dict b st).1 in
  let st := (batch_to_dict b st).2 in
  '(result_, _, st) ←
    forward linalg_det model_forward autograd_grad self input include_forces
      include_stresses (-1) st;
  if unsupported (model_name self) then Raise NotImplementedError else
  total_energy ← of_option KeyError (result_ !! "total_energy") ≫= as_scalars;
  let energies := pr_energies acc ++ total_energy in
  forces ←
    (if include_forces then
       f ← of_option KeyError (result_ !! "forces") ≫= as_vec3s;
       forces_tuple ← torch_split f (gb_num_atoms b);
       Ok (pr_forces acc ++ forces_tuple)
     else Ok (pr_forces acc));
  stresses ←
    (if include_stresses then
       s ← of_option KeyError (result_ !! "stresses") ≫= as_mat3s;
       Ok (pr_stresses acc ++ s)
     else Ok (pr_stresses acc));
  Ok (st, {| pr_energies := energies; pr_forces := forces;
             pr_stresses := stresses |}).

Fixpoint predict_loop (include_forces include_stresses : bool)
    (dataloader : list (graph_batch R)) (self : Potential R) (st : Torch R)
    (acc : predictions) : result (Torch R * predictions) :=
  match dataloader with
  | [] => Ok (st, acc)
  | b :: rest =>
    '(st, acc) ← predict_step include_forces include_stresses b self st acc;
    predict_loop include_forces include_stresses rest self st acc
  end.

(** [Potential.predict_properties] *)
Definition predict_properties (dataloader : list (graph_batch R))
    (include_forces include_stresses : bool) (self : Potential R)
    (st : Torch R) : result (predictions * Potential R * Torch R) :=
  let self := set_model (set_training false (model self)) self in
  '(st, r) ←
    predict_loop include_forces include_stresses dataloader self st
      {| pr_energies := []; pr_forces := []; pr_stresses := [] |};
  Ok (r, self, st).

(** [Potential.get_properties]; [None] is Python's implicit return. *)
Definition get_properties (b : graph_batch R)
    (include_forces include_stresses : bool) (dataset_idx : Z)
    (self : Potential R) (st : Torch R)
    : result (option (list (tval R)) * Torch R) :=
  if unsupported (model_name self) then Raise NotImplementedError else
  let input := (batch_to_dict b st).1 in
  let st := (batch_to_dict b st).2 in
  '(result_, _, st) ←
    forward linalg_det model_forward autograd_grad self input include_forces
      include_stresses dataset_idx st;
  if negb include_forces && negb include_stresses then
    e ← of_option KeyError (result_ !! "total_energy");
    Ok (Some [e], st)
  else if include_forces && negb include_stresses then
    e ← of_option KeyError (result_ !! "total_energy");
    f ← of_option KeyError (result_ !! "forces");
    Ok (Some [e; f], st)
  else if include_forces && include_stresses then
    e ← of_option KeyError (result_ !! "total_energy");
    f ← of_option KeyError (result_ !! "forces");
    s ← of_option KeyError (result_ !! "stresses");
    Ok (Some [e; f; s], st)
  else Ok (None, st).

(** [Potential.load_model]: [load_state_dict] is called with its default
    [strict=True]. *)
Variable model_load_state_dict_strict :
  Model R → state_dict R → result (Model R).

Definition load_model (self : Potential R)
    (files : gmap string (checkpoint R)) : result (Potential R) :=
  checkpoint ← of_option FileNotFoundError (files !! pretrained_path);
  m ← load_direct model_load_state_dict_strict (model self)
         (ck_model checkpoint);
  Ok (set_model m self).

(** [Potential.set_description], [Potential.get_description] *)
Definition set_description (description : string) (self : Potential R)
    : Potential R :=
  {| model := model self; optimizer := optimizer self;
     scheduler := scheduler self; ema := ema self;
     model_name := model_name self;
     validation_metrics := validation_metrics self;
     last_epoch := last_epoch self; description := description;
     best_metric := best_metric self; rank := rank self; idx := idx self |}.

Definition get_description (self : Potential R) : string :=
  description self.

End Inference.

Arguments predictions R : clear implicits.

(** ** [Potential.train_one_epoch_multi_head] and [Potential.test_model] *)

Section MultiHeadEpoch.
Context {R : Type} {SR : Scalar R}.
Variable linalg_det : mat3 R → R.
Variable model_forward :
  Model R → Torch R → gmap string nat → Z → result (tval R).
Variable autograd_grad :
  Torch R → list nat → list nat → list (tval R) → bool
  → result (list (option (tval R))).
Variable L1Loss : tval R → tval R → R.
Variable training_step :
  Potential R → R → Torch R → state_dict R * Adam R * state_dict R.
Variable mean : list R → R.
Variable shuffle : list nat → list nat.

(** Lines 769-775: the engine after [optimizer.step()] and
    [ema.update()] produced new raw parameters, optimizer state and shadow
    parameters. *)
Definition optimizer_step (new : state_dict R * Adam R * state_dict R)
    (self : Potential R) : Potential R :=
  set_ema {| ema_decay := ema_decay (ema self); shadow_params := new.2;
             collected_params := collected_params (ema self) |}
    {| model := set_params new.1.1 (model self); optimizer := new.1.2;
       scheduler := scheduler self; ema := ema self;
       model_name := model_name self;
       validation_metrics := validation_metrics self;
       last_epoch := last_epoch self; description := description self;
       best_metric := best_metric self; rank := rank self;
       idx := idx self |}.

Section Epoch.
Variables (loss : tval R → tval R → R)
          (include_energy include_forces include_stresses : bool)
          (loss_f loss_s : R) (mode : string).

(** Lines 707-714: one set of four [MeanMetric]s per dataset name. *)
Definition metrics_init (dataset_name_list : list string)
    : gmap string (accumulators R) :=
  foldl (λ metrics dataset_name,
           <[dataset_name := {| loss_avg := []; train_e_mae := [];
                                train_f_mae := []; train_s_mae := [] |}]>
             metrics)
        ∅ dataset_name_list.

(** The body of [for idx in idx_list] (lines 731-783). *)
Definition multi_head_step (dataloader_len : list nat)
    (dataset_name_list : list string) (idx : nat)
    (dataloader_iter : list (list (graph_batch R))) (self : Potential R)
    (st : Torch R) (metrics : gmap string (accumulators R))
    : result (list (list (graph_batch R)) * Potential R * Torch R
              * gmap string (accumulators R)) :=
  let dataset_idx := dataset_of dataloader_len idx in
  '(graph_batch, dataloader_iter) ← iter_next dataloader_iter dataset_idx;
  let input := (batch_to_dict graph_batch st).1 in
  let st := (batch_to_dict graph_batch st).2 in
  dataset_name ← of_option IndexError (dataset_name_list !! dataset_idx);
  '(result_, st, self) ←
    (if bool_decide (mode = "train") then
       '(output, _, st) ←
         forward linalg_det model_forward autograd_grad self input
           include_forces include_stresses (Z.of_nat dataset_idx) st;
       Ok (output, st, self)
     else if bool_decide (mode = "val") then
       '(r, self) ← average_parameters (λ self,
          '(output, _, st) ←
            forward linalg_det model_forward autograd_grad self input
              include_forces include_stresses (Z.of_nat dataset_idx) st;
          Ok ((output, st), self)) self;
       Ok (r.1, r.2, self)
     else Raise UnboundLocalError);
  '(loss_, e_mae, f_mae, s_mae) ←
    loss_calc L1Loss self graph_batch result_ loss include_energy
      include_forces include_stresses loss_f loss_s;
  let self :=
    if bool_decide (mode = "train")
    then optimizer_step (training_step self loss_ st) self else self in
  acc ← of_option KeyError (metrics !! dataset_name);
  Ok (dataloader_iter, self, st,
      <[dataset_name :=
          {| loss_avg := loss_avg acc ++ [loss_];
             train_e_mae := if include_energy then train_e_mae acc ++ [e_mae]
                            else train_e_mae acc;
             train_f_mae := if include_forces then train_f_mae acc ++ [f_mae]
                            else train_f_mae acc;
             train_s_mae := if include_stresses
                            then train_s_mae acc ++ [s_mae]
                            else train_s_mae acc |}]> metrics).

Fixpoint multi_head_loop (dataloader_len : list nat)
    (dataset_name_list : list string) (idx_list : list nat)
    (dataloader_iter : list (list (graph_batch R))) (self : Potential R)
    (st : Torch R) (metrics : gmap string (accumulators R))
    : result (Potential R * Torch R * gmap string (accumulators R)) :=
  match idx_list with
  | [] => Ok (self, st, metrics)
  | idx :: rest =>
    '(dataloader_iter, self, st, metrics) ←
      multi_head_step dataloader_len dataset_name_list idx dataloader_iter
        self st metrics;
    multi_head_loop dataloader_len dataset_name_list rest dataloader_iter
      self st metrics
  end.

(** The locals of the summing loop (lines 785-805); [sum_train_e_mae] is
    the local [train_e_mae], unbound until first assigned. *)
Record sums := {
  sum_loss_all : R;
  sum_e_mae : R;
  sum_f_mae : R;
  sum_s_mae : R;
  sum_train_e_mae : option R;
}.

(** The body of [for dataset_name in dataset_name_list] (lines 789-818);
    the [print] reads [train_e_mae]. *)
Definition sum_step (metrics : gmap string (accumulators R))
    (s : sums) (dataset_name : string) : result sums :=
  acc ← of_option KeyError (metrics !! dataset_name);
  let loss_avg_ := mean (loss_avg acc) in
  let loss_all := radd (sum_loss_all s) loss_avg_ in
  let '(train_e_mae_, e_mae) :=
    if include_energy
    then (Some (mean (train_e_mae acc)),
          radd (sum_e_mae s) (mean (train_e_mae acc)))
    else (sum_train_e_mae s, sum_e_mae s) in
  let f_mae :=
    if include_forces && negb (bool_decide (dataset_name = "QM9"))
    then radd (sum_f_mae s) (mean (train_f_mae acc)) else sum_f_mae s in
  let s_mae :=
    if include_stresses then radd (sum_s_mae s) (mean (train_s_mae acc))
    else sum_s_mae s in
  _ ← of_option UnboundLocalError train_e_mae_;
  Ok {| sum_loss_all := loss_all; sum_e_mae := e_mae; sum_f_mae := f_mae;
        sum_s_mae := s_mae; sum_train_e_mae := train_e_mae_ |}.

Fixpoint sum_loop (metrics : gmap string (accumulators R)) (s : sums)
    (dataset_name_list : list string) : result sums :=
  match dataset_name_list with
  | [] => Ok s
  | dataset_name :: rest =>
    s ← sum_step metrics s dataset_name;
    sum_loop metrics s rest
  end.

(** In ["val"] mode the result is [(loss_all, e_mae, f_mae, s_mae)]. *)
Definition train_one_epoch_multi_head
    (dataloader_list : list (list (graph_batch R)))
    (dataset_name_list : list string) (self : Potential R) (st : Torch R)
    : result (option (R * R * R * R) * Potential R * Torch R) :=
  let metrics := metrics_init dataset_name_list in
  let dataloader_iter := dataloader_list in
  let self :=
    if bool_decide (mode = "train")
    then set_model (set_training true (model self)) self
    else if bool_decide (mode = "val")
         then set_model (set_training false (model self)) self
         else self in
  let dataloader_len := cumulative_len dataloader_list in
  total ← of_option IndexError (last dataloader_len);
  let idx_list := shuffle (seq 0 total) in
  '(self, st, metrics) ←
    multi_head_loop dataloader_len dataset_name_list idx_list
      dataloader_iter self st metrics;
  s ← sum_loop metrics
        {| sum_loss_all := rlit 0; sum_e_mae := rlit 0; sum_f_mae := rlit 0;
           sum_s_mae := rlit 0; sum_train_e_mae := None |}
        dataset_name_list;
  Ok (if bool_decide (mode = "val")
      then Some (sum_loss_all s, sum_e_mae s, sum_f_mae s, sum_s_mae s)
      else None, self, st).

End Epoch.

(** [Potential.test_model]: [val_dataloader] is one data loader, or a list
    of them when [multi_head] is set; [dataset_name_list] is the keyword
    argument of that name. *)
Definition test_model (multi_head : bool)
    (val_dataloader : if multi_head then list (list (graph_batch R))
                      else list (graph_batch R))
    (loss : tval R → tval R → R)
    (include_energy include_forces include_stresses : bool)
    (dataset_name_list : option (list string)) (self : Potential R)
    (st : Torch R) : result (option (R * R * R * R) * Potential R * Torch R) :=
  match multi_head
    return (if multi_head then list (list (graph_batch R))
            else list (graph_batch R)) → _ with
  | false => λ val_dataloader,
    train_one_epoch linalg_det model_forward autograd_grad L1Loss
      training_step mean loss include_energy include_forces
      include_stresses (rlit 1) (rlit (1 # 10)) "val" val_dataloader self st
  | true => λ val_dataloader,
    dataset_name_list ← of_option KeyError dataset_name_list;
    train_one_epoch_multi_head loss include_energy include_forces
      include_stresses (rlit 1) (rlit (1 # 10)) "val" val_dataloader
      dataset_name_list self st
  end val_dataloader.

End MultiHeadEpoch.

Arguments sums R : clear implicits.

(** The head indices of the model evaluations in a trace, in order. *)
Definition forward_heads {R : Type} (evs : list (event R)) : list Z :=
  omap (λ ev, match ev with
              | ModelForward _ _ d => Some d
              | AutogradGrad _ _ _ => None
              end) evs.

(** ** Fine-tuning: [freeze_reset_model] and [finetune_mode]

    These two methods address the model through the attributes of the
    encoder-based networks: [node_head.unified_encoder_layers] (a module
    list), [node_head.unified_final_invariant_ln],
    [node_head.unified_output_layer], [layer_norm],
    [lm_head_transform_weight] and [energy_out].  A module is the sequence
    of its [named_parameters()]; the model's own [named_parameters()]
    ranges over the parameters of all of them, of the rest of the network,
    and of the module assigned to its attribute [finetune_head], which the
    assignment registers as a submodule. *)

Section Finetune.
Context {R : Type}.

Record parameter := {
  pm_data : R;
  pm_requires_grad : bool;
}.

Definition module := list parameter.

Record Encoder := {
  unified_encoder_layers : list module;
  unified_final_invariant_ln : module;
  unified_output_layer : module;
  layer_norm : module;
  lm_head_transform_weight : module;
  energy_out : module;
  finetune_head : option module;
  other_parameters : module;
}.

(** [for name, param in m.named_parameters(): param.requires_grad = b] *)
Definition set_requires_grad (b : bool) (m : module) : module :=
  (λ p, {| pm_data := pm_data p; pm_requires_grad := b |}) <$> m.

(** [m.reset_parameters()]: every parameter is initialised anew. *)
Variable init : R → R.

Definition reset_parameters (m : module) : module :=
  (λ p, {| pm_data := init (pm_data p);
           pm_requires_grad := pm_requires_grad p |}) <$> m.

(** [layers[-k:]] of a list, for [k > 0]: its last [k] elements (all of
    them when it has no more). *)
Definition last_layers {A} (k : nat) (layers : list A) : list A :=
  drop (length layers - k) layers.

(** The layers with the flag of the last [k] of them set. *)
Definition unfreeze_last (k : nat) (layers : list module) : list module :=
  take (length layers - k) layers
  ++ (set_requires_grad true <$> last_layers k layers).

(** [Potential.freeze_reset_model] *)
Definition freeze_reset_model (finetune_layers : Z)
    (reset_head_for_finetune : bool) (model : Encoder) : result Encoder :=
  if finetune_layers =? -1 then Ok model
  else if (0 <=? finetune_layers)
          && (finetune_layers <? Z.of_nat (length
                                   (unified_encoder_layers model))) then
    let frozen := set_requires_grad false in
    let layers := frozen <$> unified_encoder_layers model in
    let final_ln := frozen (unified_final_invariant_ln model) in
    let output := frozen (unified_output_layer model) in
    let norm := frozen (layer_norm model) in
    let head := frozen (lm_head_transform_weight model) in
    let out := frozen (energy_out model) in
    let fhead := frozen <$> finetune_head model in
    let other := frozen (other_parameters model) in
    let '(layers, final_ln, output, norm) :=
      if 0 <? finetune_layers then
        (unfreeze_last (Z.to_nat finetune_layers) layers,
         set_requires_grad true final_ln, set_requires_grad true output,
         set_requires_grad true norm)
      else (layers, final_ln, output, norm) in
    let head := set_requires_grad true head in
    let out := set_requires_grad true out in
    let '(head, out) :=
      if reset_head_for_finetune
      then (reset_parameters head, reset_parameters out)
      else (head, out) in
    Ok {| unified_encoder_layers := layers;
          unified_final_invariant_ln := final_ln;
          unified_output_layer := output; layer_norm := norm;
          lm_head_transform_weight := head; energy_out := out;
          finetune_head := fhead; other_parameters := other |}
  else Raise ValueError.

(** [model.finetune_head = finetune_head] *)
Definition set_finetune_head (finetune_head : option module)
    (model : Encoder) : Encoder :=
  {| unified_encoder_layers := unified_encoder_layers model;
     unified_final_invariant_ln := unified_final_invariant_ln model;
     unified_output_layer := unified_output_layer model;
     layer_norm := layer_norm model;
     lm_head_transform_weight := lm_head_transform_weight model;
     energy_out := energy_out model; finetune_head := finetune_head;
     other_parameters := other_parameters model |}.

(** What [finetune_mode] reads and writes: the engine's [model_name] and
    [use_finetune_label_loss], the network, and the network's attributes
    [finetune_mode], [finetune_task_mean] and [finetune_task_std]. *)
Record finetune_state := {
  ft_model_name : string;
  ft_model : Encoder;
  ft_finetune_mode : bool;
  ft_finetune_task_mean : Q;
  ft_finetune_task_std : Q;
  ft_use_finetune_label_loss : bool;
}.

(** [Potential.finetune_mode] *)
Definition finetune_mode (finetune_layers : Z)
    (finetune_head : option module) (reset_head_for_finetune : bool)
    (finetune_task_mean finetune_task_std : Q)
    (use_finetune_label_loss : bool) (self : finetune_state)
    : result finetune_state :=
  if negb (bool_decide (ft_model_name self ∈ ["graphormer"; "geomformer"]))
  then Ok self
  else
    model ← freeze_reset_model finetune_layers reset_head_for_finetune
              (set_finetune_head finetune_head (ft_model self));
    Ok {| ft_model_name := ft_model_name self; ft_model := model;
          ft_finetune_mode := true;
          ft_finetune_task_mean := finetune_task_mean;
          ft_finetune_task_std := finetune_task_std;
          ft_use_finetune_label_loss := use_finetune_label_loss |}.

(** Every parameter of the module has the flag [b]. *)
Definition all_flags (b : bool) (m : module) : Prop :=
  ∀ p, p ∈ m → pm_requires_grad p = b.

End Finetune.

Arguments parameter R : clear implicits.
Arguments module R : clear implicits.
Arguments Encoder R : clear implicits.
Arguments finetune_state R : clear implicits.

(** ** More concrete inputs *)


(** The engine [load] builds from [corrupted_checkpoint]. *)
Definition toy_loaded : Potential Q :=
  {| model := {| m_kind := M3Gnet; m_args := []; m_params := [5; 6]%Q;
                 m_training := false |};
     optimizer := {| adam_lr := (1 # 1000)%Q; adam_eps := (1 # 10000000)%Q;
                     adam_state := None |};
     scheduler := StepLR 10 (95 # 100)%Q None;
     ema := {| ema_decay := (99 # 100)%Q; shadow_params := [5; 6]%Q;
               collected_params := None |};
     model_name := "m3gnet";
     validation_metrics := {[ "loss" := Finite 0 ]};
     last_epoch := -1; description := "";
     best_metric := Finite 10; rank := None; idx := None |}.

(** A record [save] wrote for the trained engine, and the pre-trained
    record. *)
Definition toy_saved_files : gmap string (checkpoint Q) :=
  {[ "saved.pth" := to_checkpoint toy_trained ]}.
Definition toy_described_files : gmap string (checkpoint Q) :=
  {[ "saved.pth" := to_checkpoint (set_description "run 7" toy_trained) ]}.
Definition toy_pretrained_files : gmap string (checkpoint Q) :=
  {[ pretrained_path := toy_best ]}.

(** Training passes that report the validation loss 5 at every epoch. *)
Definition toy_run_epoch_low (epoch : Z) (p : Potential Q)
    : result (Model Q * Adam Q * Scheduler Q * ExponentialMovingAverage Q
              * metric) :=
  Ok (model p, optimizer p, scheduler p, ema p,
      {| val_loss := Finite 5; val_mae_e := Finite 0; val_mae_f := Finite 0;
         val_mae_s := Finite 0 |}).

(** Validation losses 3, 1, 2, 1, 5, 6, ... by epoch. *)
Definition toy_run_epoch_dip (epoch : Z) (p : Potential Q)
    : result (Model Q * Adam Q * Scheduler Q * ExponentialMovingAverage Q
              * metric) :=
  Ok (model p, optimizer p, scheduler p, ema p,
      {| val_loss := Finite match epoch with
                            | 0 => 3 | 1 => 1 | 2 => 2 | 3 => 1
                            | _ => inject_Z (epoch + 1)
                            end;
         val_mae_e := Finite 0; val_mae_f := Finite 0;
         val_mae_s := Finite 0 |}).

(** Two structures, of one and of two atoms, and a strain for each. *)
Definition toy_batch_two : graph_batch Q :=
  {| gb_atom_pos := [(1, 0, 0); (0, 1, 0); (0, 0, 1)]%Q;
     gb_cell := [((2, 0, 0), (0, 2, 0), (0, 0, 2));
                 ((3, 0, 0), (0, 3, 0), (0, 0, 3))]%Q;
     gb_num_atoms := [1; 2]%nat;
     gb_energy := [6; 6]%Q;
     gb_forces := [(0, 0, 0); (0, 0, 0); (0, 0, 0)]%Q;
     gb_stress := [((0, 0, 0), (0, 0, 0), (0, 0, 0));
                   ((0, 0, 0), (0, 0, 0), (0, 0, 0))]%Q |}.
Definition toy_input_two : gmap string nat :=
  (batch_to_dict toy_batch_two toy_torch).1.
Definition toy_state_two : Torch Q :=
  (batch_to_dict toy_batch_two toy_torch).2.
Definition toy_strains : list (mat3 Q) :=
  [((1, 0, 0), (0, 0, 0), (0, 0, 0));
   ((0, 0, 0), (0, 2, 0), (0, 0, 0))]%Q.

(** Validation losses NaN, 5, NaN, 4, NaN, ... by epoch. *)
Definition toy_run_epoch_nan (epoch : Z) (p : Potential Q)
    : result (Model Q * Adam Q * Scheduler Q * ExponentialMovingAverage Q
              * metric) :=
  Ok (model p, optimizer p, scheduler p, ema p,
      {| val_loss := match epoch with
                     | 1 => Finite 5 | 3 => Finite 4 | _ => NaN
                     end;
         val_mae_e := Finite 0; val_mae_f := Finite 0;
         val_mae_s := Finite 0 |}).

(** A best record as [Potential.save] writes it for an engine that was
    loaded and never trained by [train_model]: epoch 0 and the single
    metric ["loss"]. *)
Definition toy_best_loss_only : checkpoint Q :=
  {| ck_model_name := Some "m3gnet"; ck_model := Some (EDict [1; 2]%Q);
     ck_model_args := Some []; ck_optimizer := Some (EDict []);
     ck_ema := Some (EDict [1; 2]%Q); ck_scheduler := Some (EDict []);
     ck_last_epoch := Some 0;
     ck_validation_metrics := Some {[ "loss" := Finite 1 ]};
     ck_description := Some "" |}.
Definition toy_world_loss_only : World Q :=
  {| disk := {[ BestModel := toy_best_loss_only ]}; writes := [] |}.

(** An engine resumed after epoch 6. *)
Definition toy_resumed_6 : Potential Q :=
  {| model := toy_model; optimizer := optimizer toy_self;
     scheduler := scheduler toy_self; ema := ema toy_self;
     model_name := "m3gnet";
     validation_metrics := {[ "loss" := Finite 1 ]};
     last_epoch := 6; description := "";
     best_metric := Finite 10; rank := None; idx := None |}.

(** The resumed engine once [train_model] has set the metric index. *)
Definition toy_indexed : Potential Q :=
  set_rank_idx None (Some 0%nat) toy_resumed.

Definition toy_metric : metric :=
  {| val_loss := Finite (1 # 2); val_mae_e := Finite 0;
     val_mae_f := Finite 0; val_mae_s := Finite 0 |}.

(** Two data loaders, of one and of two batches. *)
Definition toy_loaders : list (list (graph_batch Q)) :=
  [[toy_batch]; [toy_batch; toy_batch]].

(** A network of three encoder layers with two parameters each, and an
    engine that is not an encoder-based one. *)
Definition toy_module : module Q :=
  [{| pm_data := 1%Q; pm_requires_grad := true |};
   {| pm_data := 2%Q; pm_requires_grad := true |}].
Definition toy_encoder : Encoder Q :=
  {| unified_encoder_layers := [toy_module; toy_module; toy_module];
     unified_final_invariant_ln := toy_module;
     unified_output_layer := toy_module; layer_norm := toy_module;
     lm_head_transform_weight := toy_module; energy_out := toy_module;
     finetune_head := None; other_parameters := toy_module |}.
Definition toy_finetune_state : finetune_state Q :=
  {| ft_model_name := "m3gnet"; ft_model := toy_encoder;
     ft_finetune_mode := false;
     ft_finetune_task_mean := 0; ft_finetune_task_std := 1;
     ft_use_finetune_label_loss := false |}.


(** * Properties *)

(** ** Degraded restore in [Potential.load] *)

Section LoadFacts.
Context {R : Type} {SR : Scalar R}.
Variable construct_model : model_kind → model_args → result (state_dict R).
Variable model_load_state_dict : Model R → state_dict R → result (Model R).
Variable optimizer_load_state_dict : Adam R → state_dict R → result (Adam R).
Variable scheduler_load_state_dict :
  Scheduler R → state_dict R → result (Scheduler R).
Variable ema_load_state_dict :
  ExponentialMovingAverage R → state_dict R
  → result (ExponentialMovingAverage R).



End LoadFacts.


(** ** [Potential.load]: what it returns and what it refuses *)

Section LoadMore.
Context {R : Type} {SR : Scalar R}.
Variable construct_model : model_kind → model_args → result (state_dict R).
Variable model_load_state_dict : Model R → state_dict R → result (Model R).
Variable optimizer_load_state_dict : Adam R → state_dict R → result (Adam R).
Variable scheduler_load_state_dict :
  Scheduler R → state_dict R → result (Scheduler R).
Variable ema_load_state_dict :
  ExponentialMovingAverage R → state_dict R
  → result (ExponentialMovingAverage R).

(** A completed [load], step by step. *)
Lemma load_inv (name : string) (load_path : option string)
    (load_training_state : bool) (kw : kwargs)
    (files : gmap string (checkpoint R)) (p : Potential R) :
  load construct_model model_load_state_dict optimizer_load_state_dict
      scheduler_load_state_dict ema_load_state_dict name load_path load_training_state kw files = Ok p →
  ∃ path ck kind args params mdl,
    (load_path = Some path
     ∨ load_path = None ∧ name = "m3gnet" ∧ path = pretrained_path)
    ∧ files !! path = Some ck
    ∧ ck_model_name ck = Some name
    ∧ (name = "m3gnet" ∧ kind = M3Gnet
       ∨ name = "m3gnet_multi_head" ∧ kind = M3Gnet_multi_head)
    ∧ ck_model_args ck = Some args
    ∧ construct_model kind args = Ok params
    ∧ load_direct model_load_state_dict
        {| m_kind := kind; m_args := args; m_params := params;
           m_training := true |} (ck_model ck) = Ok mdl
    ∧ kw_model_name kw = None ∧ kw_last_epoch kw = None
    ∧ kw_validation_metrics kw = None ∧ kw_description kw = None
    ∧ let ts := if load_training_state
                then load_training_state_of optimizer_load_state_dict
                       scheduler_load_state_dict ema_load_state_dict ck mdl
                else default_training_state in
      Potential_init (set_training false mdl) (ts_optimizer ts)
        (ts_scheduler ts) (ts_ema ts)
        {| kw_lr := kw_lr kw; kw_step_size := kw_step_size kw;
           kw_gamma := kw_gamma kw; kw_factor := kw_factor kw;
           kw_patience := kw_patience kw; kw_ema_decay := kw_ema_decay kw;
           kw_model_name := Some name;
           kw_validation_metrics := Some (ts_validation_metrics ts);
           kw_last_epoch := Some (ts_last_epoch ts);
           kw_description := Some (ts_description ts) |} = Ok p.
Proof.
  unfold load. intros H.
  assert (∃ path, (load_path = Some path
                   ∨ load_path = None ∧ name = "m3gnet"
                     ∧ path = pretrained_path)
                  ∧ match load_path with
                    | None => if bool_decide (name = "m3gnet")
                              then Ok pretrained_path
                              else Raise NotImplementedError
                    | Some p => Ok p
                    end = Ok path) as (path & Hpath & Heq).
  { destruct load_path as [q|].
    - exists q. split; [by left|reflexivity].
    - destruct (decide (name = "m3gnet")) as [Hn|Hn].
      2:{ by rewrite (bool_decide_eq_false_2 (name = "m3gnet")) in H. }
      rewrite !(bool_decide_eq_true_2 (name = "m3gnet")) by done.
      exists pretrained_path. split; [by right|done]. }
  rewrite Heq in H. cbn [mbind result_bind] in H.
  destruct (files !! path) as [ck|] eqn:Hck; [|done].
  cbn [of_option mbind result_bind] in H.
  destruct (ck_model_name ck) as [n|] eqn:Hn; [|done].
  cbn [of_option mbind result_bind] in H.
  destruct (decide (n = name)) as [->|Hnn];
    [|by rewrite (bool_decide_eq_false_2 (n = name)) in H].
  rewrite (bool_decide_eq_true_2 (name = name)) in H by done.
  cbn [negb] in H.
  assert (∃ kind, (name = "m3gnet" ∧ kind = M3Gnet
                   ∨ name = "m3gnet_multi_head" ∧ kind = M3Gnet_multi_head)
                  ∧ (if bool_decide (name = "m3gnet") then Ok M3Gnet
                     else if bool_decide (name = "m3gnet_multi_head")
                          then Ok M3Gnet_multi_head
                          else Raise NotImplementedError) = Ok kind)
    as (kind & Hkind & Hk).
  { destruct (decide (name = "m3gnet")) as [H1|H1].
    { exists M3Gnet. split; [by left|].
      by rewrite (bool_decide_eq_true_2 (name = "m3gnet")). }
    rewrite (bool_decide_eq_false_2 (name = "m3gnet")) in H |- * by done.
    destruct (decide (name = "m3gnet_multi_head")) as [H2|H2].
    { exists M3Gnet_multi_head. split; [by right|].
      by rewrite (bool_decide_eq_true_2 (name = "m3gnet_multi_head")). }
    by rewrite (bool_decide_eq_false_2 (name = "m3gnet_multi_head")) in H. }
  rewrite Hk in H. cbn [mbind result_bind] in H.
  destruct (ck_model_args ck) as [args|] eqn:Ha; [|done].
  cbn [of_option mbind result_bind] in H.
  destruct (construct_model kind args) as [params|] eqn:Hc; [|done].
  cbn [mbind result_bind] in H.
  destruct (load_direct model_load_state_dict _ (ck_model ck))
    as [mdl|] eqn:Hm; [|done].
  cbn [mbind result_bind] in H.
  match type of H with
  | context [bool_decide ?P] =>
    destruct (decide P) as [Hkw|Hkw];
      [by rewrite (bool_decide_eq_true_2 P) in H|];
    rewrite (bool_decide_eq_false_2 P) in H by done
  end.
  exists path, ck, kind, args, params, mdl.
  do 7 (split; [done|]).
  assert (Hnone : ∀ {A} (o : option A), ¬ is_Some o → o = None).
  { intros A [a|] Ho; [|done]. destruct Ho. by eexists. }
  split; [apply Hnone; tauto|]. split; [apply Hnone; tauto|].
  split; [apply Hnone; tauto|]. split; [apply Hnone; tauto|].
  exact H.
Qed.

(** What [__init__] makes of the keyword arguments [load] passes. *)
Lemma Potential_init_inv (mdl : Model R) (opt : option (Adam R))
    (sch : scheduler_arg R) (em : option (ExponentialMovingAverage R))
    (kw : kwargs) (p : Potential R) :
  Potential_init mdl opt sch em kw = Ok p →
  model p = mdl
  ∧ optimizer p = default {| adam_lr := default (1 # 1000)%Q (kw_lr kw);
                             adam_eps := (1 # 10000000)%Q;
                             adam_state := None |} opt
  ∧ ema p = default {| ema_decay := default (99 # 100)%Q (kw_ema_decay kw);
                       shadow_params := m_params mdl;
                       collected_params := None |} em
  ∧ model_name p = default "m3gnet" (kw_model_name kw)
  ∧ validation_metrics p
    = default {[ "loss" := Finite 10000 ]} (kw_validation_metrics kw)
  ∧ last_epoch p = default (-1) (kw_last_epoch kw)
  ∧ description p = default "" (kw_description kw)
  ∧ best_metric p = Finite 10 ∧ rank p = None ∧ idx p = None
  ∧ match sch with
    | SchedulerObject s => scheduler p = s
    | SchedulerName s =>
      s = "StepLR"
      ∧ scheduler p = StepLR (default 10 (kw_step_size kw))
                        (default (95 # 100)%Q (kw_gamma kw)) None
      ∨ s = "ReduceLROnPlateau"
        ∧ scheduler p = ReduceLROnPlateau (default (8 # 10)%Q (kw_factor kw))
                          (default 50 (kw_patience kw)) None
    end.
Proof.
  unfold Potential_init. intros H.
  destruct sch as [s|s]; cbn [mbind result_bind] in H.
  - case_bool_decide as H1.
    + cbn [mbind result_bind] in H. injection H as <-. cbn.
      destruct opt, em; repeat split; try done; by left.
    + case_bool_decide as H2; [|done].
      cbn [mbind result_bind] in H. injection H as <-. cbn.
      destruct opt, em; repeat split; try done; by right.
  - injection H as <-. cbn. destruct opt, em; repeat split; done.
Qed.

(** X1. An engine [load] returns was built for one of the two M3GNet
    kinds, from a record stored under the requested path (the pre-trained
    path when none is given, which only ["m3gnet"] has) whose [model_name]
    entry equals the requested name; it carries that name, is in eval mode,
    and its in-memory best metric, rank and metric index are the
    constructor's: 10, [None] and unset. *)
Theorem load_returns_named_eval_engine (name : string)
    (load_path : option string) (load_training_state : bool) (kw : kwargs)
    (files : gmap string (checkpoint R)) (p : Potential R) :
  load construct_model model_load_state_dict optimizer_load_state_dict
      scheduler_load_state_dict ema_load_state_dict name load_path load_training_state kw files = Ok p →
  (name = "m3gnet" ∨ name = "m3gnet_multi_head")
  ∧ (load_path = None → name = "m3gnet")
  ∧ (∃ ck, files !! default pretrained_path load_path = Some ck
           ∧ ck_model_name ck = Some name)
  ∧ model_name p = name
  ∧ m_training (model p) = false
  ∧ best_metric p = Finite 10 ∧ rank p = None ∧ idx p = None.
Proof.
  intros H. apply load_inv in H
    as (path & ck & kind & args & params & mdl & Hpath & Hck & Hn & Hkind
        & _ & _ & _ & _ & _ & _ & _ & Hinit).
  apply Potential_init_inv in Hinit
    as (Hm & _ & _ & Hname & _ & _ & _ & Hb & Hr & Hi & _).
  split; [destruct Hkind as [[? _]|[? _]]; [by left|by right]|].
  split. { intros ->. by destruct Hpath as [?|(_ & ? & _)]. }
  split.
  { exists ck. split; [|done].
    by destruct Hpath as [->|(-> & _ & ->)]. }
  split; [done|]. split; [by rewrite Hm|]. done.
Qed.

(** X2. With [load_training_state=False] nothing of the record's training
    state reaches the engine: whatever the record holds, the optimizer is a
    fresh Adam, the scheduler a fresh StepLR, the EMA a fresh average over
    the loaded parameters, the epoch is -1, the metrics are [{"loss": 0.0}]
    and the description is empty. *)
Theorem load_without_training_state (name : string)
    (load_path : option string) (kw : kwargs)
    (files : gmap string (checkpoint R)) (p : Potential R) :
  load construct_model model_load_state_dict optimizer_load_state_dict
      scheduler_load_state_dict ema_load_state_dict name load_path false kw files = Ok p →
  optimizer p = {| adam_lr := default (1 # 1000)%Q (kw_lr kw);
                   adam_eps := (1 # 10000000)%Q; adam_state := None |}
  ∧ scheduler p = StepLR (default 10 (kw_step_size kw))
                    (default (95 # 100)%Q (kw_gamma kw)) None
  ∧ ema p = {| ema_decay := default (99 # 100)%Q (kw_ema_decay kw);
               shadow_params := m_params (model p);
               collected_params := None |}
  ∧ last_epoch p = -1
  ∧ validation_metrics p = {[ "loss" := Finite 0 ]}
  ∧ description p = "".
Proof.
  intros H. apply load_inv in H
    as (path & ck & kind & args & params & mdl & _ & _ & _ & _
        & _ & _ & _ & _ & _ & _ & _ & Hinit).
  cbn zeta in Hinit.
  apply Potential_init_inv in Hinit
    as (Hm & Ho & He & _ & Hv & Hl & Hd & _ & _ & _ & Hs).
  cbn in *. rewrite Hm. split; [done|]. split.
  { by destruct Hs as [[_ ?]|[? _]]. }
  done.
Qed.

(** Reading back a record [save] wrote. *)
Lemma load_saved_record (self : Potential R) (path : string)
    (load_training_state : bool) (kw : kwargs)
    (files : gmap string (checkpoint R)) (kind : model_kind)
    (params : state_dict R) (mdl : Model R) :
  files !! path = Some (to_checkpoint self) →
  (model_name self = "m3gnet" ∧ kind = M3Gnet
   ∨ model_name self = "m3gnet_multi_head" ∧ kind = M3Gnet_multi_head) →
  construct_model kind (m_args (model self)) = Ok params →
  model_load_state_dict
    {| m_kind := kind; m_args := m_args (model self); m_params := params;
       m_training := true |} (m_params (model self)) = Ok mdl →
  kw_model_name kw = None → kw_last_epoch kw = None →
  kw_validation_metrics kw = None → kw_description kw = None →
  ∃ p,
    load construct_model model_load_state_dict optimizer_load_state_dict
      scheduler_load_state_dict ema_load_state_dict
      (model_name self) (Some path) load_training_state kw files = Ok p
    ∧ model p = set_training false mdl
    ∧ model_name p = model_name self
    ∧ best_metric p = Finite 10
    ∧ (if load_training_state
       then last_epoch p = last_epoch self
            ∧ validation_metrics p = validation_metrics self
            ∧ description p = description self
       else last_epoch p = -1
            ∧ validation_metrics p = {[ "loss" := Finite 0 ]}
            ∧ description p = "").
Proof.
  intros Hf Hkind Hc Hm Hk1 Hk2 Hk3 Hk4. unfold load.
  cbn [mbind result_bind]. rewrite Hf.
  cbn [of_option mbind result_bind to_checkpoint ck_model_name ck_model_args
       ck_model].
  rewrite bool_decide_eq_true_2 by done. cbn [negb].
  assert ((if bool_decide (model_name self = "m3gnet") then Ok M3Gnet
           else if bool_decide (model_name self = "m3gnet_multi_head")
                then Ok M3Gnet_multi_head
                else Raise NotImplementedError) = Ok kind) as ->.
  { destruct Hkind as [[-> ->]|[-> ->]]; done. }
  cbn [mbind result_bind]. rewrite Hc. cbn [mbind result_bind].
  unfold load_direct at 1. cbn [of_option mbind result_bind].
  rewrite Hm. cbn [mbind result_bind].
  rewrite Hk1, Hk2, Hk3, Hk4.
  rewrite bool_decide_eq_false_2
    by (intros [[? [=]]|[[? [=]]|[[? [=]]|[? [=]]]]]).
  match goal with
  | |- ∃ p, ?init = Ok p ∧ _ =>
    destruct init as [p|e] eqn:Hinit
  end.
  - exists p. split; [done|].
    apply Potential_init_inv in Hinit
      as (Hmod & _ & _ & Hname & Hv & Hl & Hd & Hb & _).
    destruct load_training_state; cbn in *; done.
  - exfalso. unfold Potential_init in Hinit.
    destruct load_training_state;
      cbn [ts_scheduler load_training_state_of default_training_state]
        in Hinit.
    + destruct (restore scheduler_load_state_dict _ _);
        cbn [mbind result_bind] in Hinit; [done|].
      rewrite bool_decide_eq_true_2 in Hinit by done. done.
    + rewrite bool_decide_eq_true_2 in Hinit by done. done.
Qed.

(** X3. Reading back a record [save] wrote: the engine [load] returns has
    the saved name, epoch, validation metrics and description, and its
    model is what [load_state_dict] makes of the saved parameters, put in
    eval mode.  The in-memory best metric is not part of the record: it is
    10 again. *)
Theorem save_then_load (self : Potential R) (path : string) (kw : kwargs)
    (files : gmap string (checkpoint R)) (kind : model_kind)
    (params : state_dict R) (mdl : Model R) :
  files !! path = Some (to_checkpoint self) →
  (model_name self = "m3gnet" ∧ kind = M3Gnet
   ∨ model_name self = "m3gnet_multi_head" ∧ kind = M3Gnet_multi_head) →
  construct_model kind (m_args (model self)) = Ok params →
  model_load_state_dict
    {| m_kind := kind; m_args := m_args (model self); m_params := params;
       m_training := true |} (m_params (model self)) = Ok mdl →
  kw_model_name kw = None → kw_last_epoch kw = None →
  kw_validation_metrics kw = None → kw_description kw = None →
  ∃ p,
    load construct_model model_load_state_dict optimizer_load_state_dict
      scheduler_load_state_dict ema_load_state_dict
      (model_name self) (Some path) true kw files = Ok p
    ∧ model p = set_training false mdl
    ∧ model_name p = model_name self
    ∧ last_epoch p = last_epoch self
    ∧ validation_metrics p = validation_metrics self
    ∧ description p = description self
    ∧ best_metric p = Finite 10.
Proof.
  intros Hf Hkind Hc Hm Hk1 Hk2 Hk3 Hk4.
  destruct (load_saved_record self path true kw files kind params mdl
              Hf Hkind Hc Hm Hk1 Hk2 Hk3 Hk4)
    as (p & Hload & ? & ? & ? & ? & ? & ?).
  by exists p.
Qed.


End LoadMore.

(** ** Comparison of metrics *)

Lemma Qltb_lt a b : Qltb a b = true ↔ (a < b)%Q.
Proof. unfold Qltb, Qlt. apply Z.ltb_lt. Qed.

Lemma Qltb_nlt a b : Qltb a b = false ↔ (b <= a)%Q.
Proof. unfold Qltb, Qle. rewrite Z.ltb_ge. reflexivity. Qed.

Lemma flt_nan_r (a : float) : flt a NaN = false.
Proof. by destruct a. Qed.

Lemma flt_not_nan (a b : float) : flt a b = true → a ≠ NaN ∧ b ≠ NaN.
Proof. by destruct a, b. Qed.

Lemma flt_irrefl (a : float) : flt a a = false.
Proof.
  destruct a as [| |q|]; try done. cbn. apply Qltb_nlt, Qle_refl.
Qed.

Lemma flt_trans (a b c : float) :
  flt a b = true → flt b c = true → flt a c = true.
Proof.
  destruct a as [| |p|], b as [| |q|], c as [| |r|]; cbn; try done.
  rewrite !Qltb_lt. apply Qlt_trans.
Qed.

(** [a < b] and not [c < b], with [c] a number: [a < c]. *)
Lemma flt_below (a b c : float) :
  flt a b = true → flt c b = false → c ≠ NaN → flt a c = true.
Proof.
  destruct a as [| |p|], b as [| |q|], c as [| |r|]; cbn; try done.
  rewrite !Qltb_lt, Qltb_nlt. intros H1 H2 _.
  exact (Qlt_le_trans _ _ _ H1 H2).
Qed.

(** Not [c < b] and [a < b]: not [c < a]. *)
Lemma flt_not_below (a b c : float) :
  flt a b = true → flt c b = false → flt c a = false.
Proof.
  intros H1 H2. destruct (flt c a) eqn:H3; [|done].
  by rewrite (flt_trans _ _ _ H3 H1) in H2.
Qed.

(** ** Checkpoint selection and early stopping *)

Section CheckpointFacts.
Context {R : Type} {SR : Scalar R}.
Implicit Types (self : Potential R) (w : World R) (m : metric).

(** C3. With [save_checkpoint = False] the checkpoint step performs no
    [torch.save] at all (the directory and the list of writes are the ones
    it started from) and still evaluates the early-stop test: it signals a
    stop exactly when a best record is on disk, the metric name is a
    supported one, and [epoch > best_model["last_epoch"] + patience]. *)
Theorem save_model_without_persistence
    (epoch early_stop_patience : Z) (metric_name : string) m
    (ckpt_interval : Z) self w :
  ∃ stop self',
    save_model epoch early_stop_patience metric_name false m ckpt_interval
      self w = Ok (stop, w, self')
    ∧ m_params (model self') = m_params (model self)
    ∧ (stop = true ↔
       ∃ best_model e_best,
         disk w !! BestModel = Some best_model
         ∧ metric_name ∈ supported_metrics
         ∧ ck_last_epoch best_model = Some e_best
         ∧ e_best + early_stop_patience < epoch).
Proof.
  unfold save_model, average_parameters, save_model_try, torch_load.
  destruct (disk w !! BestModel) as [best|] eqn:Hd; simpl.
  2:{ do 2 eexists. split; [reflexivity|]. split; [done|].
      split; [done|]. by intros (? & ? & ? & _). }
  case_bool_decide as Hn; simpl.
  2:{ do 2 eexists. split; [reflexivity|]. split; [done|].
      split; [done|]. intros (? & ? & _ & ? & _). done. }
  destruct (ck_last_epoch best) as [eb|] eqn:He; simpl.
  2:{ do 2 eexists. split; [reflexivity|]. split; [done|].
      split; [done|]. intros (? & ? & [= <-] & _ & ? & _). congruence. }
  destruct (eb + early_stop_patience <? epoch) eqn:Hlt; simpl.
  - do 2 eexists. split; [reflexivity|]. split; [done|].
    split; [|done]. intros _. exists best, eb. apply Z.ltb_lt in Hlt. done.
  - do 2 eexists. split; [reflexivity|]. split; [done|].
    split; [done|]. intros (? & ? & [= <-] & _ & ? & ?).
    apply Z.ltb_ge in Hlt. simplify_eq. lia.
Qed.

Lemma saved_name_lookup (i : nat) :
  (i < 4)%nat → ∃ n, saved_name !! i = Some n ∧ n ∈ saved_name.
Proof.
  intros Hi. destruct i as [|[|[|[|]]]]; try lia;
    (eexists; split; [reflexivity|]); unfold saved_name; set_solver.
Qed.

Lemma metric_at_ok m (i : nat) : (i < 4)%nat → ∃ q, metric_at m i = Ok q.
Proof. intros Hi. destruct i as [|[|[|[|]]]]; try lia; eauto. Qed.

Lemma supported_index (metric_name : string) :
  metric_name ∈ supported_metrics →
  ∃ i, fst <$> list_find (λ s, s = metric_name) supported_metrics = Some i
       ∧ (i < 4)%nat.
Proof.
  unfold supported_metrics. intros H.
  repeat (apply elem_of_cons in H as [->|H]);
    [exists 0%nat | exists 1%nat | exists 2%nat | exists 3%nat | ];
    try (split; [reflexivity | lia]).
  by apply elem_of_nil in H.
Qed.

Lemma save_complete self f w :
  four_metrics (validation_metrics self) →
  best_complete w → best_complete (save self f w).
Proof.
  intros H4 Hw c. unfold save, torch_save. simpl.
  destruct (decide (f = BestModel)) as [->|Hne].
  - rewrite lookup_insert_eq. intros [= <-]. split; simpl; eauto.
  - rewrite lookup_insert_ne by done. apply Hw.
Qed.

(** One call of the distributed checkpoint step. *)
Lemma save_model_ddp_step (epoch P : Z) (metric_name : string)
    (save_checkpoint : bool) m (ckpt_interval : Z) self w
    (stop : bool) w' self' (i : nat) q :
  save_model_ddp epoch P metric_name save_checkpoint m ckpt_interval self w
    = Ok (stop, w', self') →
  idx self = Some i → metric_at m i = Ok q →
  stop = false ∧ idx self' = Some i
  ∧ last_epoch self' = last_epoch self
  ∧ validation_metrics self' = validation_metrics self
  ∧ best_metric self'
    = (if flt q (best_metric self) then q else best_metric self)
  ∧ ∃ new, writes w' = (writes w ++ new)%list
      ∧ ∀ ck, (BestModel, ck) ∈ new →
          flt q (best_metric self) = true
          ∧ ck_last_epoch ck = Some (last_epoch self).
Proof.
  unfold save_model_ddp, average_parameters. intros Hrun Hidx Hq.
  set (self1 := ema_copy_to (ema_store self)) in Hrun.
  destruct (bool_decide (metric_name ∈ supported_metrics)); [|done].
  cbn [negb] in Hrun. change (idx self1) with (idx self) in Hrun.
  rewrite Hidx in Hrun. cbn [of_option mbind result_bind] in Hrun.
  rewrite Hq in Hrun. cbn [mbind result_bind] in Hrun.
  change (best_metric self1) with (best_metric self) in Hrun.
  assert (Hr1 : rank self1 = rank self) by done.
  destruct (flt q (best_metric self)) eqn:Hlt;
    destruct save_checkpoint;
    destruct (bool_decide (rank self1 = Some 0)) eqn:Hr;
    cbn [andb mbind result_bind] in Hrun;
    try (change (rank (set_best_metric q self1)) with (rank self1) in Hrun;
         rewrite Hr in Hrun);
    cbn [andb mbind result_bind] in Hrun;
    try (destruct (ckpt_interval =? 0); [done|];
         destruct (epoch `mod` ckpt_interval =? 0));
    cbn [andb mbind result_bind] in Hrun.
  all: injection Hrun as <- <- <-.
  all: do 5 (split; [done|]).
  all: unfold save, torch_save; cbn [writes]; rewrite <- ?(assoc_L (++)).
  all: try (exists []; split; [by rewrite app_nil_r|];
            intros ck Hin; by apply elem_of_nil in Hin).
  all: eexists; (split; [reflexivity|]); intros ck Hin.
  all: repeat (apply elem_of_cons in Hin as [Hin|Hin]; [by simplify_eq|]).
  all: by apply elem_of_nil in Hin.
Qed.

Lemma metrics_lookup m (i : nat) q :
  metric_at m i = Ok q →
  ∃ n, saved_name !! i = Some n
       ∧ (<["loss" := val_loss m]> (<["MAE_energy" := val_mae_e m]>
          (<["MAE_force" := val_mae_f m]>
          (<["MAE_stress" := val_mae_s m]> (∅ : gmap string float))))) !! n
         = Some q.
Proof.
  destruct i as [|[|[|[|]]]]; cbn [metric_at]; intros [= <-];
    (eexists; split; [reflexivity|]); by simplify_map_eq.
Qed.

Lemma snoc_eq_split {A} (l pre post : list A) (a x : A) :
  (l ++ [a] = pre ++ x :: post)%list →
  (post = [] ∧ pre = l ∧ x = a)
  ∨ ∃ post', post = (post' ++ [a])%list ∧ l = (pre ++ x :: post')%list.
Proof.
  destruct post as [|y post _] using rev_ind.
  - intros H. apply app_inj_tail in H as [-> ->]. by left.
  - intros H. right. exists post.
    change (pre ++ x :: post ++ [y])%list
      with (pre ++ (x :: post) ++ [y])%list in H.
    rewrite (assoc_L (++)) in H. apply app_inj_tail in H as [-> ->]. done.
Qed.

Lemma py_range_lookup (a b : Z) (k : nat) (y : Z) :
  py_range a b !! k = Some y → y = a + Z.of_nat k.
Proof.
  unfold py_range. rewrite list_lookup_fmap. intros H.
  destruct (seq 0 (Z.to_nat (b - a)) !! k) as [j|] eqn:E; [|done].
  apply lookup_seq in E as [-> _]. by injection H as <-.
Qed.

Lemma length_py_range (a b : Z) : length (py_range a b) = Z.to_nat (b - a).
Proof. unfold py_range. by rewrite length_fmap, length_seq. Qed.

End CheckpointFacts.

(** ** The checkpoint step with persistence *)

Section CheckpointMore.
Context {R : Type} {SR : Scalar R}.
Implicit Types (self : Potential R) (w : World R) (m : metric).

Lemma writes_save_all self (fs : list ckpt_file) w :
  writes (save_all self fs w)
  = writes w ++ ((λ f, (f, to_checkpoint self)) <$> fs).
Proof.
  revert w. induction fs as [|f fs IH]; intros w; cbn.
  { by rewrite app_nil_r. }
  unfold save_all in IH. rewrite IH. unfold save, torch_save. cbn.
  by rewrite <- (assoc_L (++)).
Qed.

Lemma disk_save_all_other self (fs : list ckpt_file) w (f : ckpt_file) :
  f ∉ fs → disk (save_all self fs w) !! f = disk w !! f.
Proof.
  revert w. induction fs as [|g fs IH]; intros w Hf; [done|].
  cbn. unfold save_all in IH. rewrite IH.
  - unfold save, torch_save. cbn. rewrite lookup_insert_ne; [done|].
    intros ->. apply Hf. apply elem_of_cons. by left.
  - intros Hin. apply Hf. apply elem_of_cons. by right.
Qed.

Lemma disk_save_all_in self (fs : list ckpt_file) w (f : ckpt_file) :
  f ∈ fs → disk (save_all self fs w) !! f = Some (to_checkpoint self).
Proof.
  revert w. induction fs as [|g fs IH] using rev_ind; intros w Hf.
  { by apply elem_of_nil in Hf. }
  unfold save_all in *. rewrite foldl_app. cbn.
  unfold save at 1, torch_save. cbn.
  destruct (decide (f = g)) as [->|Hne].
  - by rewrite lookup_insert_eq.
  - rewrite lookup_insert_ne by done. apply IH.
    apply elem_of_app in Hf as [Hf|Hf]; [done|].
    apply list_elem_of_singleton in Hf. done.
Qed.

(** The [try] body writes at most the best record. *)
Lemma save_model_try_world self (epoch P : Z) (metric_name : string)
    (save_checkpoint : bool) m w out :
  save_model_try self epoch P metric_name save_checkpoint m w = out →
  ∃ bests,
    match out with Completed w1 | Returned w1 | Excepted w1 => w1 end
    = save_all self bests w
    ∧ (∀ f, f ∈ bests → f = BestModel)
    ∧ (save_checkpoint = false → bests = [])
    ∧ (length bests ≤ 1)%nat
    ∧ (∀ w1, out = Returned w1 →
         ∃ best_model e_best,
           disk w !! BestModel = Some best_model
           ∧ ck_last_epoch best_model = Some e_best
           ∧ e_best + P < epoch).
Proof.
  unfold save_model_try, torch_load. intros <-.
  assert (H0 : ∃ bests : list ckpt_file, w = save_all self bests w
            ∧ (∀ f, f ∈ bests → f = BestModel)
            ∧ (save_checkpoint = false → bests = [])
            ∧ (length bests ≤ 1)%nat).
  { exists []. split; [done|]. split; [by intros f ?%elem_of_nil|].
    split; [done|]. cbn. lia. }
  assert (H1 : save_checkpoint = true →
            ∃ bests : list ckpt_file,
              save self BestModel w = save_all self bests w
              ∧ (∀ f, f ∈ bests → f = BestModel)
              ∧ (save_checkpoint = false → bests = [])
              ∧ (length bests ≤ 1)%nat).
  { intros ->. exists [BestModel]. split; [done|].
    split; [by intros f ->%list_elem_of_singleton|]. split; [done|].
    cbn. lia. }
  assert (Hnot : ∀ (w0 : World R) (P0 : Prop),
            (∃ bests : list ckpt_file, w0 = save_all self bests w
               ∧ (∀ f, f ∈ bests → f = BestModel)
               ∧ (save_checkpoint = false → bests = [])
               ∧ (length bests ≤ 1)%nat) →
            (∀ w1, (∀ w2, Returned w1 = Returned w2 → P0) → True) →
            True) by done.
  clear Hnot.
  destruct (disk w !! BestModel) as [best|] eqn:Hd; cbn [of_option].
  2:{ destruct H0 as (bs & ? & ? & ? & ?). exists bs. by repeat split. }
  destruct (negb (bool_decide (metric_name ∈ supported_metrics))).
  { destruct H0 as (bs & ? & ? & ? & ?). exists bs. by repeat split. }
  match goal with
  | |- context [match ?r with Ok _ => _ | Raise _ => _ end] =>
    destruct r as [b|] eqn:Himp
  end.
  2:{ destruct H0 as (bs & ? & ? & ? & ?). exists bs. by repeat split. }
  assert (Hb : b = true → save_checkpoint = true).
  { intros ->. destruct save_checkpoint; [done|]. by injection Himp. }
  assert (Hw : ∃ bests : list ckpt_file,
            (if b then save self BestModel w else w) = save_all self bests w
            ∧ (∀ f, f ∈ bests → f = BestModel)
            ∧ (save_checkpoint = false → bests = [])
            ∧ (length bests ≤ 1)%nat).
  { destruct b; [by apply H1, Hb|done]. }
  destruct Hw as (bs & Hbs & ? & ? & ?). exists bs.
  destruct (ck_last_epoch best) as [eb|] eqn:He.
  2:{ by repeat split. }
  destruct (eb + P <? epoch) eqn:Hlt.
  - repeat split; try done. intros _ _. exists best, eb.
    apply Z.ltb_lt in Hlt. done.
  - by repeat split.
Qed.

(** [save_model], step by step: the files a completed call has written. *)
Lemma save_model_inv (epoch P : Z) (metric_name : string)
    (save_checkpoint : bool) m (ckpt_interval : Z) self w
    (stop : bool) w' self' :
  save_model epoch P metric_name save_checkpoint m ckpt_interval self w
    = Ok (stop, w', self') →
  self' = restored self
  ∧ ∃ bests rest,
      w' = save_all (averaged self) (bests ++ rest) w
      ∧ (∀ f, f ∈ bests → f = BestModel)
      ∧ (save_checkpoint = false → bests = [] ∧ rest = [])
      ∧ (if stop
         then rest = [] ∧ (length bests ≤ 1)%nat
              ∧ ∃ best_model e_best,
                  disk w !! BestModel = Some best_model
                  ∧ ck_last_epoch best_model = Some e_best
                  ∧ e_best + P < epoch
         else save_checkpoint = true →
              ckpt_interval ≠ 0
              ∧ rest = (if epoch `mod` ckpt_interval =? 0
                        then [CkptEpoch epoch] else []) ++ [LastModel]).
Proof.
  unfold save_model, average_parameters. fold (averaged self).
  intros H.
  destruct (save_model_try (averaged self) epoch P metric_name
              save_checkpoint m w) as [w1|w1|w1] eqn:Htry.
  all: destruct (save_model_try_world _ _ _ _ _ _ _ _ Htry)
    as (bests & Hw1 & Hb & Hnone & Hlen & Hret); cbn in Hw1; subst w1.
  - (* Completed *)
    cbn [mbind result_bind] in H.
    destruct save_checkpoint.
    + destruct (ckpt_interval =? 0) eqn:Hz; [done|].
      apply Z.eqb_neq in Hz.
      destruct (epoch `mod` ckpt_interval =? 0);
        cbn [mbind result_bind ema_restore averaged ema_copy_to ema_store
             set_ema set_model ema collected_params set_collected of_option]
          in H;
        injection H as <- <- <-; (split; [done|]).
      * exists bests, [CkptEpoch epoch; LastModel].
        split; [by unfold save_all; rewrite !foldl_app|].
        split; [done|]. split; [done|]. done.
      * exists bests, [LastModel].
        split; [by unfold save_all; rewrite !foldl_app|].
        split; [done|]. split; [done|]. done.
    + cbn [mbind result_bind ema_restore averaged ema_copy_to ema_store
             set_ema set_model ema collected_params set_collected of_option]
          in H.
      injection H as <- <- <-. split; [done|].
      exists [], []. rewrite (Hnone eq_refl).
      split; [done|]. split; [by intros f ?%elem_of_nil|]. done.
  - (* Returned *)
    cbn [mbind result_bind ema_restore averaged ema_copy_to ema_store
         set_ema set_model ema collected_params set_collected of_option]
      in H.
    injection H as <- <- <-. split; [done|].
    exists bests, []. rewrite app_nil_r.
    split; [done|]. split; [done|].
    split; [intros Hs; by rewrite (Hnone Hs)|].
    split; [done|]. split; [done|]. by eapply Hret.
  - (* Excepted *)
    cbn [mbind result_bind] in H.
    destruct save_checkpoint.
    + destruct (ckpt_interval =? 0) eqn:Hz; [done|].
      apply Z.eqb_neq in Hz.
      destruct (epoch `mod` ckpt_interval =? 0);
        cbn [mbind result_bind ema_restore averaged ema_copy_to ema_store
             set_ema set_model ema collected_params set_collected of_option]
          in H;
        injection H as <- <- <-; (split; [done|]).
      * exists (bests ++ [BestModel]), [CkptEpoch epoch; LastModel].
        split; [by unfold save_all; rewrite !foldl_app|].
        split.
        { intros f [Hf|Hf%list_elem_of_singleton]%elem_of_app; auto. }
        split; [done|]. done.
      * exists (bests ++ [BestModel]), [LastModel].
        split; [by unfold save_all; rewrite !foldl_app|].
        split.
        { intros f [Hf|Hf%list_elem_of_singleton]%elem_of_app; auto. }
        split; [done|]. done.
    + cbn [mbind result_bind ema_restore averaged ema_copy_to ema_store
             set_ema set_model ema collected_params set_collected of_option]
          in H.
      injection H as <- <- <-. split; [done|].
      exists [], []. rewrite (Hnone eq_refl).
      split; [done|]. split; [by intros f ?%elem_of_nil|]. done.
Qed.


(** [save_model_ddp], step by step. *)
Lemma save_model_ddp_inv (epoch P : Z) (metric_name : string)
    (save_checkpoint : bool) m (ckpt_interval : Z) self w
    (stop : bool) w' self' :
  save_model_ddp epoch P metric_name save_checkpoint m ckpt_interval self w
    = Ok (stop, w', self') →
  stop = false
  ∧ metric_name ∈ supported_metrics
  ∧ ∃ (i : nat) q,
      idx self = Some i ∧ metric_at m i = Ok q
      ∧ self' = (if flt q (best_metric self)
                 then set_best_metric q (restored self) else restored self)
      ∧ ∃ fs,
          w' = save_all (averaged self) fs w
          ∧ (if bool_decide (rank self = Some 0) && save_checkpoint
             then ckpt_interval ≠ 0
                  ∧ fs = (if flt q (best_metric self) then [BestModel]
                          else [])
                         ++ (if epoch `mod` ckpt_interval =? 0
                             then [CkptEpoch epoch] else [])
                         ++ [LastModel]
             else fs = []).
Proof.
  unfold save_model_ddp, average_parameters. fold (averaged self).
  intros H.
  destruct (decide (metric_name ∈ supported_metrics)) as [Hn|Hn];
    [|by rewrite (bool_decide_eq_false_2 _ Hn) in H].
  rewrite (bool_decide_eq_true_2 _ Hn) in H. cbn [negb] in H.
  change (idx (averaged self)) with (idx self) in H.
  destruct (idx self) as [i|] eqn:Hidx; [|done].
  cbn [of_option mbind result_bind] in H.
  destruct (metric_at m i) as [q|] eqn:Hq; [|done].
  cbn [mbind result_bind] in H.
  change (best_metric (averaged self)) with (best_metric self) in H.
  assert (Hsave : ∀ f w0, save (set_best_metric q (averaged self)) f w0
                          = save (averaged self) f w0) by done.
  destruct (flt q (best_metric self)) eqn:Hlt.
  all: change (rank (set_best_metric q (averaged self))) with (rank self) in H.
  all: change (rank (averaged self)) with (rank self) in H.
  all: destruct (bool_decide (rank self = Some 0)) eqn:Hr;
       destruct save_checkpoint; cbn [andb] in H |- *.
  all: try (destruct (ckpt_interval =? 0) eqn:Hz; [done|];
            apply Z.eqb_neq in Hz;
            destruct (epoch `mod` ckpt_interval =? 0)).
  all: cbn [mbind result_bind ema_restore averaged ema_copy_to ema_store
            set_ema set_model ema collected_params set_collected of_option
            set_best_metric] in H.
  all: injection H as <- <- <-.
  all: split; [done|]; split; [done|]; exists i, q.
  all: rewrite Hlt.
  all: split; [done|]; split; [done|]; split; [done|].
  all: try (eexists; split; [|split; [done|reflexivity]]; done).
  all: by exists [].
Qed.


(** X6. When the single-process checkpoint step signals the early stop it
    has written at most one file, [best_model.pth] (an improvement at the
    stopping epoch is still recorded); [last_model.pth] and the periodic
    [ckpt_{epoch}.pth] of that epoch are not written. *)
Theorem save_model_stop_skips_periodic (epoch P : Z) (metric_name : string)
    (save_checkpoint : bool) m (ckpt_interval : Z) self w w' self' :
  save_model epoch P metric_name save_checkpoint m ckpt_interval self w
    = Ok (true, w', self') →
  (w' = w ∨ w' = save (averaged self) BestModel w)
  ∧ disk w' !! LastModel = disk w !! LastModel
  ∧ disk w' !! CkptEpoch epoch = disk w !! CkptEpoch epoch
  ∧ ∃ best_model e_best,
      disk w !! BestModel = Some best_model
      ∧ ck_last_epoch best_model = Some e_best
      ∧ e_best + P < epoch.
Proof.
  intros H.
  apply save_model_inv in H
    as (-> & bests & rest & -> & Hb & _ & -> & Hlen & Hstop).
  rewrite app_nil_r.
  assert (Hcases : bests = [] ∨ bests = [BestModel]).
  { destruct bests as [|f [|g bests]]; [by left| |cbn in Hlen; lia].
    right. f_equal. apply Hb. apply elem_of_cons. by left. }
  split; [destruct Hcases as [->| ->]; [by left|by right]|].
  split.
  { apply disk_save_all_other. destruct Hcases as [->| ->].
    - by intros ?%elem_of_nil.
    - by intros [=]%list_elem_of_singleton. }
  split; [|done].
  apply disk_save_all_other. destruct Hcases as [->| ->].
  - by intros ?%elem_of_nil.
  - by intros [=]%list_elem_of_singleton.
Qed.

Lemma save_model_empty_dir (epoch P : Z) (metric_name : string)
    m (ckpt_interval : Z) self w :
  disk w !! BestModel = None → ckpt_interval ≠ 0 →
  save_model epoch P metric_name true m ckpt_interval self w
  = Ok (false,
        save_all (averaged self)
          ([BestModel]
           ++ (if epoch `mod` ckpt_interval =? 0 then [CkptEpoch epoch]
               else [])
           ++ [LastModel]) w,
        restored self).
Proof.
  intros Hd Hci. unfold save_model, average_parameters, save_model_try,
    torch_load. fold (averaged self). rewrite Hd. cbn [of_option].
  apply Z.eqb_neq in Hci. rewrite Hci.
  by destruct (epoch `mod` ckpt_interval =? 0).
Qed.

(** X7. In a directory without [best_model.pth] a step with persistence
    never stops and writes, in this order, [best_model.pth] (whatever the
    metric: loading the missing record fails and the handler saves),
    [ckpt_{epoch}.pth] when the interval divides the epoch, and
    [last_model.pth]; this needs neither a supported metric name nor
    [self.idx]. *)
Theorem save_model_on_empty_directory (epoch P : Z) (metric_name : string)
    m (ckpt_interval : Z) self w :
  disk w !! BestModel = None → ckpt_interval ≠ 0 →
  save_model epoch P metric_name true m ckpt_interval self w
  = Ok (false,
        save_all (averaged self)
          ([BestModel]
           ++ (if epoch `mod` ckpt_interval =? 0 then [CkptEpoch epoch]
               else [])
           ++ [LastModel]) w,
        restored self).
Proof. apply save_model_empty_dir. Qed.

(** X8. With persistence and [ckpt_interval = 0] the test
    [epoch % ckpt_interval] divides by zero: the single-process step ends
    in [ZeroDivisionError] unless it leaves through the early stop before
    reaching the test, and the distributed step completes only on ranks
    other than 0, which skip it. *)
Theorem checkpoint_step_zero_interval (epoch P : Z) (metric_name : string)
    m self w :
  (save_model epoch P metric_name true m 0 self w = Raise ZeroDivisionError
   ∨ ∃ w', save_model epoch P metric_name true m 0 self w
           = Ok (true, w', restored self))
  ∧ (rank self = Some 0 →
     is_ok (save_model_ddp epoch P metric_name true m 0 self w) = false)
  ∧ (rank self ≠ Some 0 → metric_name ∈ supported_metrics →
     ∀ (i : nat), idx self = Some i → (i < 4)%nat →
     ∃ self', save_model_ddp epoch P metric_name true m 0 self w
              = Ok (false, w, self')).
Proof.
  split; [|split].
  - unfold save_model, average_parameters. fold (averaged self).
    destruct (save_model_try (averaged self) epoch P metric_name true m w)
      as [w1|w1|w1]; [by left| |by left].
    right. by exists w1.
  - intros Hr.
    destruct (save_model_ddp epoch P metric_name true m 0 self w)
      as [[[stop w'] self']|] eqn:H; [|done].
    apply save_model_ddp_inv in H
      as (_ & _ & i & q & _ & _ & _ & fs & _ & Hfs).
    rewrite (bool_decide_eq_true_2 _ Hr) in Hfs. by destruct Hfs.
  - intros Hr Hn i Hidx Hi.
    unfold save_model_ddp, average_parameters. fold (averaged self).
    rewrite (bool_decide_eq_true_2 _ Hn). cbn [negb].
    change (idx (averaged self)) with (idx self). rewrite Hidx.
    cbn [of_option mbind result_bind].
    destruct (metric_at_ok m i Hi) as [q ->]. cbn [mbind result_bind].
    destruct (flt q (best_metric (averaged self)));
      change (rank (set_best_metric q (averaged self))) with (rank self);
      change (rank (averaged self)) with (rank self);
      rewrite (bool_decide_eq_false_2 _ Hr); cbn; by eexists.
Qed.

End CheckpointMore.

Section TrainFacts.
Context {R : Type} {SR : Scalar R}.
Implicit Types (self : Potential R) (w : World R) (m : metric).

Variable run_epoch :
  Z → Potential R →
  result (Model R * Adam R * Scheduler R * ExponentialMovingAverage R * metric).
Variable get_rank : Z.
Variables (P : Z) (metric_name : string) (save_checkpoint : bool)
          (ckpt_interval : Z).

Lemma epoch_loop_app (is_distributed : bool) (es1 es2 : list Z) self w :
  epoch_loop run_epoch P metric_name save_checkpoint ckpt_interval
    is_distributed (es1 ++ es2) self w
  = match epoch_loop run_epoch P metric_name save_checkpoint ckpt_interval
            is_distributed es1 self w with
    | Ok (self1, w1, None) =>
      epoch_loop run_epoch P metric_name save_checkpoint ckpt_interval
        is_distributed es2 self1 w1
    | r => r
    end.
Proof.
  revert self w. induction es1 as [|e es1 IH]; intros self w; [done|].
  cbn [app epoch_loop].
  destruct (epoch_body run_epoch e self) as [[self1 met]|]; [|done].
  cbn [mbind result_bind].
  destruct (checkpoint_step _ _ _ _ _ _ _ _ _) as [[[stop w1] self2]|]; [|done].
  cbn [mbind result_bind]. destruct stop; [done|]. apply IH.
Qed.

Lemma py_range_split (a e b : Z) :
  a ≤ e < b →
  py_range a b = (py_range a e ++ e :: py_range (e + 1) b)%list.
Proof.
  intros H. unfold py_range.
  replace (Z.to_nat (b - a))
    with (Z.to_nat (e - a) + S (Z.to_nat (b - (e + 1))))%nat by lia.
  rewrite seq_app, fmap_app. f_equal. cbn [seq fmap list_fmap]. f_equal.
  { lia. }
  rewrite <- seq_shift, <- list_fmap_compose.
  rewrite Nat.add_comm, <- (fmap_add_seq (Z.to_nat (e - a)) 0).
  rewrite <- list_fmap_compose.
  apply list_fmap_ext. intros _ i _. simpl. lia.
Qed.

Lemma elem_of_py_range (a b e : Z) : e ∈ py_range a b ↔ a ≤ e < b.
Proof.
  unfold py_range. rewrite list_elem_of_fmap. split.
  - intros (i & -> & Hi). apply elem_of_seq in Hi. lia.
  - intros H. exists (Z.to_nat (e - a)). split; [lia|].
    apply elem_of_seq. lia.
Qed.

Lemma py_range_snoc (a x : Z) :
  a ≤ x → py_range a (x + 1) = (py_range a x ++ [x])%list.
Proof.
  intros H. rewrite (py_range_split a x (x + 1)) by lia. do 2 f_equal.
  unfold py_range. by replace (x + 1 - (x + 1)) with 0 by lia.
Qed.

Lemma py_range_split_inv (a b x : Z) (pre post : list Z) :
  py_range a b = (pre ++ x :: post)%list → a ≤ x < b ∧ pre = py_range a x.
Proof.
  intros H.
  assert (Hx : a ≤ x < b).
  { apply elem_of_py_range. rewrite H. apply elem_of_app. right.
    apply elem_of_cons. by left. }
  split; [done|].
  assert (Hk : x = a + Z.of_nat (length pre)).
  { apply (py_range_lookup a b). rewrite H.
    by rewrite lookup_app_r, Nat.sub_diag by lia. }
  rewrite (py_range_split a x b) in H by done.
  apply app_inj_1 in H as [H _]; [done|].
  rewrite length_py_range. lia.
Qed.

(** The [try] body of [save_model] leaves through [return True] exactly on
    a usable record whose patience window is exceeded. *)
Lemma save_model_try_returned (epoch : Z) m self w (i : nat) :
  metric_name ∈ supported_metrics → idx self = Some i → (i < 4)%nat →
  (∃ w1, save_model_try self epoch P metric_name save_checkpoint m w
         = Returned w1)
  ↔ patience_exceeded P epoch save_checkpoint self w.
Proof.
  intros Hn Hidx Hi.
  unfold save_model_try, torch_load, patience_exceeded, usable_record,
    recorded_metric, record_metric.
  rewrite Hidx.
  destruct (disk w !! BestModel) as [b|] eqn:Hd; cbn [of_option].
  2:{ split; [by intros [? [=]]|by intros (? & ? & [=] & _)]. }
  rewrite (bool_decide_eq_true_2 _ Hn). cbn [negb].
  destruct (metric_at_ok m i Hi) as [cur Hcur].
  destruct (saved_name_lookup i Hi) as (n & Hname & _).
  assert (Hex : ∀ w0 : World R,
    (∃ w1, Excepted w0 = Returned w1) → False) by (by intros ? [? [=]]).
  assert (Hend : ∀ w0 : World R,
    (∃ w1, match ck_last_epoch b with
           | Some e_best => if e_best + P <? epoch then Returned w0
                            else Completed w0
           | None => Excepted w0
           end = Returned w1)
    ↔ ∃ e_best, ck_last_epoch b = Some e_best ∧ epoch > e_best + P).
  { intros w0. destruct (ck_last_epoch b) as [eb|].
    - destruct (eb + P <? epoch) eqn:Hlt.
      + apply Z.ltb_lt in Hlt. split; [|by eexists].
        intros _. exists eb. split; [done|lia].
      + apply Z.ltb_ge in Hlt. split; [by intros [? [=]]|].
        intros (? & [= <-] & ?). lia.
    - split; [by intros [? [=]]|by intros (? & [=] & _)]. }
  destruct save_checkpoint.
  - cbn [of_option mbind result_bind option_bind]. rewrite Hcur.
    cbn [of_option mbind result_bind option_bind].
    destruct (ck_validation_metrics b) as [vm|] eqn:Hvm;
      cbn [of_option mbind result_bind option_bind].
    2:{ split; [by intros ?%Hex|].
        intros (? & ? & [= <-] & [_ Hu] & _).
        destruct (Hu eq_refl) as [? Hx]. rewrite Hvm in Hx. done. }
    rewrite Hname. cbn [of_option mbind result_bind option_bind].
    destruct (vm !! n) as [qb|] eqn:Hq;
      cbn [of_option mbind result_bind option_bind].
    2:{ split; [by intros ?%Hex|].
        intros (? & ? & [= <-] & [_ Hu] & _).
        destruct (Hu eq_refl) as [? Hx]. rewrite Hvm in Hx.
        cbn [mbind option_bind] in Hx. by rewrite Hq in Hx. }
    rewrite Hend. split.
    + intros (eb & Heb & Hlt). exists b, eb. split; [done|].
      split; [|done]. split; [by eexists|]. intros _. rewrite Hvm.
      cbn [mbind option_bind]. by rewrite Hq.
    + intros (? & eb & [= <-] & _ & Heb & Hlt). by exists eb.
  - rewrite Hend. split.
    + intros (eb & Heb & Hlt). exists b, eb. split; [done|].
      split; [|done]. split; [by eexists|done].
    + intros (? & eb & [= <-] & _ & Heb & Hlt). by exists eb.
Qed.

Hypothesis name_supported : metric_name ∈ supported_metrics.
Hypothesis interval_nonzero : save_checkpoint = true → ckpt_interval ≠ 0.
Hypothesis run_epoch_ok : ∀ e p, is_ok (run_epoch e p) = true.

(** The single-process checkpoint step always completes; what it writes and
    when it signals the stop. *)
Lemma save_model_step (epoch : Z) m self w (i : nat) :
  idx self = Some i → (i < 4)%nat →
  ∃ stop bests rest,
    save_model epoch P metric_name save_checkpoint m ckpt_interval self w
    = Ok (stop, save_all (averaged self) (bests ++ rest) w, restored self)
    ∧ (∀ f, f ∈ bests → f = BestModel) ∧ (BestModel ∉ rest)
    ∧ (save_checkpoint = false → bests = [] ∧ rest = [])
    ∧ (stop = true ↔ patience_exceeded P epoch save_checkpoint self w).
Proof.
  intros Hidx Hi.
  assert (Hret : ∃ stop w',
    save_model epoch P metric_name save_checkpoint m ckpt_interval self w
    = Ok (stop, w', restored self)
    ∧ (stop = true ↔
       ∃ w1, save_model_try (averaged self) epoch P metric_name
               save_checkpoint m w = Returned w1)).
  { unfold save_model, average_parameters. fold (averaged self).
    destruct (save_model_try (averaged self) epoch P metric_name
                save_checkpoint m w) as [w1|w1|w1].
    2:{ exists true, w1. split; [done|]. split; [by eexists|done]. }
    all: cbn [mbind result_bind].
    all: destruct save_checkpoint;
      [destruct (ckpt_interval =? 0) eqn:Hz;
         [apply Z.eqb_eq in Hz; by destruct interval_nonzero|];
       destruct (epoch `mod` ckpt_interval =? 0)|].
    all: eexists false, _; (split; [reflexivity|]).
    all: split; [done|by intros [? [=]]]. }
  destruct Hret as (stop & w' & Hs & Hstop).
  rewrite (save_model_try_returned epoch m (averaged self) w i) in Hstop
    by done.
  pose proof Hs as Hinv. apply save_model_inv in Hinv
    as (_ & bests & rest & -> & Hb & Hnone & Hrest).
  exists stop, bests, rest. split; [done|]. split; [done|]. split.
  { destruct stop.
    - destruct Hrest as (-> & _). by intros ?%elem_of_nil.
    - destruct save_checkpoint.
      + destruct (Hrest eq_refl) as [_ ->].
        destruct (epoch `mod` ckpt_interval =? 0);
          intros Hin; repeat (apply elem_of_cons in Hin as [Hin|Hin]; [done|]);
          by apply elem_of_nil in Hin.
      + destruct (Hnone eq_refl) as [_ ->]. by intros ?%elem_of_nil. }
  split; [done|]. exact Hstop.
Qed.

Lemma epoch_step (e : Z) self w (i : nat) :
  idx self = Some i → (i < 4)%nat →
  ∃ self1 met stop bests rest,
    epoch_body run_epoch e self = Ok (self1, met)
    ∧ checkpoint_step P metric_name save_checkpoint ckpt_interval false
        e met self1 w
      = Ok (stop, save_all (averaged self1) (bests ++ rest) w, restored self1)
    ∧ idx self1 = Some i ∧ last_epoch self1 = e
    ∧ four_metrics (validation_metrics self1)
    ∧ (∀ f, f ∈ bests → f = BestModel) ∧ (BestModel ∉ rest)
    ∧ (save_checkpoint = false → bests = [] ∧ rest = [])
    ∧ (stop = true ↔ patience_exceeded P e save_checkpoint self w).
Proof.
  intros Hidx Hi. unfold epoch_body.
  pose proof (run_epoch_ok e self) as Hok.
  destruct (run_epoch e self) as [[[[[mo o] s] em] met]|]; [|done].
  cbn [mbind result_bind].
  match goal with |- context [Ok (?p, met)] => set (self1 := p) end.
  destruct (save_model_step e met self1 w i Hidx Hi)
    as (stop & bests & rest & Hs & Hb & Hr & Hnone & Hstop).
  exists self1, met, stop, bests, rest.
  split; [done|]. split; [done|]. split; [done|]. split; [done|]. split.
  { intros n Hn. unfold saved_name in Hn. cbn.
    repeat (apply elem_of_cons in Hn as [->|Hn]); [by eexists..|].
    by apply elem_of_nil in Hn. }
  done.
Qed.

Lemma epoch_loop_total (es : list Z) self w (i : nat) :
  idx self = Some i → (i < 4)%nat →
  ∃ self' w' stopped,
    epoch_loop run_epoch P metric_name save_checkpoint ckpt_interval false
      es self w = Ok (self', w', stopped)
    ∧ idx self' = Some i
    ∧ ∀ e, stopped = Some e → e ∈ es.
Proof.
  intros Hidx Hi. revert self w Hidx.
  induction es as [|e es IH]; intros self w Hidx.
  { exists self, w, None. split; [done|]. split; [done|]. by intros ? [=]. }
  destruct (epoch_step e self w i Hidx Hi)
    as (self1 & met & stop & bests & rest & Hb & Hc & Hidx1 & _).
  cbn [epoch_loop]. rewrite Hb. cbn [mbind result_bind]. rewrite Hc.
  cbn [mbind result_bind]. destruct stop.
  - eexists _, _, (Some e). split; [done|]. split; [done|].
    intros ? [= <-]. apply elem_of_cons. by left.
  - destruct (IH (restored self1)
                (save_all (averaged self1) (bests ++ rest) w) Hidx1)
      as (s2 & w2 & st & -> & ? & Hin).
    exists s2, w2, st. split; [done|]. split; [done|].
    intros e' He'. apply Hin in He'. apply elem_of_cons. by right.
Qed.

(** Running through [pre] without a stop and then entering [e]. *)
Lemma epoch_loop_stop_here (pre post : list Z) (e : Z) self w (i : nat)
    self' w' stopped :
  idx self = Some i → (i < 4)%nat →
  e ∉ pre → e ∉ post →
  epoch_loop run_epoch P metric_name save_checkpoint ckpt_interval false
    (pre ++ e :: post)%list self w = Ok (self', w', stopped) →
  stopped = Some e ↔
  ∃ self_e w_e,
    epoch_loop run_epoch P metric_name save_checkpoint ckpt_interval false
      pre self w = Ok (self_e, w_e, None)
    ∧ patience_exceeded P e save_checkpoint self_e w_e.
Proof.
  intros Hidx Hi Hpre Hpost. rewrite epoch_loop_app.
  destruct (epoch_loop_total pre self w i Hidx Hi)
    as (s1 & w1 & st1 & Hrun & Hidx1 & Hin1).
  rewrite Hrun. destruct st1 as [e0|].
  - intros [= <- <- <-]. split.
    + intros [= ->]. destruct Hpre. by apply Hin1.
    + by intros (? & ? & [=] & _).
  - destruct (epoch_step e s1 w1 i Hidx1 Hi)
      as (s2 & met & stop & bests & rest & Hb & Hc & Hidx2 & _ & _ & _ & _
          & _ & Hstop).
    cbn [epoch_loop]. rewrite Hb. cbn [mbind result_bind]. rewrite Hc.
    cbn [mbind result_bind]. destruct stop.
    + intros [= <- <- <-]. split; [|done]. intros _.
      exists s1, w1. split; [done|]. by apply Hstop.
    + destruct (epoch_loop_total post (restored s2)
                  (save_all (averaged s2) (bests ++ rest) w1) i Hidx2 Hi)
        as (s4 & w4 & st4 & -> & _ & Hin4).
      intros [= <- <- <-]. split.
      * intros ->. destruct Hpost. by apply Hin4.
      * intros (? & ? & [= <- <-] & Hex). apply Hstop in Hex. done.
Qed.

(** Where the best record on disk comes from: it is the one the run
    started with, or the checkpoint step of an epoch of the run wrote it,
    with that epoch as its [last_epoch] and the four metrics. *)
Lemma best_origin (es : list Z) self0 w0 (i : nat) :
  idx self0 = Some i → (i < 4)%nat →
  ∀ self' w' stopped,
    epoch_loop run_epoch P metric_name save_checkpoint ckpt_interval false
      es self0 w0 = Ok (self', w', stopped) →
    idx self' = Some i
    ∧ ∃ new, writes w' = (writes w0 ++ new)%list
      ∧ ∀ b, disk w' !! BestModel = Some b →
          (disk w0 !! BestModel = Some b ∧ ∀ ck, (BestModel, ck) ∉ new)
          ∨ ∃ pre x post s1 w1 s2 w2 st2 new2,
              es = (pre ++ x :: post)%list
              ∧ epoch_loop run_epoch P metric_name save_checkpoint
                  ckpt_interval false pre self0 w0 = Ok (s1, w1, None)
              ∧ epoch_loop run_epoch P metric_name save_checkpoint
                  ckpt_interval false (pre ++ [x]) self0 w0
                = Ok (s2, w2, st2)
              ∧ writes w2 = (writes w1 ++ new2)%list
              ∧ (BestModel, b) ∈ new2
              ∧ ck_last_epoch b = Some x ∧ complete_record b.
Proof.
  intros Hidx Hi. induction es as [|e es IH] using rev_ind;
    intros self' w' stopped Hrun.
  { injection Hrun as <- <- <-. split; [done|]. exists [].
    split; [by rewrite app_nil_r|]. intros b Hb. left.
    split; [done|]. by intros ck ?%elem_of_nil. }
  pose proof Hrun as Hfull. rewrite epoch_loop_app in Hrun.
  destruct (epoch_loop _ _ _ _ _ _ es self0 w0)
    as [[[s1 w1] st1]|] eqn:Hpre; [|done].
  destruct (IH _ _ _ eq_refl) as (Hidx1 & new1 & Hw1 & Hb1).
  assert (Hext : ∀ b,
    (∃ pre x post s1 w1 s2 w2 st2 new2,
        es = (pre ++ x :: post)%list
        ∧ epoch_loop run_epoch P metric_name save_checkpoint
            ckpt_interval false pre self0 w0 = Ok (s1, w1, None)
        ∧ epoch_loop run_epoch P metric_name save_checkpoint
            ckpt_interval false (pre ++ [x]) self0 w0 = Ok (s2, w2, st2)
        ∧ writes w2 = (writes w1 ++ new2)%list
        ∧ (BestModel, b) ∈ new2
        ∧ ck_last_epoch b = Some x ∧ complete_record b) →
    ∃ pre x post s1 w1 s2 w2 st2 new2,
        (es ++ [e])%list = (pre ++ x :: post)%list
        ∧ epoch_loop run_epoch P metric_name save_checkpoint
            ckpt_interval false pre self0 w0 = Ok (s1, w1, None)
        ∧ epoch_loop run_epoch P metric_name save_checkpoint
            ckpt_interval false (pre ++ [x]) self0 w0 = Ok (s2, w2, st2)
        ∧ writes w2 = (writes w1 ++ new2)%list
        ∧ (BestModel, b) ∈ new2
        ∧ ck_last_epoch b = Some x ∧ complete_record b).
  { intros b (pre & x & post & sa & wa & sb & wb & stb & nb & -> & H).
    exists pre, x, (post ++ [e])%list, sa, wa, sb, wb, stb, nb.
    split; [by rewrite <- (assoc_L (++))|]. exact H. }
  destruct st1 as [e0|].
  { injection Hrun as <- <- <-. split; [done|]. exists new1.
    split; [done|]. intros b Hb.
    destruct (Hb1 b Hb) as [?|Hsaved]; [by left|right; by apply Hext]. }
  destruct (epoch_step e s1 w1 i Hidx1 Hi)
    as (self1 & met & stop & bests & rest & Hbody & Hstep & Hidx2 & Hlast
        & H4 & Hbests & Hrest & _ & _).
  cbn [epoch_loop] in Hrun. rewrite Hbody in Hrun.
  cbn [mbind result_bind] in Hrun. rewrite Hstep in Hrun.
  cbn [mbind result_bind] in Hrun.
  assert (Hres : self' = restored self1
                 ∧ w' = save_all (averaged self1) (bests ++ rest) w1).
  { destruct stop; by injection Hrun as <- <- <-. }
  destruct Hres as [-> ->]. split; [done|].
  set (ck1 := to_checkpoint (averaged self1)).
  set (newe := (λ f, (f, ck1)) <$> (bests ++ rest)).
  assert (Hwe : writes (save_all (averaged self1) (bests ++ rest) w1)
                = (writes w1 ++ newe)%list) by apply writes_save_all.
  exists (new1 ++ newe)%list. split.
  { by rewrite Hwe, Hw1, (assoc_L (++)). }
  intros b Hb. destruct bests as [|f bests].
  - rewrite disk_save_all_other in Hb by done.
    destruct (Hb1 b Hb) as [[Hold Hnot]|Hsaved]; [left|right; by apply Hext].
    split; [done|]. intros ck Hin. apply elem_of_app in Hin as [Hin|Hin].
    { by apply Hnot in Hin. }
    unfold newe in Hin. apply list_elem_of_fmap in Hin as (f & [= <- _] & Hf).
    done.
  - assert (Hin : BestModel ∈ (f :: bests) ++ rest).
    { rewrite (Hbests f) by (apply elem_of_cons; by left).
      apply elem_of_app. left. apply elem_of_cons. by left. }
    rewrite (disk_save_all_in _ _ _ _ Hin) in Hb. injection Hb as <-.
    right. exists es, e, [], s1, w1, (restored self1),
      (save_all (averaged self1) ((f :: bests) ++ rest) w1), stopped, newe.
    split; [done|]. split; [done|]. split; [done|]. split; [done|].
    split.
    { unfold newe. apply list_elem_of_fmap. by exists BestModel. }
    split; [by cbn; rewrite Hlast|]. split; [by eexists|].
    exists (validation_metrics self1). done.
Qed.

(** C2 (amended). Single-process training always completes, and it leaves
    the epoch loop through the early-stop [break] at epoch [e] exactly when
    [e] is the first epoch of the run whose checkpoint step finds a usable
    best record (one that has [last_epoch] and, with persistence, the
    selected metric) with [e > e_best + patience], [e_best] being the
    record's [last_epoch]: the run up to (excluding) [e] ended without a
    stop, and the test holds at [e].  The best record on disk at any point
    of the run is the one the run started with, or the checkpoint step of
    an epoch of the run wrote it: then its [last_epoch] is that epoch and
    it holds the four metrics.  On a record that is not usable the step
    signals no stop, whatever the epoch. *)
Theorem train_model_early_stop_exact (epochs : Z) self w :
  ∃ self' w' stopped,
    train_model run_epoch get_rank P metric_name save_checkpoint
      ckpt_interval false epochs self w = Ok (self', w', stopped)
    ∧ (∀ e, last_epoch self < e < epochs →
        (stopped = Some e ↔
         ∃ self_e w_e best_model e_best,
           train_model run_epoch get_rank P metric_name save_checkpoint
             ckpt_interval false e self w = Ok (self_e, w_e, None)
           ∧ disk w_e !! BestModel = Some best_model
           ∧ usable_record save_checkpoint self_e best_model
           ∧ ck_last_epoch best_model = Some e_best
           ∧ e > e_best + P))
    ∧ (∀ e self_e w_e stopped_e best_model,
         train_model run_epoch get_rank P metric_name save_checkpoint
           ckpt_interval false e self w = Ok (self_e, w_e, stopped_e) →
         disk w_e !! BestModel = Some best_model →
         ∃ new, writes w_e = (writes w ++ new)%list
           ∧ ((disk w !! BestModel = Some best_model
               ∧ ∀ ck, (BestModel, ck) ∉ new)
              ∨ ∃ e_s, last_epoch self < e_s < e
                  ∧ saved_at run_epoch get_rank P metric_name
                      save_checkpoint ckpt_interval self w e_s best_model
                  ∧ ck_last_epoch best_model = Some e_s
                  ∧ complete_record best_model)).
Proof.
  unfold saved_at, train_model.
  destruct (supported_index metric_name name_supported) as (i & -> & Hi).
  cbn [of_option mbind result_bind].
  set (self0 := set_rank_idx (rank self) (Some i) self).
  assert (Hidx : idx self0 = Some i) by done.
  change (last_epoch self0) with (last_epoch self).
  destruct (epoch_loop_total (py_range (last_epoch self + 1) epochs)
              self0 w i Hidx Hi) as (self' & w' & stopped & Hrun & _ & _).
  exists self', w', stopped. split; [done|]. split.
  - intros e He.
    rewrite (py_range_split (last_epoch self + 1) e epochs) in Hrun by lia.
    assert (Hpre : e ∉ py_range (last_epoch self + 1) e)
      by (rewrite elem_of_py_range; lia).
    assert (Hpost : e ∉ py_range (e + 1) epochs)
      by (rewrite elem_of_py_range; lia).
    rewrite (epoch_loop_stop_here _ _ _ _ _ _ _ _ _ Hidx Hi Hpre Hpost Hrun).
    unfold patience_exceeded. split.
    + intros (se & we & ? & (b & eb & ? & ? & ? & ?)). by exists se, we, b, eb.
    + intros (se & we & b & eb & ? & ? & ? & ? & ?). exists se, we.
      split; [done|]. by exists b, eb.
  - intros e self_e w_e stopped_e b Hrun_e Hb.
    destruct (best_origin _ self0 w i Hidx Hi _ _ _ Hrun_e)
      as (_ & new & Hw & Horigin).
    exists new. split; [done|].
    destruct (Horigin b Hb) as [?|Hsaved]; [by left|right].
    destruct Hsaved as (pre & x & post & s1 & w1 & s2 & w2 & st2 & new2
                        & Hsplit & Hr1 & Hr2 & Hw2 & Hin & Hlast & Hcomplete).
    apply py_range_split_inv in Hsplit as [Hx ->].
    exists x. split; [lia|]. split; [|done].
    exists s1, w1, s2, w2, st2, new2. split; [done|].
    rewrite py_range_snoc by lia. done.
Qed.

(** *** The distributed loop *)

Lemma ddp_epoch (e : Z) self w (i : nat) self' w' stopped :
  idx self = Some i → (i < 4)%nat →
  epoch_loop run_epoch P metric_name save_checkpoint ckpt_interval true
    [e] self w = Ok (self', w', stopped) →
  stopped = None ∧ idx self' = Some i
  ∧ ∃ q, selected_metric self' = Some q
      ∧ best_metric self'
        = (if flt q (best_metric self) then q else best_metric self)
      ∧ ∃ new, writes w' = (writes w ++ new)%list
          ∧ ∀ ck, (BestModel, ck) ∈ new →
              flt q (best_metric self) = true ∧ ck_last_epoch ck = Some e.
Proof.
  intros Hidx Hi. cbn [epoch_loop]. unfold epoch_body.
  destruct (run_epoch e self) as [[[[[m o] s] em] met]|]; [|done].
  cbn [mbind result_bind].
  match goal with |- context [checkpoint_step _ _ _ _ _ _ _ ?p _] =>
    set (self1 := p) end.
  unfold checkpoint_step.
  destruct (save_model_ddp _ _ _ _ _ _ _ _) as [[[stop w1] self2]|] eqn:Hs;
    [|done].
  destruct (metric_at_ok met i Hi) as [q Hq].
  destruct (save_model_ddp_step _ _ _ _ _ _ _ _ _ _ _ i q Hs Hidx Hq)
    as (-> & Hidx2 & Hle & Hvm & Hbest & new & Hw & Hnew).
  cbn [mbind result_bind]. intros [= <- <- <-].
  split; [done|]. split; [done|]. exists q. split.
  { unfold selected_metric. rewrite Hidx2. cbn [mbind option_bind].
    destruct (metrics_lookup met i q Hq) as (n & -> & Hn).
    cbn [mbind option_bind]. by rewrite Hvm. }
  split; [done|]. exists new. split; [done|]. intros ck Hck.
  destruct (Hnew ck Hck) as [? ?]. done.
Qed.

Lemma ddp_loop_facts (es : list Z) self0 w0 (i : nat) :
  idx self0 = Some i → (i < 4)%nat →
  ∀ self' w' stopped,
    epoch_loop run_epoch P metric_name save_checkpoint ckpt_interval true
      es self0 w0 = Ok (self', w', stopped) →
    stopped = None ∧ idx self' = Some i
    ∧ ddp_facts run_epoch P metric_name save_checkpoint ckpt_interval
        self0 w0 es self' w'.
Proof.
  intros Hidx Hi. induction es as [|e es IH] using rev_ind;
    intros self' w' stopped Hrun.
  { injection Hrun as <- <- <-. split; [done|]. split; [done|].
    split; [by left|]. split.
    - intros pre x post H. by destruct pre.
    - exists []. split; [by rewrite app_nil_r|].
      intros ck H. by apply elem_of_nil in H. }
  pose proof Hrun as Hfull.
  rewrite epoch_loop_app in Hrun.
  destruct (epoch_loop _ _ _ _ _ _ es self0 w0)
    as [[[s1 w1] st1]|] eqn:Hpre; [|done].
  destruct (IH _ _ _ eq_refl) as (-> & Hidx1 & Hb1 & Hp1 & new1 & Hw1 & Hn1).
  destruct (ddp_epoch e s1 w1 i self' w' stopped Hidx1 Hi Hrun)
    as (-> & Hidx' & q & Hsel & Hbest & new2 & Hw2 & Hn2).
  (* the best metric never goes up *)
  assert (Hle : best_metric self' = best_metric self0
                ∨ flt (best_metric self') (best_metric self0) = true).
  { rewrite Hbest. destruct (flt q (best_metric s1)) eqn:Hlt; [|done].
    right. destruct Hb1 as [<-|Hb1]; [done|].
    exact (flt_trans _ _ _ Hlt Hb1). }
  (* no metric seen so far is below it *)
  assert (Hkeep : ∀ q', flt q' (best_metric s1) = false →
                        flt q' (best_metric self') = false).
  { intros q' Hq'. rewrite Hbest.
    destruct (flt q (best_metric s1)) eqn:Hlt; [|done].
    exact (flt_not_below _ _ _ Hlt Hq'). }
  assert (Hleq : flt q (best_metric self') = false).
  { rewrite Hbest. destruct (flt q (best_metric s1)) eqn:Hlt; [|done].
    apply flt_irrefl. }
  split; [done|]. split; [done|].
  split; [done|]. split.
  - intros pre x post Hsplit.
    destruct (snoc_eq_split _ _ _ _ _ Hsplit)
      as [(-> & -> & ->)|(post' & -> & ->)].
    + by exists self', w', q.
    + destruct (Hp1 pre x post' eq_refl) as (s & w & q' & ? & ? & ?).
      exists s, w, q'. split; [done|]. split; [done|]. by apply Hkeep.
  - exists (new1 ++ new2)%list. split.
    { by rewrite Hw2, Hw1, (assoc_L (++)). }
    intros ck Hck. apply elem_of_app in Hck as [Hck|Hck].
    + destruct (Hn1 ck Hck)
        as (pre & x & post & s & w & q' & -> & ? & ? & ? & ? & ?).
      exists pre, x, (post ++ [e])%list, s, w, q'.
      split; [by rewrite <- (assoc_L (++))|]. done.
    + destruct (Hn2 ck Hck) as [Hlt Hck_e].
      exists es, e, [], self', w', q.
      split; [done|]. split; [done|]. split; [done|]. split; [done|].
      split.
      { destruct Hb1 as [<-|Hb1]; [done|]. exact (flt_trans _ _ _ Hlt Hb1). }
      intros pre' x' post' s' w'' q' -> Hrun' Hsel' Hnan.
      destruct (Hp1 pre' x' post' eq_refl) as (s & w & q'' & Hr & Hs & Hq).
      rewrite Hrun' in Hr. injection Hr as <- <-.
      rewrite Hsel' in Hs. injection Hs as <-.
      exact (flt_below _ _ _ Hlt Hq Hnan).
Qed.

(** C10 (amended). [Potential.__init__] sets the in-memory best metric to
    10, and in a distributed run of the engine it built every
    [best_model.pth] write happens at an epoch whose selected metric is
    below 10 and below the selected metric of every earlier epoch of the
    run that is not NaN (a comparison with NaN is false, so an earlier NaN
    is not undercut); so a run whose metric never drops below 10 writes no
    best checkpoint. *)
Theorem save_model_ddp_best_below_ten
    (mdl : Model R) (opt : option (Adam R)) (sch : scheduler_arg R)
    (em : option (ExponentialMovingAverage R)) (kw : kwargs)
    (epochs : Z) self w self' w' stopped :
  Potential_init mdl opt sch em kw = Ok self →
  train_model run_epoch get_rank P metric_name save_checkpoint ckpt_interval
    true epochs self w = Ok (self', w', stopped) →
  best_metric self = Finite 10
  ∧ ∃ new, writes w' = (writes w ++ new)%list
      ∧ (∀ ck, (BestModel, ck) ∈ new →
           ∃ e q, ck_last_epoch ck = Some e
                  ∧ last_epoch self < e < epochs
                  ∧ selected_metric_at run_epoch get_rank P metric_name
                    save_checkpoint ckpt_interval self w e = Some q
                  ∧ flt q (Finite 10) = true
                  ∧ ∀ e' q', last_epoch self < e' < e →
                      selected_metric_at run_epoch get_rank P metric_name
                        save_checkpoint ckpt_interval self w e' = Some q' →
                      q' ≠ NaN → flt q q' = true)
      ∧ ((∀ e q, last_epoch self < e < epochs →
            selected_metric_at run_epoch get_rank P metric_name
                    save_checkpoint ckpt_interval self w e = Some q →
            flt q (Finite 10) = false) →
         ∀ ck, (BestModel, ck) ∉ new).
Proof.
  intros Hinit Hrun.
  assert (Hten : best_metric self = Finite 10).
  { unfold Potential_init in Hinit.
    destruct sch as [n|sc]; cbn [mbind result_bind] in Hinit.
    - repeat case_bool_decide; cbn [mbind result_bind] in Hinit;
        by simplify_eq.
    - by simplify_eq. }
  split; [done|].
  unfold selected_metric_at, train_model in *.
  destruct (list_find _ supported_metrics) as [[i n]|] eqn:Hfind; [|done].
  apply list_find_Some in Hfind as (Hi & _ & _).
  apply lookup_lt_Some in Hi. change (length supported_metrics) with 4%nat in Hi.
  cbn [fmap option_fmap option_map fst of_option mbind result_bind] in *.
  set (self0 := set_rank_idx (Some get_rank) (Some i) self) in *.
  change (last_epoch self0) with (last_epoch self) in *.
  destruct (ddp_loop_facts _ self0 w i eq_refl Hi _ _ _ Hrun)
    as (_ & _ & _ & _ & new & Hw & Hnew).
  exists new. split; [done|].
  assert (Hmain : ∀ ck, (BestModel, ck) ∈ new →
    ∃ e q, ck_last_epoch ck = Some e ∧ last_epoch self < e < epochs
      ∧ match epoch_loop run_epoch P metric_name save_checkpoint
                ckpt_interval true (py_range (last_epoch self + 1) (e + 1))
                self0 w with
        | Ok (s, _, _) => selected_metric s
        | Raise _ => None
        end = Some q
      ∧ flt q (Finite 10) = true
      ∧ ∀ e' q', last_epoch self < e' < e →
          match epoch_loop run_epoch P metric_name save_checkpoint
                  ckpt_interval true
                  (py_range (last_epoch self + 1) (e' + 1)) self0 w with
          | Ok (s, _, _) => selected_metric s
          | Raise _ => None
          end = Some q' → q' ≠ NaN → flt q q' = true).
  { intros ck Hck.
    destruct (Hnew ck Hck)
      as (pre & x & post & s1 & w1 & q & Hsplit & Hx & Hr & Hs & Hlt & Hearlier).
    apply py_range_split_inv in Hsplit as [Hrange ->].
    exists x, q. split; [done|]. split; [lia|].
    rewrite py_range_snoc, Hr by lia. split; [done|].
    split; [by rewrite <- Hten|].
    intros e' q' He' Hsel' Hnan.
    rewrite py_range_snoc in Hsel' by lia.
    destruct (epoch_loop _ _ _ _ _ _ (py_range _ e' ++ [e']) self0 w)
      as [[[s' w''] st']|] eqn:Hr'; [|done].
    destruct (ddp_loop_facts _ self0 w i eq_refl Hi _ _ _ Hr') as (-> & _).
    eapply (Hearlier (py_range (last_epoch self + 1) e') e'
                     (py_range (e' + 1) x)); [|exact Hr'|exact Hsel'|exact Hnan].
    apply py_range_split. lia. }
  split; [exact Hmain|].
  intros Hnever ck Hck.
  destruct (Hmain ck Hck) as (e & q & _ & He & Hsel & Hlt & _).
  by rewrite (Hnever e q He Hsel) in Hlt.
Qed.

End TrainFacts.

(** ** Training runs *)

Section RunMore.
Context {R : Type} {SR : Scalar R}.
Implicit Types (self : Potential R) (w : World R) (m : metric).
Variable run_epoch :
  Z → Potential R →
  result (Model R * Adam R * Scheduler R * ExponentialMovingAverage R * metric).
Variable get_rank : Z.
Variables (P : Z) (metric_name : string) (save_checkpoint : bool)
          (ckpt_interval : Z).

(** X9. [train_model] looks the metric name up before anything else: with a
    name that is not one of the four supported ones it raises
    [ValueError], in single-process and in distributed mode, without
    running an epoch. *)
Theorem train_model_unsupported_metric (is_distributed : bool) (epochs : Z)
    self w :
  metric_name ∉ supported_metrics →
  train_model run_epoch get_rank P metric_name save_checkpoint ckpt_interval
    is_distributed epochs self w = Raise ValueError.
Proof.
  intros Hn. unfold train_model.
  destruct (list_find (λ s, s = metric_name) supported_metrics)
    as [[i s]|] eqn:Hf; [|done].
  apply list_find_Some in Hf as (Hi & -> & _).
  destruct Hn. by eapply list_elem_of_lookup_2.
Qed.

Lemma py_range_empty (a b : Z) : b ≤ a → py_range a b = [].
Proof. intros H. unfold py_range. by replace (Z.to_nat (b - a)) with 0%nat by lia. Qed.

(** X10. Resuming a run that is already complete ([epochs] is not above
    [last_epoch + 1]) runs no epoch: nothing is written, no early stop is
    signalled, and the engine only gets its metric index (and, in
    distributed mode, its rank) set. *)
Theorem train_model_nothing_left (is_distributed : bool) (epochs : Z) self w :
  metric_name ∈ supported_metrics →
  epochs ≤ last_epoch self + 1 →
  ∃ i : nat,
    supported_metrics !! i = Some metric_name
    ∧ train_model run_epoch get_rank P metric_name save_checkpoint
        ckpt_interval is_distributed epochs self w
      = Ok (set_rank_idx (if is_distributed then Some get_rank else rank self)
              (Some i) self, w, None).
Proof.
  intros Hn He. unfold train_model.
  destruct (list_find (λ s, s = metric_name) supported_metrics)
    as [[i s]|] eqn:Hf.
  - apply list_find_Some in Hf as (Hi & -> & _). exists i. split; [done|].
    cbn [fmap option_fmap option_map fst of_option mbind result_bind].
    change (last_epoch (set_rank_idx _ _ self)) with (last_epoch self).
    by rewrite py_range_empty by lia.
  - apply list_find_None in Hf. exfalso.
    rewrite Forall_forall in Hf. by apply (Hf metric_name).
Qed.

(** One epoch of the distributed loop. *)
Lemma ddp_epoch_inv (e : Z) self w self' w' stopped :
  epoch_loop run_epoch P metric_name save_checkpoint ckpt_interval true
    [e] self w = Ok (self', w', stopped) →
  stopped = None ∧ idx self' = idx self ∧ rank self' = rank self
  ∧ last_epoch self' = e
  ∧ ∃ self1 met (i : nat) q,
      epoch_body run_epoch e self = Ok (self1, met)
      ∧ idx self = Some i ∧ metric_at met i = Ok q
      ∧ best_metric self'
        = (if flt q (best_metric self) then q else best_metric self)
      ∧ validation_metrics self' = validation_metrics self1
      ∧ ∃ fs,
          w' = save_all (averaged self1) fs w
          ∧ (if bool_decide (rank self = Some 0) && save_checkpoint
             then ckpt_interval ≠ 0
                  ∧ fs = (if flt q (best_metric self) then [BestModel]
                          else [])
                         ++ (if e `mod` ckpt_interval =? 0
                             then [CkptEpoch e] else [])
                         ++ [LastModel]
             else fs = []).
Proof.
  cbn [epoch_loop]. intros H.
  destruct (epoch_body run_epoch e self) as [[self1 met]|] eqn:Hb; [|done].
  cbn [mbind result_bind] in H. unfold checkpoint_step in H.
  destruct (save_model_ddp _ _ _ _ _ _ _ _) as [[[stop w1] self2]|] eqn:Hs;
    [|done].
  cbn [mbind result_bind] in H.
  apply save_model_ddp_inv in Hs
    as (-> & _ & i & q & Hidx & Hq & -> & fs & -> & Hfs).
  injection H as <- <- <-.
  unfold epoch_body in Hb.
  destruct (run_epoch e self) as [[[[[m o] s] em] met']|]; [|done].
  cbn [mbind result_bind] in Hb. injection Hb as <- <-.
  cbn [idx rank best_metric] in *.
  split; [done|].
  split; [by destruct (flt q (best_metric self))|].
  split; [by destruct (flt q (best_metric self))|].
  split; [by destruct (flt q (best_metric self))|].
  eexists _, _, i, q. split; [done|]. split; [done|]. split; [done|].
  split; [by destruct (flt q (best_metric self))|].
  split; [by destruct (flt q (best_metric self))|].
  by exists fs.
Qed.

Lemma ddp_loop_inv (es : list Z) self w self' w' stopped :
  epoch_loop run_epoch P metric_name save_checkpoint ckpt_interval true
    es self w = Ok (self', w', stopped) →
  stopped = None ∧ idx self' = idx self ∧ rank self' = rank self
  ∧ last_epoch self' = default (last_epoch self) (last es)
  ∧ (rank self ≠ Some 0 ∨ save_checkpoint = false → w' = w).
Proof.
  revert self w. induction es as [|e es IH]; intros self w H.
  { by injection H as <- <- <-. }
  change (e :: es) with ([e] ++ es) in H. rewrite epoch_loop_app in H.
  destruct (epoch_loop _ _ _ _ _ _ [e] self w) as [[[s1 w1] st1]|] eqn:H1;
    [|done].
  apply ddp_epoch_inv in H1
    as (-> & Hi1 & Hr1 & Hl1 & s0 & met & i & q & _ & _ & _ & _ & _ & fs
        & -> & Hfs).
  apply IH in H as (-> & Hi & Hr & Hl & Hw).
  split; [done|]. split; [congruence|]. split; [congruence|]. split.
  { rewrite Hl, Hl1. destruct es as [|z es']; [done|].
    change (last (e :: z :: es')) with (last (z :: es')).
    by destruct (last (z :: es')) eqn:E; [|by apply last_None in E]. }
  intros Hcase. rewrite Hw by (by rewrite Hr1).
  destruct Hcase as [Hc| ->].
  - rewrite (bool_decide_eq_false_2 _ Hc) in Hfs. cbn in Hfs. by subst fs.
  - rewrite andb_false_r in Hfs. by subst fs.
Qed.

Lemma last_py_range (a b : Z) : a < b → last (py_range a b) = Some (b - 1).
Proof.
  intros H. replace b with ((b - 1) + 1) at 1 by lia.
  rewrite py_range_snoc by lia. apply last_snoc.
Qed.

(** X11. Distributed training never stops early: whatever the patience, a
    completed run left the epoch loop by exhausting it, after running
    every epoch up to [epochs - 1]. *)
Theorem train_model_ddp_never_stops (epochs : Z) self w self' w' stopped :
  train_model run_epoch get_rank P metric_name save_checkpoint ckpt_interval
    true epochs self w = Ok (self', w', stopped) →
  stopped = None
  ∧ rank self' = Some get_rank
  ∧ (last_epoch self + 1 < epochs → last_epoch self' = epochs - 1).
Proof.
  unfold train_model. intros H.
  destruct (list_find _ supported_metrics) as [[i n]|]; [|done].
  cbn [fmap option_fmap option_map fst of_option mbind result_bind] in H.
  apply ddp_loop_inv in H as (-> & _ & Hr & Hl & _).
  split; [done|]. split; [done|]. intros Hlt.
  cbn [last_epoch set_rank_idx] in Hl. rewrite Hl.
  rewrite last_py_range by lia. cbn. lia.
Qed.

(** X12. In distributed training only rank 0 writes: on every other rank
    a completed run leaves the checkpoint directory exactly as it was. *)
Theorem train_model_ddp_other_ranks_write_nothing (epochs : Z) self w
    self' w' stopped :
  get_rank ≠ 0 →
  train_model run_epoch get_rank P metric_name save_checkpoint ckpt_interval
    true epochs self w = Ok (self', w', stopped) →
  w' = w.
Proof.
  unfold train_model. intros Hr H.
  destruct (list_find _ supported_metrics) as [[i n]|]; [|done].
  cbn [fmap option_fmap option_map fst of_option mbind result_bind] in H.
  apply ddp_loop_inv in H as (_ & _ & _ & _ & Hw).
  apply Hw. left. cbn. by intros [=].
Qed.

End RunMore.

(** ** What a run with persistence leaves as [best_model.pth] *)

Section BestRecord.
Context {R : Type} {SR : Scalar R}.
Implicit Types (self : Potential R) (w : World R) (m : metric).
Variable run_epoch :
  Z → Potential R →
  result (Model R * Adam R * Scheduler R * ExponentialMovingAverage R * metric).
Variables (P : Z) (metric_name : string) (ckpt_interval : Z).

Lemma record_metric_inv (i : nat) (ck : checkpoint R) q :
  record_metric i ck = Some q →
  ∃ vm n, ck_validation_metrics ck = Some vm ∧ saved_name !! i = Some n
          ∧ vm !! n = Some q.
Proof.
  unfold record_metric. intros H.
  destruct (ck_validation_metrics ck) as [vm|]; [|done].
  cbn [mbind option_bind] in H.
  destruct (saved_name !! i) as [n|]; [|done].
  cbn [mbind option_bind] in H. by exists vm, n.
Qed.

Lemma record_metric_complete (i : nat) (ck : checkpoint R) :
  (i < 4)%nat → complete_record ck → is_Some (record_metric i ck).
Proof.
  intros Hi [_ (vm & Hvm & Hkeys)].
  destruct (saved_name_lookup i Hi) as (n & Hn & Hin).
  destruct (Hkeys n Hin) as [q Hq]. exists q.
  unfold record_metric. rewrite Hvm. cbn [mbind option_bind].
  rewrite Hn. cbn [mbind option_bind]. done.
Qed.

(** The [try] body on a record that holds the selected metric. *)
Lemma save_model_try_exact (epoch : Z) m self w (i : nat) cur best qb eb :
  metric_name ∈ supported_metrics →
  idx self = Some i → metric_at m i = Ok cur →
  disk w !! BestModel = Some best →
  record_metric i best = Some qb → ck_last_epoch best = Some eb →
  save_model_try self epoch P metric_name true m w
  = (if eb + P <? epoch
     then Returned (if flt cur qb then save self BestModel w else w)
     else Completed (if flt cur qb then save self BestModel w else w)).
Proof.
  intros Hn Hidx Hcur Hd Hq He.
  apply record_metric_inv in Hq as (vm & n & Hvm & Hname & Hq).
  unfold save_model_try, torch_load. rewrite Hd. cbn [of_option].
  rewrite (bool_decide_eq_true_2 _ Hn). cbn [negb].
  rewrite Hidx. cbn [of_option mbind result_bind]. rewrite Hcur.
  cbn [mbind result_bind]. rewrite Hvm. cbn [of_option mbind result_bind].
  rewrite Hname. cbn [of_option mbind result_bind]. rewrite Hq.
  cbn [of_option mbind result_bind]. by rewrite He.
Qed.

(** One epoch of the single-process loop with persistence. *)
Lemma single_epoch_inv (e : Z) self w (i : nat) self' w' st :
  metric_name ∈ supported_metrics →
  idx self = Some i → (i < 4)%nat → best_complete w →
  epoch_loop run_epoch P metric_name true ckpt_interval false [e] self w
  = Ok (self', w', st) →
  idx self' = Some i ∧ best_complete w'
  ∧ ∃ q ck,
      selected_metric self' = Some q
      ∧ ck_last_epoch ck = Some e ∧ record_metric i ck = Some q
      ∧ (disk w !! BestModel = None → disk w' !! BestModel = Some ck)
      ∧ (∀ b qb, disk w !! BestModel = Some b → record_metric i b = Some qb →
           disk w' !! BestModel = Some (if flt q qb then ck else b)).
Proof.
  intros Hn Hidx Hi Hw. cbn [epoch_loop]. unfold epoch_body.
  destruct (run_epoch e self) as [[[[[mo o] s] em] met]|]; [|done].
  cbn [mbind result_bind].
  match goal with |- context [checkpoint_step _ _ _ _ _ _ _ ?p _] =>
    set (self1 := p) end.
  unfold checkpoint_step. intros H.
  destruct (save_model e P metric_name true met ckpt_interval self1 w)
    as [[[stop w1] self2]|] eqn:Hs; [|done].
  cbn [mbind result_bind] in H.
  assert (Hres : self' = self2 ∧ w' = w1).
  { destruct stop; by injection H as <- <- <-. }
  destruct Hres as [-> ->]. clear H.
  destruct (metric_at_ok met i Hi) as [q Hq].
  destruct (metrics_lookup met i q Hq) as (n & Hname & Hlook).
  assert (H4 : four_metrics (validation_metrics (averaged self1))).
  { intros n' Hn'. unfold saved_name in Hn'. cbn.
    repeat (apply elem_of_cons in Hn' as [->|Hn']); [by eexists..|].
    by apply elem_of_nil in Hn'. }
  assert (Hck : ck_last_epoch (to_checkpoint (averaged self1)) = Some e
                ∧ record_metric i (to_checkpoint (averaged self1)) = Some q).
  { split; [done|]. unfold record_metric. cbn [to_checkpoint
      ck_validation_metrics mbind option_bind].
    rewrite Hname. cbn [mbind option_bind]. exact Hlook. }
  assert (Hall : ∀ fs w0, best_complete w0 →
            best_complete (save_all (averaged self1) fs w0)).
  { intros fs. induction fs as [|f fs IH]; intros w0 Hw0; [done|].
    cbn. apply IH. by apply save_complete. }
  pose proof Hs as Hinv. apply save_model_inv in Hinv
    as (Hself & bests & rest & Hw1 & Hb & _ & Hrest).
  split; [by rewrite Hself|]. split; [rewrite Hw1; by apply Hall|].
  exists q, (to_checkpoint (averaged self1)).
  split.
  { rewrite Hself. unfold selected_metric.
    cbn [idx restored averaged ema_copy_to ema_store set_ema set_model].
    change (idx self1) with (idx self). rewrite Hidx.
    cbn [mbind option_bind]. rewrite Hname. cbn [mbind option_bind].
    exact Hlook. }
  split; [apply Hck|]. split; [apply Hck|]. split.
  - intros Hd. destruct (decide (ckpt_interval = 0)) as [->|Hci].
    { unfold save_model, average_parameters, save_model_try, torch_load in Hs.
      rewrite Hd in Hs. done. }
    rewrite (save_model_empty_dir e P metric_name met
               ckpt_interval self1 w Hd Hci) in Hs.
    injection Hs as _ Hs _. rewrite <- Hs.
    destruct (e `mod` ckpt_interval =? 0); cbn;
      rewrite ?lookup_insert_ne by done; by rewrite lookup_insert_eq.
  - intros b qb Hd Hqb.
    destruct (Hw b Hd) as [[eb Heb] _].
    unfold save_model, average_parameters in Hs.
    fold (averaged self1) in Hs.
    rewrite (save_model_try_exact e met (averaged self1) w i q b qb eb)
      in Hs by done.
    assert (Hbest : disk (if flt q qb
                          then save (averaged self1) BestModel w else w)
                    !! BestModel
                    = Some (if flt q qb then to_checkpoint (averaged self1)
                            else b)).
    { destruct (flt q qb); [|done].
      unfold save, torch_save. cbn. by rewrite lookup_insert_eq. }
    destruct (eb + P <? e).
    + cbn [mbind result_bind ema_restore averaged ema_copy_to ema_store
           set_ema set_model ema collected_params set_collected of_option]
        in Hs.
      injection Hs as _ Hs _. rewrite <- Hs. exact Hbest.
    + destruct (ckpt_interval =? 0); [done|].
      destruct (e `mod` ckpt_interval =? 0);
        cbn [mbind result_bind ema_restore averaged ema_copy_to ema_store
             set_ema set_model ema collected_params set_collected of_option]
          in Hs;
        injection Hs as _ Hs _; rewrite <- Hs;
        unfold save at 1, torch_save; cbn [disk];
        rewrite lookup_insert_ne by done;
        [unfold save at 1, torch_save; cbn [disk];
         rewrite lookup_insert_ne by done|];
        exact Hbest.
Qed.

Lemma reached_functional self0 w0 (pre : list Z) (x : Z) q q' :
  reached run_epoch P metric_name ckpt_interval self0 w0 pre x q →
  reached run_epoch P metric_name ckpt_interval self0 w0 pre x q' →
  q = q'.
Proof.
  intros (? & ? & s2 & ? & ? & _ & H2 & Hq) (? & ? & s2' & ? & ? & _ & H2' & Hq').
  rewrite H2 in H2'. injection H2' as <- _ _. congruence.
Qed.

(** Extending the run by one epoch keeps [best_model.pth] at the first
    minimum. *)
Lemma first_minimum_step self0 w0 (i : nat) (es : list Z) (e : Z)
    s1 w1 s2 w2 st :
  metric_name ∈ supported_metrics → (i < 4)%nat →
  epoch_loop run_epoch P metric_name true ckpt_interval false es self0 w0
  = Ok (s1, w1, None) →
  idx s1 = Some i → best_complete w1 →
  (es = [] ∧ disk w1 !! BestModel = None
   ∨ first_minimum run_epoch P metric_name ckpt_interval self0 w0 i es w1) →
  epoch_loop run_epoch P metric_name true ckpt_interval false (es ++ [e])
    self0 w0 = Ok (s2, w2, st) →
  idx s2 = Some i ∧ best_complete w2
  ∧ first_minimum run_epoch P metric_name ckpt_interval self0 w0 i
      (es ++ [e]) w2.
Proof.
  intros Hn Hi Hrun Hidx Hw1 Hprev Hfull.
  pose proof Hfull as Hlast. rewrite epoch_loop_app, Hrun in Hlast.
  destruct (single_epoch_inv e s1 w1 i s2 w2 st Hn Hidx Hi Hw1 Hlast)
    as (Hidx2 & Hw2 & q & ck & Hsel & Hck_e & Hck_q & Hnone & Hsome).
  split; [done|]. split; [done|].
  assert (Hreach : reached run_epoch P metric_name ckpt_interval self0 w0
                     es e q).
  { by exists s1, w1, s2, w2, st. }
  destruct Hprev as [[-> Hd]|(ck0 & pre0 & x0 & post0 & q0 & -> & Hd & Hx0
                              & Hq0 & Hr0 & Hstrict & Hle)].
  - exists ck, [], e, [], q. split; [done|]. split; [by apply Hnone|].
    split; [done|]. split; [done|]. split; [done|]. split.
    + intros pre' x' post' q' Heq. by destruct pre'.
    + intros pre' x' post' q' Heq Hr'.
      destruct pre' as [|? [|]]; try done. injection Heq as <- _.
      rewrite (reached_functional _ _ _ _ _ _ Hreach Hr'). apply flt_irrefl.
  - specialize (Hsome ck0 q0 Hd Hq0).
    destruct (flt q q0) eqn:Hlt.
    + exists ck, (pre0 ++ x0 :: post0), e, [], q.
      split; [done|]. split; [done|]. split; [done|]. split; [done|].
      split; [done|]. split.
      * intros pre' x' post' q' Heq Hr' Hnan.
        eapply flt_below; [exact Hlt| |exact Hnan]. by eapply Hle.
      * intros pre' x' post' q' Heq Hr'.
        destruct (snoc_eq_split _ _ _ _ _ Heq)
          as [(-> & -> & ->)|(post'' & -> & Heq')].
        -- rewrite (reached_functional _ _ _ _ _ _ Hreach Hr').
           apply flt_irrefl.
        -- eapply flt_not_below; [exact Hlt|]. by eapply Hle.
    + exists ck0, pre0, x0, (post0 ++ [e]), q0.
      split; [by rewrite <- (assoc_L (++))|]. split; [done|].
      split; [done|]. split; [done|]. split; [done|]. split; [done|].
      intros pre' x' post' q' Heq Hr'.
      destruct (snoc_eq_split _ _ _ _ _ Heq)
        as [(-> & -> & ->)|(post'' & -> & Heq')].
      * by rewrite <- (reached_functional _ _ _ _ _ _ Hreach Hr').
      * by eapply Hle.
Qed.

Lemma first_minimum_all self0 w0 (i : nat) (es : list Z) s' w' :
  metric_name ∈ supported_metrics → (i < 4)%nat →
  idx self0 = Some i → disk w0 !! BestModel = None →
  epoch_loop run_epoch P metric_name true ckpt_interval false es self0 w0
  = Ok (s', w', None) →
  idx s' = Some i ∧ best_complete w'
  ∧ (es = [] ∧ disk w' !! BestModel = None
     ∨ first_minimum run_epoch P metric_name ckpt_interval self0 w0 i es w').
Proof.
  intros Hn Hi Hidx Hd. revert s' w'.
  induction es as [|e es IH] using rev_ind; intros s' w' Hrun.
  { injection Hrun as <- <-. split; [done|]. split; [|by left].
    intros c Hc. by rewrite Hd in Hc. }
  pose proof Hrun as Hfull. rewrite epoch_loop_app in Hrun.
  destruct (epoch_loop _ _ _ _ _ _ es self0 w0) as [[[s1 w1] [z|]]|] eqn:Hpre;
    [done| |done].
  destruct (IH s1 w1 eq_refl) as (Hidx1 & Hw1 & Hprev).
  destruct (first_minimum_step self0 w0 i es e s1 w1 s' w' None
              Hn Hi Hpre Hidx1 Hw1 Hprev Hfull) as (? & ? & ?).
  split; [done|]. split; [done|]. by right.
Qed.

(** A run that stopped at [e] ran a prefix without a stop and then [e]. *)
Lemma stop_split (es : list Z) self w s' w' (e : Z) :
  epoch_loop run_epoch P metric_name true ckpt_interval false es self w
  = Ok (s', w', Some e) →
  ∃ pre post s1 w1,
    es = pre ++ e :: post
    ∧ epoch_loop run_epoch P metric_name true ckpt_interval false pre self w
      = Ok (s1, w1, None)
    ∧ epoch_loop run_epoch P metric_name true ckpt_interval false
        (pre ++ [e]) self w = Ok (s', w', Some e).
Proof.
  revert self w. induction es as [|x es IH]; intros self w H; [done|].
  cbn [epoch_loop] in H.
  destruct (epoch_body run_epoch x self) as [[self1 met]|] eqn:Hb; [|done].
  cbn [mbind result_bind] in H.
  destruct (checkpoint_step _ _ _ _ _ _ _ _ _) as [[[stop w1] self2]|] eqn:Hc;
    [|done].
  cbn [mbind result_bind] in H. destruct stop.
  - injection H as <- <- <-. exists [], es, self, w.
    split; [done|]. split; [done|]. cbn [app epoch_loop].
    rewrite Hb. cbn [mbind result_bind]. rewrite Hc. done.
  - apply IH in H as (pre & post & s1 & w1' & -> & Hpre & Hlast).
    exists (x :: pre), post, s1, w1'. split; [done|].
    split; cbn [app epoch_loop]; rewrite Hb; cbn [mbind result_bind];
      rewrite Hc; done.
Qed.

Variable get_rank : Z.

(** [train_model] in single-process mode, once the metric index is
    known. *)
Lemma train_model_single (epochs : Z) self w (i : nat) :
  fst <$> list_find (λ s, s = metric_name) supported_metrics = Some i →
  train_model run_epoch get_rank P metric_name true ckpt_interval false
    epochs self w
  = epoch_loop run_epoch P metric_name true ckpt_interval false
      (py_range (last_epoch self + 1) epochs)
      (set_rank_idx (rank self) (Some i) self) w.
Proof. unfold train_model. intros ->. done. Qed.

Lemma epoch_metric_reached (e : Z) self w (i : nat) q :
  fst <$> list_find (λ s, s = metric_name) supported_metrics = Some i →
  last_epoch self < e →
  epoch_metric_at run_epoch get_rank P metric_name true ckpt_interval
    self w e = Some q
  ↔ reached run_epoch P metric_name ckpt_interval
      (set_rank_idx (rank self) (Some i) self) w
      (py_range (last_epoch self + 1) e) e q.
Proof.
  intros Hi He. unfold epoch_metric_at, reached.
  rewrite !(train_model_single _ _ _ i Hi).
  rewrite py_range_snoc by lia.
  split.
  - intros H.
    destruct (epoch_loop _ _ _ _ _ _ (py_range _ e) _ w)
      as [[[s1 w1] [z|]]|]; try done.
    destruct (epoch_loop _ _ _ _ _ _ (py_range _ e ++ [e]) _ w)
      as [[[s2 w2] st]|]; [|done].
    by exists s1, w1, s2, w2, st.
  - intros (s1 & w1 & s2 & w2 & st & -> & -> & Hq). done.
Qed.

(** X13. A single-process run with persistence that starts in a directory
    without [best_model.pth] and completes (at least one epoch; stopped
    early or not) leaves as [best_model.pth] the record of an epoch it ran
    whose selected metric no epoch reached undercuts and which is strictly
    below that of every earlier epoch that is not NaN: without NaN, the
    epoch with the least selected metric, the earliest one on ties. *)
Theorem best_record_is_first_minimum (epochs : Z) self w self' w' stopped :
  disk w !! BestModel = None →
  last_epoch self + 1 < epochs →
  train_model run_epoch get_rank P metric_name true ckpt_interval false
    epochs self w = Ok (self', w', stopped) →
  ∃ ck e_b q_b (i : nat),
    disk w' !! BestModel = Some ck
    ∧ ck_last_epoch ck = Some e_b ∧ last_epoch self < e_b < epochs
    ∧ idx self' = Some i ∧ record_metric i ck = Some q_b
    ∧ epoch_metric_at run_epoch get_rank P metric_name true ckpt_interval
        self w e_b = Some q_b
    ∧ ∀ e q, last_epoch self < e < epochs →
        epoch_metric_at run_epoch get_rank P metric_name true ckpt_interval
          self w e = Some q →
        flt q q_b = false ∧ (e < e_b → q ≠ NaN → flt q_b q = true).
Proof.
  intros Hd Hlt H.
  destruct (fst <$> list_find (λ s, s = metric_name) supported_metrics)
    as [i|] eqn:Hfind.
  2:{ unfold train_model in H. by rewrite Hfind in H. }
  assert (Hn : metric_name ∈ supported_metrics ∧ (i < 4)%nat).
  { destruct (list_find _ supported_metrics) as [[i' n]|] eqn:Hf; [|done].
    injection Hfind as ->.
    apply list_find_Some in Hf as (Hi & -> & _). split.
    - by eapply list_elem_of_lookup_2.
    - apply lookup_lt_Some in Hi. exact Hi. }
  destruct Hn as [Hn Hi].
  rewrite (train_model_single _ _ _ i Hfind) in H.
  set (self0 := set_rank_idx (rank self) (Some i) self) in *.
  set (a := last_epoch self + 1) in *.
  assert (Hidx0 : idx self0 = Some i) by done.
  (* the epochs that were run *)
  assert (Hproc : ∃ e_last,
    a ≤ e_last < epochs
    ∧ idx self' = Some i
    ∧ first_minimum run_epoch P metric_name ckpt_interval self0 w i
        (py_range a (e_last + 1)) w'
    ∧ ∀ e q, a ≤ e < epochs →
        reached run_epoch P metric_name ckpt_interval self0 w
          (py_range a e) e q → e ≤ e_last).
  { destruct stopped as [e0|].
    - destruct (stop_split _ _ _ _ _ _ H)
        as (pre & post & s1 & w1 & Hsplit & Hpre & Hlast).
      destruct (py_range_split_inv _ _ _ _ _ Hsplit) as [He0 ->].
      destruct (first_minimum_all self0 w i _ s1 w1 Hn Hi Hidx0 Hd Hpre)
        as (Hidx1 & Hw1 & Hprev).
      destruct (first_minimum_step self0 w i _ e0 s1 w1 self' w' (Some e0)
                  Hn Hi Hpre Hidx1 Hw1 Hprev Hlast) as (Hidx' & _ & Hfm).
      exists e0. split; [done|]. split; [done|].
      split; [by rewrite py_range_snoc by lia|].
      intros e q He (s2 & w2 & _ & _ & _ & Hrun & _ & _).
      destruct (decide (e ≤ e0)) as [|Hgt]; [done|]. exfalso.
      rewrite (py_range_split a e0 e) in Hrun by lia.
      change (e0 :: py_range (e0 + 1) e)
        with ([e0] ++ py_range (e0 + 1) e) in Hrun.
      rewrite (assoc_L (++)), epoch_loop_app, Hlast in Hrun. done.
    - destruct (first_minimum_all self0 w i _ self' w' Hn Hi Hidx0 Hd H)
        as (Hidx' & _ & [[Hnil _]|Hfm]).
      { apply (f_equal length) in Hnil. rewrite length_py_range in Hnil.
        cbn in Hnil. lia. }
      exists (epochs - 1). split; [lia|]. split; [done|].
      split; [by replace (epochs - 1 + 1) with epochs by lia|].
      intros e q He _. lia. }
  destruct Hproc as (e_last & Hel & Hidx' & Hfm & Hbound).
  destruct Hfm as (ck & pre & x & post & q_b & Hsplit & Hdisk & Hx & Hq
                   & Hreach & Hstrict & Hle).
  destruct (py_range_split_inv _ _ _ _ _ Hsplit) as [Hxr ->].
  exists ck, x, q_b, i. split; [done|]. split; [done|].
  split; [unfold a in *; lia|]. split; [done|]. split; [done|]. split.
  { apply (epoch_metric_reached x self w i q_b Hfind); [unfold a in *; lia|].
    exact Hreach. }
  intros e q He Hm.
  apply (epoch_metric_reached e self w i q Hfind) in Hm; [|lia].
  fold a self0 in Hm.
  assert (Hee : e ≤ e_last) by (apply (Hbound e q); [unfold a; lia|done]).
  split.
  - eapply (Hle (py_range a e) e (py_range (e + 1) (e_last + 1))); [|done].
    apply py_range_split. unfold a. lia.
  - intros Hex Hnan.
    eapply (Hstrict (py_range a e) e (py_range (e + 1) x)); [|done|done].
    apply py_range_split. unfold a. lia.
Qed.

End BestRecord.

(** ** Resuming a distributed run *)

Section ResumeDistributed.
Context {R : Type} {SR : Scalar R}.
Variable construct_model : model_kind → model_args → result (state_dict R).
Variable model_load_state_dict : Model R → state_dict R → result (Model R).
Variable optimizer_load_state_dict : Adam R → state_dict R → result (Adam R).
Variable scheduler_load_state_dict :
  Scheduler R → state_dict R → result (Scheduler R).
Variable ema_load_state_dict :
  ExponentialMovingAverage R → state_dict R
  → result (ExponentialMovingAverage R).
Variable run_epoch :
  Z → Potential R →
  result (Model R * Adam R * Scheduler R * ExponentialMovingAverage R * metric).
Variables (P : Z) (metric_name : string) (ckpt_interval : Z).

Lemma epoch_body_inv (e : Z) (self self1 : Potential R) (met : metric) :
  epoch_body run_epoch e self = Ok (self1, met) →
  last_epoch self1 = e ∧ idx self1 = idx self ∧ rank self1 = rank self
  ∧ best_metric self1 = best_metric self
  ∧ validation_metrics self1
    = <["loss" := val_loss met]> (<["MAE_energy" := val_mae_e met]>
      (<["MAE_force" := val_mae_f met]>
      (<["MAE_stress" := val_mae_s met]> ∅))).
Proof.
  unfold epoch_body. intros H.
  destruct (run_epoch e self) as [[[[[m o] s] em] met']|]; [|done].
  cbn [mbind result_bind] in H. by injection H as <- <-.
Qed.

(** X14. The in-memory best metric is not stored in a record, so an engine
    returned by [load] starts from 10 again: when a distributed run is
    resumed on rank 0 with persistence and the first epoch's selected
    metric is below 10, that epoch's record replaces [best_model.pth],
    whatever record (a better one included) the directory held. *)
Theorem ddp_resume_overwrites_best (name : string)
    (load_path : option string) (load_training_state : bool) (kw : kwargs)
    (files : gmap string (checkpoint R)) (self : Potential R) (w : World R)
    (self' : Potential R) (w' : World R) (stopped : option Z) (q : float) :
  load construct_model model_load_state_dict optimizer_load_state_dict
    scheduler_load_state_dict ema_load_state_dict name load_path
    load_training_state kw files = Ok self →
  train_model run_epoch 0 P metric_name true ckpt_interval true
    (last_epoch self + 2) self w = Ok (self', w', stopped) →
  selected_metric self' = Some q → flt q (Finite 10) = true →
  ∃ ck, disk w' !! BestModel = Some ck
        ∧ ck_last_epoch ck = Some (last_epoch self + 1)
        ∧ ck_validation_metrics ck = Some (validation_metrics self').
Proof.
  intros Hload Hrun Hsel Hq.
  assert (Hten : best_metric self = Finite 10).
  { apply load_inv in Hload
      as (? & ? & ? & ? & ? & ? & _ & _ & _ & _ & _ & _ & _ & _ & _ & _ & _
          & Hinit).
    by apply Potential_init_inv in Hinit
      as (_ & _ & _ & _ & _ & _ & _ & ? & _). }
  unfold train_model in Hrun.
  destruct (list_find _ supported_metrics) as [[i n]|]; [|done].
  cbn [fmap option_fmap option_map fst of_option mbind result_bind] in Hrun.
  change (last_epoch (set_rank_idx _ _ self)) with (last_epoch self) in Hrun.
  replace (last_epoch self + 2) with (last_epoch self + 1 + 1) in Hrun by lia.
  rewrite py_range_snoc, py_range_empty in Hrun by lia.
  cbn [app] in Hrun.
  apply ddp_epoch_inv in Hrun
    as (_ & Hidx & _ & _ & self1 & met & i' & q0 & Hbody & Hi' & Hq0 & _
        & Hvm & fs & -> & Hfs).
  cbn [idx rank best_metric set_rank_idx] in *. injection Hi' as <-.
  apply epoch_body_inv in Hbody as (Hl1 & _ & _ & _ & Hvm1).
  assert (q = q0) as <-.
  { destruct (metrics_lookup met i q0 Hq0) as (n' & Hn' & Hlook).
    unfold selected_metric in Hsel. rewrite Hidx in Hsel.
    cbn [mbind option_bind] in Hsel. rewrite Hn' in Hsel.
    cbn [mbind option_bind] in Hsel. rewrite Hvm, Hvm1 in Hsel. congruence. }
  rewrite bool_decide_eq_true_2 in Hfs by done. cbn [andb] in Hfs.
  destruct Hfs as [_ ->]. rewrite Hten.
  rewrite Hq.
  exists (to_checkpoint (averaged self1)). split.
  { apply disk_save_all_in. apply elem_of_cons. by left. }
  split; [by cbn; rewrite Hl1|]. by rewrite Hvm.
Qed.

End ResumeDistributed.

(** ** The multi-head scheduler *)

Section MultiHeadFacts.
Context {B : Type}.
Implicit Types (lens bounds idx_list : list nat) (iters : list (list B)).

Lemma accumulate_running_sum (pre rest : list nat) (d : nat) :
  accumulate (length rest) (S (length pre)) ((pre ++ [d]) ++ rest)
  = ((pre ++ [d]) ++ running_sum d rest)%list.
Proof.
  revert pre d. induction rest as [|r rest IH]; intros pre d; [done|].
  cbn [length accumulate running_sum].
  assert (Hi : ((pre ++ [d]) ++ r :: rest) !!! S (length pre) = r).
  { apply list_lookup_total_correct.
    rewrite lookup_app_r by (rewrite length_app; simpl; lia).
    rewrite length_app. simpl.
    by replace (S (length pre) - (length pre + 1))%nat with 0%nat by lia. }
  assert (Hp : ((pre ++ [d]) ++ r :: rest) !!! (S (length pre) - 1)%nat = d).
  { apply list_lookup_total_correct.
    rewrite lookup_app_l by (rewrite length_app; simpl; lia).
    rewrite lookup_app_r by lia.
    by replace (S (length pre) - 1 - length pre)%nat with 0%nat by lia. }
  rewrite Hi, Hp.
  replace (<[S (length pre) := (r + d)%nat]> ((pre ++ [d]) ++ r :: rest))
    with (((pre ++ [d]) ++ [(d + r)%nat]) ++ rest)%list.
  2:{ rewrite <- (assoc_L (++) (pre ++ [d])). cbn [app].
      replace (S (length pre)) with (length (pre ++ [d]) + 0)%nat
        by (rewrite length_app; simpl; lia).
      rewrite insert_app_r. cbn. by rewrite (Nat.add_comm d r). }
  specialize (IH (pre ++ [d])%list (d + r)%nat).
  rewrite length_app in IH. cbn [length] in IH.
  replace (length pre + 1)%nat with (S (length pre)) in IH by lia.
  rewrite IH. by rewrite <- !(assoc_L (++)).
Qed.

(** The in-place accumulation yields the running sums of the lengths. *)
Lemma cumulative_len_running_sum (dataloader_list : list (list B)) :
  cumulative_len dataloader_list
  = running_sum 0 (length <$> dataloader_list).
Proof.
  unfold cumulative_len. destruct (length <$> dataloader_list) as [|l ls];
    [done|].
  replace (length (l :: ls) - 1)%nat with (length ls) by (cbn; lia).
  apply (accumulate_running_sum [] ls l).
Qed.

Lemma last_running_sum (acc : nat) lens :
  lens ≠ [] → last (running_sum acc lens) = Some (acc + sum_list lens)%nat.
Proof.
  revert acc. induction lens as [|l ls IH]; intros acc Hne; [done|].
  destruct ls as [|l' ls].
  - change (sum_list [l]) with (l + 0)%nat. cbn. f_equal. lia.
  - cbn [running_sum] in *. rewrite last_cons_cons.
    rewrite (IH (acc + l)%nat) by done.
    change (sum_list (l :: l' :: ls)) with (l + sum_list (l' :: ls))%nat.
    f_equal. lia.
Qed.

Lemma length_owners (k : nat) lens : length (owners k lens) = sum_list lens.
Proof.
  revert k. induction lens as [|l ls IH]; intros k; [done|].
  change (sum_list (l :: ls)) with (l + sum_list ls)%nat.
  cbn [owners]. rewrite length_app, length_replicate. by rewrite IH.
Qed.

(** Resolving a flattened index against the running sums gives its owner. *)
Lemma find_dataset_owner lens (k acc j last : nat) :
  (j < sum_list lens)%nat →
  owners k lens !! j
  = Some (find_dataset k (running_sum acc lens) (acc + j) last).
Proof.
  revert k acc j last. induction lens as [|l ls IH]; intros k acc j last Hj.
  { cbn in Hj. lia. }
  cbn [owners running_sum find_dataset] in *.
  change (sum_list (l :: ls)) with (l + sum_list ls)%nat in Hj.
  destruct (decide (j < l)%nat) as [Hlt|Hge].
  - rewrite lookup_app_l by (rewrite length_replicate; lia).
    rewrite lookup_replicate_2 by done.
    by rewrite (proj2 (Nat.ltb_lt _ _)) by lia.
  - rewrite lookup_app_r by (rewrite length_replicate; lia).
    rewrite length_replicate.
    rewrite (proj2 (Nat.ltb_ge _ _)) by lia.
    rewrite (IH (S k) (acc + l)%nat (j - l)%nat k) by lia.
    by replace (acc + l + (j - l))%nat with (acc + j)%nat by lia.
Qed.

Lemma dataset_of_seq lens :
  dataset_of (running_sum 0 lens) <$> seq 0 (sum_list lens) = owners 0 lens.
Proof.
  apply list_eq. intros j. rewrite list_lookup_fmap.
  destruct (decide (j < sum_list lens)%nat) as [Hlt|Hge].
  - rewrite lookup_seq_lt by done. cbn [fmap option_fmap option_map].
    unfold dataset_of. symmetry. apply (find_dataset_owner lens 0 0 j 0 Hlt).
  - rewrite lookup_seq_ge by lia. cbn.
    symmetry. apply lookup_ge_None. rewrite length_owners. lia.
Qed.

Lemma count_owners (k k0 : nat) lens :
  length (filter (λ x, x = k) (owners k0 lens))
  = if decide (k0 ≤ k)%nat then default 0%nat (lens !! (k - k0)%nat) else 0%nat.
Proof.
  revert k0. induction lens as [|l ls IH]; intros k0.
  { cbn. by case_decide. }
  cbn [owners]. rewrite filter_app, length_app, IH.
  destruct (decide (k = k0)) as [->|Hne].
  - rewrite Nat.sub_diag. cbn [lookup list_lookup default].
    replace (filter (λ x, x = k0) (replicate l k0)) with (replicate l k0).
    2:{ clear. induction l as [|l IHl]; [done|]. cbn [replicate].
        by rewrite filter_cons_True, <- IHl by done. }
    rewrite length_replicate. unfold id. repeat case_decide; lia.
  - replace (filter (λ x, x = k) (replicate l k0)) with (@nil nat).
    2:{ clear -Hne. induction l as [|l IHl]; [done|]. cbn [replicate].
        by rewrite filter_cons_False by congruence. }
    cbn [length]. repeat case_decide; try lia.
    by replace (k - k0)%nat with (S (k - S k0)) by lia.
Qed.

(** Drawing along a schedule that asks no source for more than it holds. *)
Lemma visit_spec bounds idx_list iters :
  (∀ k, length (filter (λ x, x = k) (dataset_of bounds <$> idx_list))
        ≤ length (default [] (iters !! k)))%nat →
  ∃ visits,
    visit bounds idx_list iters = Ok visits
    ∧ visits.*1 = dataset_of bounds <$> idx_list
    ∧ ∀ k, drawn_from k visits
           = take (length (filter (λ x, x = k) (dataset_of bounds <$> idx_list)))
                  (default [] (iters !! k)).
Proof.
  revert iters. induction idx_list as [|idx rest IH]; intros iters Hcount.
  { exists []. by repeat split. }
  cbn [visit fmap list_fmap] in *.
  set (k0 := dataset_of bounds idx) in *.
  pose proof (Hcount k0) as H0. rewrite filter_cons_True in H0 by done.
  cbn [length] in H0. unfold iter_next.
  destruct (iters !! k0) as [[|b rem]|] eqn:Hk0; simpl in H0;
    try lia.
  cbn [of_option mbind result_bind].
  destruct (IH (<[k0 := rem]> iters)) as (visits & Hv & Hfst & Hdrawn).
  { intros k. destruct (decide (k = k0)) as [->|Hne].
    - rewrite list_lookup_insert_eq by (by eapply lookup_lt_Some).
      simpl. lia.
    - rewrite list_lookup_insert_ne by done.
      specialize (Hcount k). by rewrite filter_cons_False in Hcount. }
  rewrite Hv. cbn [mbind result_bind].
  exists ((k0, b) :: visits). split; [done|]. split.
  { cbn. by rewrite Hfst. }
  intros k. unfold drawn_from in *. destruct (decide (k = k0)) as [->|Hne].
  - rewrite !filter_cons_True by done. cbn [fmap list_fmap length].
    rewrite Hk0. cbn [default take]. f_equal. rewrite Hdrawn.
    by rewrite list_lookup_insert_eq by (by eapply lookup_lt_Some).
  - rewrite !filter_cons_False by (cbn; congruence).
    rewrite Hdrawn. by rewrite list_lookup_insert_ne by done.
Qed.

(** An index below some boundary resolves to the first such boundary. *)
Lemma find_dataset_first bounds (k0 idx last : nat) :
  (∃ b, b ∈ bounds ∧ idx < b)%nat →
  (k0 ≤ find_dataset k0 bounds idx last)%nat
  ∧ ∃ b, bounds !! (find_dataset k0 bounds idx last - k0)%nat = Some b
         ∧ (idx < b)%nat
         ∧ ∀ j b', (j < find_dataset k0 bounds idx last - k0)%nat →
                   bounds !! j = Some b' → (b' ≤ idx)%nat.
Proof.
  revert k0 last. induction bounds as [|b rest IH]; intros k0 last Hex.
  { destruct Hex as (b & Hb & _). by apply elem_of_nil in Hb. }
  cbn [find_dataset]. destruct (idx <? b)%nat eqn:Hlt.
  - apply Nat.ltb_lt in Hlt. split; [lia|]. rewrite Nat.sub_diag.
    exists b. split; [done|]. split; [done|]. intros j b' Hj. lia.
  - apply Nat.ltb_ge in Hlt.
    destruct (IH (S k0) k0) as (Hle & b1 & Hb1 & Hidx & Hfirst).
    { destruct Hex as (b0 & Hb0 & ?). exists b0. split; [|done].
      apply elem_of_cons in Hb0 as [->|?]; [lia|done]. }
    split; [lia|]. exists b1.
    set (k := find_dataset (S k0) rest idx k0) in *.
    replace (k - k0)%nat with (S (k - S k0)) by lia.
    split; [done|]. split; [done|]. intros [|j] b' Hj Hb'.
    + by injection Hb' as <-.
    + apply (Hfirst j b'); [lia|done].
Qed.

Section Shuffled.
Variable shuffle : list nat → list nat.
Hypothesis shuffle_perm : ∀ l, shuffle l ≡ₚ l.

(** C6. For a non-empty list of sources, one multi-head epoch completes;
    its boundaries are the running sums of the source lengths, the
    flattened index it shuffles has one entry per batch, every index
    resolves to the first boundary above it, and the batches drawn from
    each source are exactly that source's batches in their own order.  So
    the epoch visits as many batches as the sources hold together, and
    [len(source)] of them from each source. *)
Theorem multi_head_epoch_schedule (dataloader_list : list (list B)) :
  dataloader_list ≠ [] →
  let lens := length <$> dataloader_list in
  let total := sum_list lens in
  let bounds := cumulative_len dataloader_list in
  bounds = running_sum 0 lens
  ∧ ∃ visits,
      multi_head_epoch shuffle dataloader_list = Ok visits
      ∧ length visits = total
      ∧ visits.*1 = dataset_of bounds <$> shuffle (seq 0 total)
      ∧ (∀ idx, (idx < total)%nat →
           ∃ b, bounds !! dataset_of bounds idx = Some b ∧ (idx < b)%nat
                ∧ ∀ j b', (j < dataset_of bounds idx)%nat →
                          bounds !! j = Some b' → (b' ≤ idx)%nat)
      ∧ ∀ k source, dataloader_list !! k = Some source →
          drawn_from k visits = source
          ∧ length (drawn_from k visits) = length source.
Proof.
  intros Hne lens total bounds.
  assert (Hb : bounds = running_sum 0 lens)
    by apply cumulative_len_running_sum.
  split; [done|].
  assert (Hlens : lens ≠ []) by (unfold lens; by destruct dataloader_list).
  assert (Hlast : last bounds = Some total)
    by (rewrite Hb; apply (last_running_sum 0 lens Hlens)).
  assert (Hcount : ∀ k,
    length (filter (λ x, x = k) (dataset_of bounds <$> shuffle (seq 0 total)))
    = length (default [] (dataloader_list !! k))).
  { intros k. rewrite (shuffle_perm (seq 0 total)).
    rewrite Hb. unfold total. rewrite dataset_of_seq, count_owners.
    rewrite decide_True by lia. rewrite Nat.sub_0_r. unfold lens.
    rewrite list_lookup_fmap. by destruct (dataloader_list !! k). }
  destruct (visit_spec bounds (shuffle (seq 0 total)) dataloader_list)
    as (visits & Hv & Hfst & Hdrawn).
  { intros k. by rewrite Hcount. }
  exists visits. unfold multi_head_epoch. fold bounds. rewrite Hlast.
  cbn [of_option mbind result_bind]. split; [done|]. split.
  { rewrite <- (length_fmap fst), Hfst, length_fmap.
    by rewrite (shuffle_perm (seq 0 total)), length_seq. }
  split; [done|]. split.
  - intros idx Hidx. unfold dataset_of.
    destruct (find_dataset_first bounds 0 idx 0) as (_ & b & Hlook & ? & Hfirst).
    { exists total. split; [|done]. apply last_Some_elem_of. done. }
    rewrite Nat.sub_0_r in Hlook, Hfirst. by exists b.
  - intros k source Hk. rewrite Hdrawn, Hcount, Hk. cbn [default].
    by rewrite firstn_all.
Qed.

End Shuffled.

End MultiHeadFacts.

(** ** The forward pass *)

Section ForwardFacts.
Context {R : Type} {SR : Scalar R}.
Variable linalg_det : mat3 R → R.
Variable model_forward :
  Model R → Torch R → gmap string nat → Z → result (tval R).
Variable autograd_grad :
  Torch R → list nat → list nat → list (tval R) → bool
  → result (list (option (tval R))).
Implicit Types (self : Potential R) (st : Torch R) (input : gmap string nat).

(** [forward], step by step: what a completed call has done. *)
Lemma forward_inv self input (include_forces include_stresses : bool)
    (dataset_idx : Z) st output input' st' :
  forward linalg_det model_forward autograd_grad self input include_forces
    include_stresses dataset_idx st = Ok (output, input', st') →
  unsupported (model_name self) = false
  ∧ ∃ cell_id cell volume st_b st1 energies,
      input !! "cell" = Some cell_id ∧ mat3s_at st cell_id = Ok cell
      ∧ (if include_forces
         then ∃ pos_id, input !! "atom_pos" = Some pos_id
                ∧ st_b = requires_grad_ pos_id
                           (alloc (Mat3s (zeros_like cell)) [] st)
         else st_b = alloc (Mat3s (zeros_like cell)) [] st)
      ∧ (if include_stresses
         then strain_rewrite linalg_det (next_id st) (zeros_like cell)
                input st_b = Ok (input', volume, st1)
         else input' = input ∧ volume = linalg_det <$> cell ∧ st1 = st_b)
      ∧ model_forward (model self) st1 input' dataset_idx = Ok energies
      ∧ let st2 := alloc energies (map_to_list input').*2
                     (log (ModelForward (model self) input' dataset_idx) st1) in
        let energies_id := next_id st1 in
        let training := m_training (model self) in
        match include_forces, include_stresses with
        | false, _ => output = {[ "total_energy" := energies ]} ∧ st' = st2
        | true, false =>
          ∃ pos_id grad force_grad,
            input' !! "atom_pos" = Some pos_id
            ∧ autograd_grad st2 [energies_id] [pos_id] [ones_like energies]
                training = Ok grad
            ∧ grad !! 0%nat = Some force_grad
            ∧ st' = log (AutogradGrad [energies_id] [pos_id] training) st2
            ∧ output = with_forces energies force_grad
        | true, true =>
          ∃ pos_id grad force_grad stress_grad,
            input' !! "atom_pos" = Some pos_id
            ∧ autograd_grad st2 [energies_id] [pos_id; next_id st]
                [ones_like energies] training = Ok grad
            ∧ grad !! 0%nat = Some force_grad
            ∧ grad !! 1%nat = Some stress_grad
            ∧ st' = log (AutogradGrad [energies_id] [pos_id; next_id st]
                           training) st2
            ∧ match stress_grad with
              | Some g =>
                ∃ stresses, stress_of volume g = Ok stresses
                  ∧ output = <["stresses" := stresses]>
                               (with_forces energies force_grad)
              | None => output = with_forces energies force_grad
              end
        end.
Proof.
  unfold forward. intros H.
  destruct (unsupported (model_name self)); [done|]. split; [done|].
  destruct (input !! "cell") as [cell_id|] eqn:Hcell; [|done].
  cbn [of_option mbind result_bind] in H.
  destruct (mat3s_at st cell_id) as [cell|] eqn:Hc; [|done].
  cbn [mbind result_bind] in H.
  set (st_a := alloc (Mat3s (zeros_like cell)) [] st) in *.
  match type of H with
  | context [mbind _ (if include_forces then ?a else ?b)] =>
    destruct (if include_forces then a else b) as [st_b|] eqn:Hb; [|done]
  end.
  cbn [mbind result_bind] in H.
  match type of H with
  | context [mbind _ (if include_stresses then ?a else ?b)] =>
    destruct (if include_stresses then a else b)
      as [[[input1 volume] st1]|] eqn:Hs; [|done]
  end.
  cbn [mbind result_bind] in H.
  destruct (model_forward (model self) st1 input1 dataset_idx)
    as [energies|] eqn:He; [|done].
  cbn [mbind result_bind] in H.
  set (st2 := alloc energies (map_to_list input1).*2
                (log (ModelForward (model self) input1 dataset_idx) st1)) in *.
  assert (Hin : input' = input1 ∧
    match include_forces, include_stresses with
    | false, _ => output = {[ "total_energy" := energies ]} ∧ st' = st2
    | true, false =>
      ∃ pos_id grad force_grad,
        input1 !! "atom_pos" = Some pos_id
        ∧ autograd_grad st2 [next_id st1] [pos_id] [ones_like energies]
            (m_training (model self)) = Ok grad
        ∧ grad !! 0%nat = Some force_grad
        ∧ st' = log (AutogradGrad [next_id st1] [pos_id]
                       (m_training (model self))) st2
        ∧ output = with_forces energies force_grad
    | true, true =>
      ∃ pos_id grad force_grad stress_grad,
        input1 !! "atom_pos" = Some pos_id
        ∧ autograd_grad st2 [next_id st1] [pos_id; next_id st]
            [ones_like energies] (m_training (model self)) = Ok grad
        ∧ grad !! 0%nat = Some force_grad
        ∧ grad !! 1%nat = Some stress_grad
        ∧ st' = log (AutogradGrad [next_id st1] [pos_id; next_id st]
                       (m_training (model self))) st2
        ∧ match stress_grad with
          | Some g =>
            ∃ stresses, stress_of volume g = Ok stresses
              ∧ output = <["stresses" := stresses]>
                           (with_forces energies force_grad)
          | None => output = with_forces energies force_grad
          end
    end).
  { change (next_id (log (ModelForward (model self) input1 dataset_idx) st1))
      with (next_id st1) in H.
    destruct include_forces, include_stresses;
      cbn [andb negb mbind result_bind] in H.
    - destruct (input1 !! "atom_pos") as [pos_id|] eqn:Hp; [|done].
      cbn [of_option mbind result_bind] in H.
      destruct (autograd_grad st2 _ _ _ _) as [grad|] eqn:Hg; [|done].
      cbn [mbind result_bind] in H.
      destruct (grad !! 0%nat) as [fg|] eqn:Hfg; [|done].
      cbn [of_option mbind result_bind] in H.
      destruct (grad !! 1%nat) as [sg|] eqn:Hsg; [|done].
      cbn [of_option mbind result_bind] in H.
      destruct sg as [g|].
      + destruct (stress_of volume g) as [stresses|] eqn:Hst; [|done].
        cbn [mbind result_bind] in H. injection H as <- <- <-.
        split; [done|]. exists pos_id, grad, fg, (Some g).
        do 5 (split; [done|]). by exists stresses.
      + cbn [mbind result_bind] in H. injection H as <- <- <-.
        split; [done|]. by exists pos_id, grad, fg, None.
    - destruct (input1 !! "atom_pos") as [pos_id|] eqn:Hp; [|done].
      cbn [of_option mbind result_bind] in H.
      destruct (autograd_grad st2 _ _ _ _) as [grad|] eqn:Hg; [|done].
      cbn [mbind result_bind] in H.
      destruct (grad !! 0%nat) as [fg|] eqn:Hfg; [|done].
      cbn [of_option mbind result_bind] in H. injection H as <- <- <-.
      split; [done|]. by exists pos_id, grad, fg.
    - by injection H as <- <- <-.
    - by injection H as <- <- <-. }
  destruct Hin as [-> Hout].
  exists cell_id, cell, volume, st_b, st1, energies.
  split; [done|]. split; [done|]. split.
  { destruct include_forces.
    - destruct (input !! "atom_pos") as [pos_id|]; [|done].
      cbn [of_option mbind result_bind] in Hb. injection Hb as <-.
      by exists pos_id.
    - by injection Hb as <-. }
  split.
  { destruct include_stresses; [done|]. by injection Hs as <- <- <-. }
  split; [done|]. exact Hout.
Qed.

(** *** The tensor heap under [alloc] and [requires_grad_] *)

Lemma next_id_alloc (v : tval R) ins st :
  next_id (alloc v ins st) = S (next_id st).
Proof. unfold next_id, alloc. cbn. rewrite length_app. cbn. lia. Qed.

Lemma next_id_requires_grad_ (i : nat) st :
  next_id (requires_grad_ i st) = next_id st.
Proof. unfold next_id, requires_grad_. cbn. by rewrite length_alter. Qed.

Lemma value_of_requires_grad_ (i j : nat) st :
  value_of (requires_grad_ j st) i = value_of st i.
Proof.
  unfold value_of, requires_grad_. cbn.
  destruct (decide (i = j)) as [->|Hne].
  - rewrite list_lookup_alter_eq. by destruct (heap st !! j).
  - by rewrite list_lookup_alter_ne by done.
Qed.

Lemma value_of_alloc_new (v : tval R) ins st :
  value_of (alloc v ins st) (next_id st) = Ok v.
Proof.
  unfold value_of, alloc, next_id. cbn.
  by rewrite lookup_app_r, Nat.sub_diag by lia.
Qed.

Lemma value_of_alloc_old (v : tval R) ins st (i : nat) :
  (i < next_id st)%nat → value_of (alloc v ins st) i = value_of st i.
Proof.
  unfold value_of, alloc, next_id. cbn. intros Hi.
  by rewrite lookup_app_l by done.
Qed.

Lemma value_of_lt st (i : nat) x :
  value_of st i = Ok x → (i < next_id st)%nat.
Proof.
  unfold value_of, next_id. destruct (heap st !! i) eqn:E; [|done].
  intros _. by eapply lookup_lt_Some.
Qed.

Lemma value_of_alloc_inv (v : tval R) ins st (i : nat) x :
  value_of (alloc v ins st) i = Ok x →
  (i = next_id st ∧ x = v) ∨ ((i < next_id st)%nat ∧ value_of st i = Ok x).
Proof.
  intros H. pose proof (value_of_lt _ _ _ H) as Hlt.
  rewrite next_id_alloc in Hlt.
  destruct (decide (i = next_id st)) as [->|Hne].
  - rewrite value_of_alloc_new in H. left. by injection H as <-.
  - right. split; [lia|]. by rewrite value_of_alloc_old in H by lia.
Qed.

Lemma next_id_log (ev : event R) st : next_id (log ev st) = next_id st.
Proof. done. Qed.

Lemma value_of_log (ev : event R) st (i : nat) :
  value_of (log ev st) i = value_of st i.
Proof. done. Qed.

Lemma flag_of_log (ev : event R) st (i : nat) :
  flag_of (log ev st) i = flag_of st i.
Proof. done. Qed.

Lemma inputs_of_log (ev : event R) st (i : nat) :
  inputs_of (log ev st) i = inputs_of st i.
Proof. done. Qed.

Lemma flag_of_alloc_old (v : tval R) ins st (i : nat) :
  (i < next_id st)%nat → flag_of (alloc v ins st) i = flag_of st i.
Proof.
  unfold flag_of, alloc, next_id. cbn. intros Hi.
  by rewrite lookup_app_l by done.
Qed.

Lemma inputs_of_alloc_old (v : tval R) ins st (i : nat) :
  (i < next_id st)%nat → inputs_of (alloc v ins st) i = inputs_of st i.
Proof.
  unfold inputs_of, alloc, next_id. cbn. intros Hi.
  by rewrite lookup_app_l by done.
Qed.

Lemma inputs_of_alloc_new (v : tval R) ins st :
  inputs_of (alloc v ins st) (next_id st) = Some ins.
Proof.
  unfold inputs_of, alloc, next_id. cbn.
  by rewrite lookup_app_r, Nat.sub_diag by lia.
Qed.

Lemma inputs_of_requires_grad_ (i j : nat) st :
  inputs_of (requires_grad_ j st) i = inputs_of st i.
Proof.
  unfold inputs_of, requires_grad_. cbn.
  destruct (decide (i = j)) as [->|Hne].
  - rewrite list_lookup_alter_eq. by destruct (heap st !! j).
  - by rewrite list_lookup_alter_ne by done.
Qed.

Lemma flag_of_requires_grad_eq (i : nat) st :
  (i < next_id st)%nat → flag_of (requires_grad_ i st) i = Some true.
Proof.
  unfold flag_of, requires_grad_, next_id. cbn. intros Hi.
  rewrite list_lookup_alter_eq.
  destruct (lookup_lt_is_Some_2 (heap st) i Hi) as [t ->]. done.
Qed.

Lemma flag_of_requires_grad_true (i j : nat) st :
  flag_of st i = Some true → flag_of (requires_grad_ j st) i = Some true.
Proof.
  unfold flag_of, requires_grad_. cbn. intros H.
  destruct (decide (i = j)) as [->|Hne].
  - rewrite list_lookup_alter_eq. by destruct (heap st !! j).
  - by rewrite list_lookup_alter_ne by done.
Qed.

Lemma trace_alloc (v : tval R) ins st : trace (alloc v ins st) = trace st.
Proof. done. Qed.

Lemma trace_requires_grad_ (i : nat) st :
  trace (requires_grad_ i st) = trace st.
Proof. done. Qed.

Lemma trace_log (ev : event R) st : trace (log ev st) = trace st ++ [ev].
Proof. done. Qed.

Lemma mat3s_at_value st (i : nat) c :
  mat3s_at st i = Ok c → value_of st i = Ok (Mat3s c).
Proof.
  unfold mat3s_at. destruct (value_of st i) as [[]|]; cbn; try done.
  by intros [= ->].
Qed.

Lemma vec3s_at_value st (i : nat) c :
  vec3s_at st i = Ok c → value_of st i = Ok (Vec3s c).
Proof.
  unfold vec3s_at. destruct (value_of st i) as [[]|]; cbn; try done.
  by intros [= ->].
Qed.

(** The strain rewrite, step by step. *)
Lemma strain_rewrite_inv (strain_id : nat) (strain : list (mat3 R)) input st
    input' volume st' :
  strain_rewrite linalg_det strain_id strain input st
    = Ok (input', volume, st') →
  ∃ cell_id cell num_atoms_id num_atoms pos_id pos strain_augment new_pos,
    input !! "cell" = Some cell_id ∧ mat3s_at st cell_id = Ok cell
    ∧ input !! "num_atoms" = Some num_atoms_id
    ∧ ints_at st num_atoms_id = Ok num_atoms
    ∧ input !! "atom_pos" = Some pos_id ∧ vec3s_at st pos_id = Ok pos
    ∧ repeat_interleave strain num_atoms = Ok strain_augment
    ∧ broadcast2 vec_mat pos (mat3_add eye3 <$> strain_augment) = Ok new_pos
    ∧ input' = <["atom_pos" := S (S (next_id st))]>
                 (<["cell" := next_id st]> input)
    ∧ volume
      = linalg_det <$> zip_with mat_mul cell (mat3_add eye3 <$> strain)
    ∧ st' = alloc (Vec3s new_pos) [pos_id; S (next_id st)]
              (alloc (Mat3s strain_augment) [strain_id]
                 (alloc (Mat3s (zip_with mat_mul cell
                                  (mat3_add eye3 <$> strain)))
                    [cell_id; strain_id] (requires_grad_ strain_id st))).
Proof.
  unfold strain_rewrite. intros H.
  destruct (input !! "cell") as [cell_id|] eqn:Hcell; [|done].
  cbn [of_option mbind result_bind] in H.
  destruct (mat3s_at (requires_grad_ strain_id st) cell_id) as [cell|] eqn:Hc;
    [|done].
  cbn [mbind result_bind] in H.
  rewrite next_id_requires_grad_ in H.
  set (st0 := requires_grad_ strain_id st) in *.
  set (new_cell := zip_with mat_mul cell (mat3_add eye3 <$> strain)) in *.
  set (st1 := alloc (Mat3s new_cell) [cell_id; strain_id] st0) in *.
  rewrite !lookup_insert_ne in H by done.
  destruct (input !! "num_atoms") as [na_id|] eqn:Hna; [|done].
  cbn [of_option mbind result_bind] in H.
  destruct (ints_at st1 na_id) as [num_atoms|] eqn:Hn; [|done].
  cbn [mbind result_bind] in H.
  destruct (repeat_interleave strain num_atoms) as [aug|] eqn:Haug; [|done].
  cbn [mbind result_bind] in H.
  set (st2 := alloc (Mat3s aug) [strain_id] st1) in *.
  destruct (input !! "atom_pos") as [pos_id|] eqn:Hpos; [|done].
  cbn [of_option mbind result_bind] in H.
  destruct (vec3s_at st2 pos_id) as [pos|] eqn:Hp; [|done].
  cbn [mbind result_bind] in H.
  destruct (broadcast2 vec_mat pos (mat3_add eye3 <$> aug)) as [new_pos|]
    eqn:Hnp; [|done].
  cbn [mbind result_bind] in H.
  assert (Hid1 : next_id st1 = S (next_id st)).
  { unfold st1, st0. by rewrite next_id_alloc, next_id_requires_grad_. }
  assert (Hid2 : next_id st2 = S (S (next_id st))).
  { unfold st2. by rewrite next_id_alloc, Hid1. }
  rewrite Hid1, Hid2 in H.
  set (st3 := alloc (Vec3s new_pos) [pos_id; S (next_id st)] st2) in *.
  assert (Hread : mat3s_at st3 (next_id st) = Ok new_cell).
  { unfold mat3s_at, st3, st2.
    rewrite value_of_alloc_old by (fold st2; lia).
    rewrite value_of_alloc_old by lia.
    unfold st1. rewrite <- (next_id_requires_grad_ strain_id st).
    fold st0. by rewrite value_of_alloc_new. }
  rewrite Hread in H. cbn [mbind result_bind] in H.
  injection H as <- <- <-.
  exists cell_id, cell, na_id, num_atoms, pos_id, pos, aug, new_pos.
  split; [done|]. split.
  { unfold mat3s_at, st0 in *. by rewrite value_of_requires_grad_ in Hc. }
  split; [done|]. split.
  { unfold ints_at in *.
    destruct (value_of st1 na_id) as [x|] eqn:Hx; [|done].
    apply value_of_alloc_inv in Hx as [[-> ->]|[_ Hx]]; [done|].
    unfold st0 in Hx. by rewrite value_of_requires_grad_ in Hx; rewrite Hx. }
  split; [done|]. split.
  { unfold vec3s_at in *.
    destruct (value_of st2 pos_id) as [x|] eqn:Hx; [|done].
    apply value_of_alloc_inv in Hx as [[-> ->]|[_ Hx]]; [done|].
    apply value_of_alloc_inv in Hx as [[-> ->]|[_ Hx]]; [done|].
    unfold st0 in Hx. by rewrite value_of_requires_grad_ in Hx; rewrite Hx. }
  done.
Qed.

Ltac heap_ids :=
  repeat first [rewrite next_id_alloc | rewrite next_id_requires_grad_
               | rewrite next_id_log];
  lia.

Lemma value_of_alloc_at (v : tval R) ins st (i : nat) :
  i = next_id st → value_of (alloc v ins st) i = Ok v.
Proof. intros ->. apply value_of_alloc_new. Qed.

Lemma inputs_of_alloc_at (v : tval R) ins st (i : nat) :
  i = next_id st → inputs_of (alloc v ins st) i = Some ins.
Proof. intros ->. apply inputs_of_alloc_new. Qed.

Ltac heap_read :=
  repeat first
    [ rewrite value_of_log | rewrite inputs_of_log | rewrite flag_of_log
    | rewrite value_of_alloc_at by heap_ids
    | rewrite inputs_of_alloc_at by heap_ids
    | rewrite value_of_alloc_old by heap_ids
    | rewrite inputs_of_alloc_old by heap_ids
    | rewrite flag_of_alloc_old by heap_ids
    | rewrite value_of_requires_grad_
    | rewrite inputs_of_requires_grad_ ].

Lemma zeros_like_spec (cell : list (mat3 R)) :
  length (zeros_like cell) = length cell
  ∧ ∀ s, s ∈ zeros_like cell → s = zero3.
Proof.
  unfold zeros_like. split; [by rewrite length_fmap|].
  intros s Hs. apply list_elem_of_fmap in Hs as (? & -> & _). done.
Qed.

(** Entry [a] of the interleaved repetition is the entry of the structure
    that owns atom [a]. *)
Lemma repeat_interleave_owner {A} (x : list A) (repeats : list nat) out :
  repeat_interleave x repeats = Ok out →
  length repeats = length x →
  ∀ a k, owners 0 repeats !! a = Some k → out !! a = x !! k.
Proof.
  unfold repeat_interleave. intros H Hlen. rewrite decide_True in H by done.
  injection H as <-.
  assert (Hgen : ∀ (x : list A) repeats k0 a k,
    length repeats = length x →
    owners k0 repeats !! a = Some k →
    (k0 ≤ k)%nat
    ∧ concat (zip_with (λ a n, replicate n a) x repeats) !! a
      = x !! (k - k0)%nat).
  { clear. intros x. induction x as [|y x IH]; intros [|n repeats] k0 a k Hlen;
      try done.
    cbn [owners zip_with concat]. injection Hlen as Hlen.
    destruct (decide (a < n)%nat) as [Hlt|Hge].
    - rewrite !lookup_app_l by (rewrite length_replicate; lia).
      rewrite !lookup_replicate_2 by done. intros [= <-].
      split; [lia|]. by rewrite Nat.sub_diag.
    - rewrite !lookup_app_r by (rewrite length_replicate; lia).
      rewrite !length_replicate. intros Hk.
      destruct (IH repeats (S k0) (a - n)%nat k Hlen Hk) as [Hle ->].
      split; [lia|]. by replace (k - k0)%nat with (S (k - S k0)) by lia. }
  intros a k Hk. destruct (Hgen x repeats 0%nat a k Hlen Hk) as [_ ->].
  by rewrite Nat.sub_0_r.
Qed.

Lemma flag_of_alloc_at (v : tval R) ins st (i j : nat) :
  i = next_id st → j ∈ ins → flag_of st j = Some true →
  flag_of (alloc v ins st) i = Some true.
Proof.
  intros -> Hj Hf. unfold flag_of, alloc, next_id in *. cbn.
  rewrite lookup_app_r, Nat.sub_diag by lia. cbn. f_equal.
  apply existsb_exists. exists j. split; [by apply list_elem_of_In|].
  destruct (heap st !! j) as [t|]; [|done]. cbn in *. congruence.
Qed.

(** The strain rewrite completes as soon as its reads and its two
    broadcasts do. *)
Lemma strain_rewrite_spec (strain_id : nat) (strain : list (mat3 R)) input st
    (cell_id : nat) cell (num_atoms_id : nat) num_atoms (pos_id : nat) pos
    strain_augment new_pos :
  input !! "cell" = Some cell_id → mat3s_at st cell_id = Ok cell →
  input !! "num_atoms" = Some num_atoms_id →
  ints_at st num_atoms_id = Ok num_atoms →
  input !! "atom_pos" = Some pos_id → vec3s_at st pos_id = Ok pos →
  repeat_interleave strain num_atoms = Ok strain_augment →
  broadcast2 vec_mat pos (mat3_add eye3 <$> strain_augment) = Ok new_pos →
  strain_rewrite linalg_det strain_id strain input st
  = Ok (<["atom_pos" := S (S (next_id st))]>
          (<["cell" := next_id st]> input),
        linalg_det <$> zip_with mat_mul cell (mat3_add eye3 <$> strain),
        alloc (Vec3s new_pos) [pos_id; S (next_id st)]
          (alloc (Mat3s strain_augment) [strain_id]
             (alloc (Mat3s (zip_with mat_mul cell
                              (mat3_add eye3 <$> strain)))
                [cell_id; strain_id] (requires_grad_ strain_id st)))).
Proof.
  intros Hcell Hc Hna Hn Hpos Hp Haug Hnp. unfold strain_rewrite.
  pose proof (value_of_lt _ _ _ (mat3s_at_value _ _ _ Hc)) as Hclt.
  pose proof (value_of_lt _ _ _ (vec3s_at_value _ _ _ Hp)) as Hplt.
  assert (Hnlt : (num_atoms_id < next_id st)%nat).
  { unfold ints_at in Hn.
    destruct (value_of st num_atoms_id) as [x|] eqn:Hx; [|done].
    by eapply value_of_lt. }
  set (st0 := requires_grad_ strain_id st).
  assert (Hid0 : next_id st0 = next_id st) by apply next_id_requires_grad_.
  assert (Hc0 : mat3s_at st0 cell_id = Ok cell).
  { unfold mat3s_at, st0 in *. by rewrite value_of_requires_grad_. }
  assert (Hn1 : ∀ v ins, ints_at (alloc v ins st0) num_atoms_id
                         = Ok num_atoms).
  { intros v ins. unfold ints_at, st0 in *.
    rewrite value_of_alloc_old by heap_ids.
    by rewrite value_of_requires_grad_. }
  assert (Hp2 : ∀ v1 i1 v2 i2,
            vec3s_at (alloc v2 i2 (alloc v1 i1 st0)) pos_id = Ok pos).
  { intros v1 i1 v2 i2. unfold vec3s_at, st0 in *.
    rewrite !value_of_alloc_old by heap_ids.
    by rewrite value_of_requires_grad_. }
  assert (Hc3 : ∀ c i1 v2 i2 v3 i3,
            mat3s_at (alloc v3 i3 (alloc v2 i2 (alloc (Mat3s c) i1 st0)))
              (next_id st0) = Ok c).
  { intros c i1 v2 i2 v3 i3. unfold mat3s_at.
    rewrite !value_of_alloc_old by heap_ids.
    by rewrite value_of_alloc_new. }
  rewrite Hcell. cbn [of_option mbind result_bind].
  rewrite Hc0. cbn [mbind result_bind].
  rewrite !lookup_insert_ne by done. rewrite Hna.
  cbn [of_option mbind result_bind]. rewrite Hn1. cbn [mbind result_bind].
  rewrite Haug. cbn [mbind result_bind]. rewrite Hpos.
  cbn [of_option mbind result_bind]. rewrite Hp2. cbn [mbind result_bind].
  rewrite Hnp. cbn [mbind result_bind]. rewrite Hc3.
  cbn [mbind result_bind]. rewrite !next_id_alloc, Hid0. done.
Qed.

Lemma length_repeat_interleave {A} (x x' : list A) (repeats : list nat)
    out :
  repeat_interleave x repeats = Ok out → length x' = length x →
  ∃ out', repeat_interleave x' repeats = Ok out'
          ∧ length out' = length out.
Proof.
  unfold repeat_interleave. intros H Hlen. rewrite Hlen.
  destruct (decide (length repeats = length x)) as [Hr|Hr].
  - injection H as <-. eexists. split; [done|].
    clear Hr. revert x x' Hlen.
    induction repeats as [|n repeats IH]; intros [|a x] [|a' x'] Hlen;
      try done.
    cbn. rewrite !length_app, !length_replicate. f_equal.
    apply IH. by injection Hlen.
  - destruct repeats as [|n [|]]; try done. injection H as <-.
    eexists. split; [done|]. clear Hr. revert x' Hlen.
    induction x as [|a x IH]; intros [|a' x'] Hlen; try done.
    cbn. rewrite !length_app, !length_replicate. f_equal.
    apply IH. by injection Hlen.
Qed.

Lemma broadcast2_length {A B C} (f : A → B → C) (l1 : list A)
    (l2 l2' : list B) out :
  broadcast2 f l1 l2 = Ok out → length l2' = length l2 →
  ∃ out', broadcast2 f l1 l2' = Ok out'.
Proof.
  unfold broadcast2. intros H Hlen. rewrite Hlen.
  destruct (decide (length l1 = length l2)); [by eexists|].
  destruct l1 as [|a [|]]; [| by eexists |].
  - destruct l2 as [|b [|]], l2' as [|b' [|]]; try done. by eexists.
  - destruct l2 as [|b [|]], l2' as [|b' [|]]; try done. by eexists.
Qed.

(** Atom [a] is rewritten with the strain of the structure that owns it. *)
Lemma strain_per_atom (strain strain_augment : list (mat3 R))
    (num_atoms : list nat) (pos new_pos : list (vec3 R)) :
  repeat_interleave strain num_atoms = Ok strain_augment →
  broadcast2 vec_mat pos (mat3_add eye3 <$> strain_augment) = Ok new_pos →
  length num_atoms = length strain →
  ∀ (a k : nat) p s,
    owners 0 num_atoms !! a = Some k → pos !! a = Some p →
    strain !! k = Some s →
    strain_augment !! a = Some s
    ∧ new_pos !! a = Some (vec_mat p (mat3_add eye3 s)).
Proof.
  intros Haug Hnp Hlen a k p s Hk Hp Hs.
  assert (Ha : strain_augment !! a = Some s).
  { by rewrite (repeat_interleave_owner _ _ _ Haug Hlen a k Hk). }
  split; [done|]. unfold broadcast2 in Hnp.
  destruct (decide (length pos = length (mat3_add eye3 <$> strain_augment))).
  { injection Hnp as <-. rewrite lookup_zip_with, Hp. cbn.
    by rewrite list_lookup_fmap, Ha. }
  destruct pos as [|p0 [|]]; [done| |].
  - injection Hnp as <-. destruct a; [|done]. injection Hp as <-.
    destruct strain_augment as [|s0 sa]; [done|]. by injection Ha as <-.
  - destruct strain_augment as [|s0 [|]]; try done.
    injection Hnp as <-. destruct a; [|done]. injection Ha as <-.
    by injection Hp as <-.
Qed.

(** C4. A completed [forward] with [include_stresses=True] has created a
    zero strain tensor of the cell's shape and marked it differentiable,
    rebound [input["cell"]] to [cell · (I + strain)] and
    [input["atom_pos"]] to [pos · (I + strain_augment)], where
    [strain_augment] repeats each structure's strain once per atom it
    owns, and taken the volume as the determinant of the rewritten cell.
    The three new tensors are computed from the strain tensor and are
    differentiable.  As a function of the strain (which the code
    evaluates at zero, where it is differentiated) the rewrite maps every
    strain of the cell's shape to the cell [cell[b] · (I + strain[b])] and
    to the positions [pos[a] · (I + strain[k])] for the structure [k] that
    owns atom [a].  With [include_forces=True] the original positions were
    marked differentiable in the state the rewrite started from, and the
    differentiation call is made on the rewritten position tensor. *)
Theorem forward_strain_transform self input (include_forces : bool)
    (dataset_idx : Z) st output input' st' :
  forward linalg_det model_forward autograd_grad self input include_forces
    true dataset_idx st = Ok (output, input', st') →
  ∃ cell_id cell pos_id pos num_atoms_id num_atoms strain_augment new_pos
    st_b st1,
    let strain_id := next_id st in
    let strain := zeros_like cell in
    let new_cell := zip_with mat_mul cell (mat3_add eye3 <$> strain) in
    (input !! "cell" = Some cell_id ∧ mat3s_at st cell_id = Ok cell
     ∧ input !! "atom_pos" = Some pos_id ∧ vec3s_at st pos_id = Ok pos
     ∧ input !! "num_atoms" = Some num_atoms_id
     ∧ ints_at st num_atoms_id = Ok num_atoms)
    ∧ (length strain = length cell ∧ (∀ s, s ∈ strain → s = zero3)
       ∧ value_of st' strain_id = Ok (Mat3s strain)
       ∧ flag_of st' strain_id = Some true)
    ∧ (input' !! "cell" = Some (strain_id + 1)%nat
       ∧ value_of st' (strain_id + 1)%nat = Ok (Mat3s new_cell)
       ∧ inputs_of st' (strain_id + 1)%nat = Some [cell_id; strain_id]
       ∧ flag_of st' (strain_id + 1)%nat = Some true)
    ∧ (repeat_interleave strain num_atoms = Ok strain_augment
       ∧ (length num_atoms = length cell →
          ∀ a k, owners 0 num_atoms !! a = Some k →
                 strain_augment !! a = strain !! k)
       ∧ broadcast2 vec_mat pos (mat3_add eye3 <$> strain_augment)
         = Ok new_pos
       ∧ input' !! "atom_pos" = Some (strain_id + 3)%nat
       ∧ value_of st' (strain_id + 3)%nat = Ok (Vec3s new_pos)
       ∧ inputs_of st' (strain_id + 3)%nat
         = Some [pos_id; (strain_id + 2)%nat]
       ∧ value_of st' (strain_id + 2)%nat = Ok (Mat3s strain_augment)
       ∧ inputs_of st' (strain_id + 2)%nat = Some [strain_id]
       ∧ flag_of st' (strain_id + 2)%nat = Some true
       ∧ flag_of st' (strain_id + 3)%nat = Some true)
    ∧ strain_rewrite linalg_det strain_id strain input st_b
      = Ok (input', linalg_det <$> new_cell, st1)
    ∧ st_b = (if include_forces
              then requires_grad_ pos_id (alloc (Mat3s strain) [] st)
              else alloc (Mat3s strain) [] st)
    ∧ (include_forces = true →
       flag_of st_b pos_id = Some true
       ∧ flag_of st' pos_id = Some true
       ∧ ∃ energies_id,
           last (trace st')
           = Some (AutogradGrad [energies_id]
                     [(strain_id + 3)%nat; strain_id]
                     (m_training (model self))))
    ∧ (∀ strain' : list (mat3 R), length strain' = length cell →
       let new_cell' := zip_with mat_mul cell (mat3_add eye3 <$> strain') in
       ∃ strain_augment' new_pos' st1',
         strain_rewrite linalg_det strain_id strain' input st_b
         = Ok (input', linalg_det <$> new_cell', st1')
         ∧ value_of st1' (strain_id + 1)%nat = Ok (Mat3s new_cell')
         ∧ value_of st1' (strain_id + 2)%nat = Ok (Mat3s strain_augment')
         ∧ value_of st1' (strain_id + 3)%nat = Ok (Vec3s new_pos')
         ∧ (length num_atoms = length cell →
            ∀ (a k : nat) p s,
              owners 0 num_atoms !! a = Some k → pos !! a = Some p →
              strain' !! k = Some s →
              strain_augment' !! a = Some s
              ∧ new_pos' !! a = Some (vec_mat p (mat3_add eye3 s)))).
Proof.
  intros H.
  apply forward_inv in H
    as (_ & cell_id & cell & volume & st_b & st1 & energies & Hcell & Hc
        & Hb & Hs & He & Hout).
  pose proof Hs as Hrew.
  apply strain_rewrite_inv in Hs
    as (cell_id' & cell' & na_id & num_atoms & pos_id & pos & aug & new_pos
        & Hcell' & Hc' & Hna & Hn & Hpos & Hp & Haug & Hnp & Hin & Hvol & Hst1).
  assert (Hstb : st_b = (if include_forces
                         then requires_grad_ pos_id
                                (alloc (Mat3s (zeros_like cell)) [] st)
                         else alloc (Mat3s (zeros_like cell)) [] st)).
  { destruct include_forces; [|done].
    destruct Hb as (p & Hp' & ->). by simplify_eq. }
  assert (Hidb : next_id st_b = S (next_id st)).
  { rewrite Hstb. destruct include_forces; heap_ids. }
  assert (Hrb : ∀ i, value_of st_b i
                     = value_of (alloc (Mat3s (zeros_like cell)) [] st) i).
  { intros i. rewrite Hstb. destruct include_forces; [|done].
    apply value_of_requires_grad_. }
  assert (Hcid : cell_id' = cell_id ∧ cell' = cell).
  { rewrite Hcell in Hcell'. injection Hcell' as <-. split; [done|].
    unfold mat3s_at in Hc'. rewrite Hrb in Hc'.
    pose proof (mat3s_at_value _ _ _ Hc) as Hv.
    rewrite value_of_alloc_old in Hc' by (by eapply value_of_lt).
    rewrite Hv in Hc'. by injection Hc' as <-. }
  destruct Hcid as [-> ->].
  pose proof Hn as Hn_b. pose proof Hp as Hp_b.
  assert (Hold : ∀ (A : Type) (rd : tval R → result A) (i : nat) (x : A),
    (∀ c, is_ok (rd (Mat3s c)) = false) →
    value_of st_b i ≫= rd = Ok x → value_of st i ≫= rd = Ok x).
  { intros A rd i x Hrd Hx. rewrite Hrb in Hx.
    destruct (value_of (alloc _ _ st) i) as [v|] eqn:Hv; [|done].
    apply value_of_alloc_inv in Hv as [[-> ->]|[_ Hv]].
    - cbn in Hx. specialize (Hrd (zeros_like cell)). by rewrite Hx in Hrd.
    - by rewrite Hv. }
  apply (Hold _ as_ints) in Hn; [|done].
  apply (Hold _ as_vec3s) in Hp; [|done].
  pose proof (value_of_lt _ _ _ (vec3s_at_value _ _ _ Hp)) as Hplt.
  pose proof (value_of_lt _ _ _ (mat3s_at_value _ _ _ Hc)) as Hclt.
  set (st2 := alloc energies (map_to_list input').*2
                (log (ModelForward (model self) input' dataset_idx) st1))
    in *.
  assert (Hst' : st' = st2 ∨ ∃ ev, st' = log ev st2).
  { destruct include_forces.
    - destruct Hout as (? & ? & ? & ? & _ & _ & _ & _ & -> & _). eauto.
    - destruct Hout as [_ ->]. by left. }
  assert (Hval : ∀ i, value_of st' i = value_of st2 i)
    by (intros i; by destruct Hst' as [->|[ev ->]]).
  assert (Hflag : ∀ i, flag_of st' i = flag_of st2 i)
    by (intros i; by destruct Hst' as [->|[ev ->]]).
  assert (Hinp : ∀ i, inputs_of st' i = inputs_of st2 i)
    by (intros i; by destruct Hst' as [->|[ev ->]]).
  (* the flags of the strain and of the three tensors computed from it *)
  pose (st_r := requires_grad_ (next_id st) st_b).
  assert (Hf0 : flag_of st_r (next_id st) = Some true).
  { apply flag_of_requires_grad_eq. lia. }
  assert (Hidr : next_id st_r = S (next_id st)).
  { unfold st_r. by rewrite next_id_requires_grad_. }
  assert (Hf1 : ∀ v, flag_of (alloc v [cell_id; next_id st] st_r)
                       (next_id st + 1)%nat = Some true).
  { intros v. apply (flag_of_alloc_at _ _ _ _ (next_id st)); [lia| |done].
    apply elem_of_cons. right. apply elem_of_cons. by left. }
  assert (Hf2 : ∀ v1 v2,
            flag_of (alloc v2 [next_id st]
                       (alloc v1 [cell_id; next_id st] st_r))
              (next_id st + 2)%nat = Some true).
  { intros v1 v2. apply (flag_of_alloc_at _ _ _ _ (next_id st)).
    - rewrite next_id_alloc. lia.
    - apply elem_of_cons. by left.
    - rewrite flag_of_alloc_old by lia. done. }
  assert (Hf3 : ∀ v1 v2 v3,
            flag_of (alloc v3 [pos_id; S (S (next_id st))]
                       (alloc v2 [next_id st]
                          (alloc v1 [cell_id; next_id st] st_r)))
              (next_id st + 3)%nat = Some true).
  { intros v1 v2 v3.
    apply (flag_of_alloc_at _ _ _ _ (S (S (next_id st)))).
    - rewrite !next_id_alloc. lia.
    - apply elem_of_cons. right. apply elem_of_cons. by left.
    - replace (S (S (next_id st))) with (next_id st + 2)%nat by lia.
      apply Hf2. }
  exists cell_id, cell, pos_id, pos, na_id, num_atoms, aug, new_pos, st_b, st1.
  cbn zeta. rewrite Hidb in *.
  destruct (zeros_like_spec cell) as [Hzl Hz].
  split; [done|]. split.
  { split; [done|]. split; [done|].
    rewrite Hval, Hflag. unfold st2. rewrite Hst1. split.
    - heap_read. rewrite Hrb. by rewrite value_of_alloc_new.
    - heap_read. apply flag_of_requires_grad_eq. lia. }
  split.
  { rewrite Hval, Hinp, Hflag. unfold st2. rewrite Hst1, Hin. split.
    - simplify_map_eq. f_equal. lia.
    - split; [by heap_read|]. split; [by heap_read|].
      rewrite flag_of_alloc_old, flag_of_log by heap_ids.
      rewrite !flag_of_alloc_old by heap_ids. apply Hf1. }
  split.
  { split; [done|]. split.
    { intros Hlen. eapply repeat_interleave_owner; [done|].
      by rewrite Hzl. }
    split; [done|]. rewrite !Hval, !Hinp, !Hflag. unfold st2.
    rewrite Hst1, Hin. split.
    { simplify_map_eq. f_equal. lia. }
    split; [by heap_read|]. split; [heap_read; do 3 f_equal; lia|].
    split; [by heap_read|]. split; [by heap_read|]. split.
    - rewrite flag_of_alloc_old, flag_of_log by heap_ids.
      rewrite flag_of_alloc_old by heap_ids. apply Hf2.
    - rewrite flag_of_alloc_old, flag_of_log by heap_ids. apply Hf3. }
  split; [by rewrite Hrew, Hvol|]. split; [done|]. split.
  { intros ->. split.
    { rewrite Hstb. apply flag_of_requires_grad_eq. heap_ids. }
    split.
    { rewrite Hflag. unfold st2. rewrite Hst1. heap_read.
      apply flag_of_requires_grad_true. rewrite Hstb.
      apply flag_of_requires_grad_eq. heap_ids. }
    destruct Hout as (p' & grad & fg & sg & Hp' & _ & _ & _ & -> & _).
    exists (next_id st1). rewrite trace_log, last_snoc.
    rewrite Hin in Hp'. simplify_map_eq. do 3 f_equal. lia. }
  intros strain' Hlen'.
  destruct (length_repeat_interleave (zeros_like cell) strain' num_atoms aug
              Haug) as (aug' & Haug' & Hla); [by rewrite Hzl|].
  destruct (broadcast2_length vec_mat pos (mat3_add eye3 <$> aug)
              (mat3_add eye3 <$> aug') new_pos Hnp) as [new_pos' Hnp'].
  { by rewrite !length_fmap. }
  pose proof (strain_rewrite_spec (next_id st) strain' input st_b cell_id
                cell na_id num_atoms pos_id pos aug' new_pos'
                Hcell' Hc' Hna Hn_b Hpos Hp_b Haug' Hnp') as Hspec.
  rewrite Hidb in Hspec. rewrite <- Hin in Hspec.
  eexists aug', new_pos', _. split; [exact Hspec|].
  split; [by heap_read|]. split; [by heap_read|]. split; [by heap_read|].
  intros Hlen. apply (strain_per_atom strain' aug' num_atoms pos new_pos');
    [done|done|congruence].
Qed.

Lemma mat3_map_compose (f g : R → R) (m : mat3 R) :
  mat3_map f (mat3_map g m) = mat3_map (λ x, f (g x)) m.
Proof. by destruct m as [[[[??]?] [[??]?]] [[??]?]]. Qed.

(** The stress formula, structure by structure. *)
Lemma stress_of_spec (cells : list (mat3 R)) (g stresses : tval R) :
  stress_of (linalg_det <$> cells) g = Ok stresses →
  ∃ G S, g = Mat3s G ∧ stresses = Mat3s S
    ∧ (length G = length cells →
       length S = length G
       ∧ ∀ (b : nat) c Gb, cells !! b = Some c → G !! b = Some Gb →
           S !! b
           = Some (mat3_map
                     (λ x, rmul (rmul (rdiv (rlit 1) (linalg_det c)) x)
                                (rlit unit_conversion)) Gb)).
Proof.
  unfold stress_of. destruct g as [G| | | |]; try done.
  cbn [as_mat3s mbind result_bind].
  destruct (broadcast2 _ _ G) as [scaled|] eqn:Hb; [|done].
  cbn [mbind result_bind]. intros [= <-]. eexists G, _.
  split; [done|]. split; [done|]. intros Hlen.
  unfold broadcast2 in Hb.
  rewrite decide_True in Hb by (by rewrite length_fmap).
  injection Hb as <-. split.
  { rewrite length_fmap, length_zip_with, length_fmap. lia. }
  intros b c Gb Hc HG. rewrite list_lookup_fmap, lookup_zip_with.
  rewrite list_lookup_fmap, Hc, HG. cbn. by rewrite mat3_map_compose.
Qed.

(** C1. A completed [forward] with forces and stresses made exactly one
    differentiation call: of the energies, with unit weights (the gradient
    of their sum), jointly with respect to the rewritten positions and the
    strain tensor.  The forces are the negated first gradient, and the
    stress of structure [b] is the second gradient's slice [b] scaled by
    [1 / det(strained cell b)] and then by 160.21766208. *)
Theorem forward_joint_gradient self input (dataset_idx : Z) st
    output input' st' :
  forward linalg_det model_forward autograd_grad self input true true
    dataset_idx st = Ok (output, input', st') →
  ∃ cell energies energies_id pos_id st_call grad force_grad stress_grad,
    let strain_id := next_id st in
    let new_cell :=
      zip_with mat_mul cell (mat3_add eye3 <$> zeros_like cell) in
    let call := AutogradGrad [energies_id] [pos_id; strain_id]
                  (m_training (model self)) in
    (∃ cell_id, input !! "cell" = Some cell_id
                ∧ mat3s_at st cell_id = Ok cell)
    ∧ input' !! "atom_pos" = Some pos_id
    ∧ (∃ cell_id', input' !! "cell" = Some cell_id'
                   ∧ value_of st' cell_id' = Ok (Mat3s new_cell))
    ∧ value_of st' strain_id = Ok (Mat3s (zeros_like cell))
    ∧ value_of st' energies_id = Ok energies
    ∧ output !! "total_energy" = Some energies
    ∧ trace st'
      = trace st ++ [ModelForward (model self) input' dataset_idx; call]
    ∧ st' = log call st_call
    ∧ autograd_grad st_call [energies_id] [pos_id; strain_id]
        [ones_like energies] (m_training (model self)) = Ok grad
    ∧ grad !! 0%nat = Some force_grad ∧ grad !! 1%nat = Some stress_grad
    ∧ output !! "forces" = neg <$> force_grad
    ∧ match stress_grad with
      | None => output !! "stresses" = None
      | Some g =>
        ∃ G S, g = Mat3s G ∧ output !! "stresses" = Some (Mat3s S)
          ∧ (length G = length new_cell →
             length S = length G
             ∧ ∀ (b : nat) c Gb, new_cell !! b = Some c → G !! b = Some Gb →
                 S !! b
                 = Some (mat3_map
                           (λ x, rmul (rmul (rdiv (rlit 1) (linalg_det c)) x)
                                      (rlit unit_conversion)) Gb))
      end.
Proof.
  intros H.
  apply forward_inv in H
    as (_ & cell_id & cell & volume & st_b & st1 & energies & Hcell & Hc
        & (p0 & Hp0 & ->) & Hs & He & Hout).
  apply strain_rewrite_inv in Hs
    as (cell_id' & cell' & na_id & num_atoms & pos_id & pos & aug & new_pos
        & Hcell' & Hc' & Hna & Hn & Hpos & Hp & Haug & Hnp & Hin & Hvol & Hst1).
  assert (Hcid : cell_id' = cell_id ∧ cell' = cell).
  { rewrite Hcell in Hcell'. injection Hcell' as <-. split; [done|].
    unfold mat3s_at in Hc'. rewrite value_of_requires_grad_ in Hc'.
    pose proof (mat3s_at_value _ _ _ Hc) as Hv.
    rewrite value_of_alloc_old in Hc' by (by eapply value_of_lt).
    rewrite Hv in Hc'. by injection Hc' as <-. }
  destruct Hcid as [-> ->].
  destruct Hout as (p' & grad & fg & sg & Hp' & Hgrad & Hfg & Hsg & -> & Hsgo).
  set (st2 := alloc energies (map_to_list input').*2
                (log (ModelForward (model self) input' dataset_idx) st1))
    in *.
  exists cell, energies, (next_id st1), p', st2, grad, fg, sg. cbn zeta.
  split; [by exists cell_id|]. split; [done|]. split.
  { exists (next_id st + 1)%nat. split.
    - rewrite Hin. simplify_map_eq. f_equal. heap_ids.
    - unfold st2. rewrite Hst1. by heap_read. }
  split.
  { unfold st2. rewrite Hst1. by heap_read. }
  split.
  { unfold st2. by heap_read. }
  assert (Hf : ∀ k, k ≠ "stresses" →
    with_forces energies fg !! k
    = <["stresses" := Opaque]> (with_forces energies fg) !! k).
  { intros k Hk. by rewrite lookup_insert_ne. }
  assert (Hte : with_forces energies fg !! "total_energy" = Some energies).
  { unfold with_forces. destruct fg; by simplify_map_eq. }
  assert (Hfo : with_forces energies fg !! "forces" = neg <$> fg).
  { unfold with_forces. destruct fg; by simplify_map_eq. }
  assert (Hso : with_forces energies fg !! "stresses" = None).
  { unfold with_forces. destruct fg; by simplify_map_eq. }
  split.
  { destruct sg as [g|]; [destruct Hsgo as (? & _ & ->)|subst output];
      by rewrite ?lookup_insert_ne. }
  split.
  { rewrite trace_log. unfold st2. rewrite trace_alloc, trace_log.
    rewrite Hst1. rewrite !trace_alloc, !trace_requires_grad_, trace_alloc.
    by rewrite <- (assoc_L (++)). }
  split; [done|]. split; [done|]. split; [done|]. split; [done|]. split.
  { destruct sg as [g|]; [destruct Hsgo as (? & _ & ->)|subst output];
      by rewrite ?lookup_insert_ne. }
  destruct sg as [g|]; [|by subst output].
  destruct Hsgo as (stresses & Hstress & ->). rewrite Hvol in Hstress.
  apply stress_of_spec in Hstress as (G & S & -> & -> & Hel).
  exists G, S. split; [done|]. split; [by rewrite lookup_insert_eq|]. done.
Qed.

(** C9. With [include_forces=False] and [include_stresses=True] a completed
    [forward] has marked the strain tensor differentiable and rebound
    [input["cell"]] and [input["atom_pos"]] to new tensors, yet it made no
    differentiation call and its output holds the single key
    ["total_energy"]: neither ["stresses"] nor ["forces"]. *)
Theorem forward_stresses_without_forces self input (dataset_idx : Z) st
    output input' st' :
  forward linalg_det model_forward autograd_grad self input false true
    dataset_idx st = Ok (output, input', st') →
  dom output = ({[ "total_energy" ]} : gset string)
  ∧ output !! "stresses" = None ∧ output !! "forces" = None
  ∧ flag_of st' (next_id st) = Some true
  ∧ input' !! "cell" = Some (next_id st + 1)%nat
  ∧ input' !! "atom_pos" = Some (next_id st + 3)%nat
  ∧ inputs_of st' (next_id st + 1)%nat
    = (λ c, [c; next_id st]) <$> input !! "cell"
  ∧ inputs_of st' (next_id st + 3)%nat
    = (λ p, [p; (next_id st + 2)%nat]) <$> input !! "atom_pos"
  ∧ trace st' = trace st ++ [ModelForward (model self) input' dataset_idx].
Proof.
  intros H.
  apply forward_inv in H
    as (_ & cell_id & cell & volume & st_b & st1 & energies & Hcell & Hc
        & -> & Hs & He & -> & ->).
  apply strain_rewrite_inv in Hs
    as (cell_id' & cell' & na_id & num_atoms & pos_id & pos & aug & new_pos
        & Hcell' & Hc' & Hna & Hn & Hpos & Hp & Haug & Hnp & -> & -> & ->).
  rewrite !next_id_alloc in *.
  split; [by rewrite dom_singleton_L|].
  split; [done|]. split; [done|]. split.
  { rewrite flag_of_alloc_old, flag_of_log by heap_ids.
    rewrite !flag_of_alloc_old by heap_ids.
    apply flag_of_requires_grad_eq. heap_ids. }
  split; [by simplify_map_eq; f_equal; lia|].
  split; [by simplify_map_eq; f_equal; lia|].
  split.
  { rewrite inputs_of_alloc_old, inputs_of_log by heap_ids.
    rewrite !inputs_of_alloc_old by heap_ids.
    replace (next_id st + 1)%nat
      with (next_id (requires_grad_ (next_id st)
                       (alloc (Mat3s (zeros_like cell)) [] st)))
      by heap_ids.
    rewrite inputs_of_alloc_new. rewrite Hcell'. cbn. do 3 f_equal. }
  split.
  { rewrite inputs_of_alloc_old, inputs_of_log by heap_ids.
    match goal with
    | |- inputs_of (alloc ?v ?ins ?s) _ = _ =>
      replace (next_id st + 3)%nat with (next_id s) by heap_ids
    end.
    rewrite inputs_of_alloc_new, Hpos. cbn. do 3 f_equal. lia. }
  done.
Qed.

(** *** Loss composition *)

Section LossFacts.
Variable L1Loss : tval R → tval R → R.

(** C5. For a supported model kind and a result holding the included
    quantities, [loss_calc] returns: the scalar loss, built from 0.0 by
    adding the energy term on per-atom energies (prediction and ground
    truth both divided by the atom count), the force term times its
    weight and the stress term times its weight, the latter two on the raw
    tensors; and three unweighted L1 metrics.  An excluded quantity adds
    nothing to the loss and leaves 0.0 in its metric slot. *)
Theorem loss_calc_composition self (b : graph_batch R)
    (result_ : gmap string (tval R)) (loss : tval R → tval R → R)
    (include_energy include_forces include_stresses : bool) (loss_f loss_s : R)
    (E : list R) (F S : tval R) :
  unsupported (model_name self) = false →
  (include_energy = true →
   result_ !! "total_energy" = Some (Scalars E)
   ∧ length E = length (gb_num_atoms b)
   ∧ length (gb_energy b) = length (gb_num_atoms b)) →
  (include_forces = true → result_ !! "forces" = Some F) →
  (include_stresses = true → result_ !! "stresses" = Some S) →
  let per_atom (e : list R) := zip_with rdiv e (rnat <$> gb_num_atoms b) in
  let e_pred := Scalars (per_atom E) in
  let e_gt := Scalars (per_atom (gb_energy b)) in
  let f_gt := Vec3s (gb_forces b) in
  let s_gt := Mat3s (gb_stress b) in
  let l0 := rlit 0 in
  let l1 := if include_energy then radd l0 (loss e_pred e_gt) else l0 in
  let l2 := if include_forces then radd l1 (rmul (loss F f_gt) loss_f)
            else l1 in
  let l3 := if include_stresses then radd l2 (rmul (loss S s_gt) loss_s)
            else l2 in
  loss_calc L1Loss self b result_ loss include_energy include_forces
    include_stresses loss_f loss_s
  = Ok (l3,
        if include_energy then L1Loss e_pred e_gt else rlit 0,
        if include_forces then L1Loss F f_gt else rlit 0,
        if include_stresses then L1Loss S s_gt else rlit 0)
  ∧ ∀ (i : nat) e n, gb_num_atoms b !! i = Some n →
      (E !! i = Some e → per_atom E !! i = Some (rdiv e (rnat n)))
      ∧ (gb_energy b !! i = Some e →
         per_atom (gb_energy b) !! i = Some (rdiv e (rnat n))).
Proof.
  intros Hsup He Hf Hs. cbn zeta. split.
  - unfold loss_calc. rewrite Hsup.
    assert (Hbr : ∀ e : list R, length e = length (gb_num_atoms b) →
              broadcast2 rdiv e (rnat <$> gb_num_atoms b)
              = Ok (zip_with rdiv e (rnat <$> gb_num_atoms b))).
    { intros e Hlen. unfold broadcast2.
      by rewrite decide_True by (by rewrite length_fmap). }
    destruct include_energy.
    + destruct (He eq_refl) as (HE & Hl1 & Hl2).
      rewrite (Hbr _ Hl2). cbn [mbind result_bind]. rewrite HE.
      cbn [of_option mbind result_bind as_scalars]. rewrite (Hbr _ Hl1).
      cbn [mbind result_bind].
      destruct include_forces; [rewrite (Hf eq_refl)|];
        cbn [of_option mbind result_bind];
        (destruct include_stresses; [rewrite (Hs eq_refl)|]);
        cbn [of_option mbind result_bind]; done.
    + cbn [mbind result_bind].
      destruct include_forces; [rewrite (Hf eq_refl)|];
        cbn [of_option mbind result_bind];
        (destruct include_stresses; [rewrite (Hs eq_refl)|]);
        cbn [of_option mbind result_bind]; done.
  - intros i e n Hn.
    split; intros Hi; rewrite lookup_zip_with, Hi; cbn;
      by rewrite list_lookup_fmap, Hn.
Qed.

(** *** Validation under the EMA shadow weights *)

Variable training_step :
  Potential R → R → Torch R → state_dict R * Adam R * state_dict R.
Variable mean : list R → R.

(** The events of one [forward]: one model evaluation, with the model the
    engine holds at the call, then at most differentiation calls. *)
Lemma forward_trace self input (include_forces include_stresses : bool)
    (dataset_idx : Z) st output input' st' :
  forward linalg_det model_forward autograd_grad self input include_forces
    include_stresses dataset_idx st = Ok (output, input', st') →
  ∃ rest, trace st'
          = trace st ++ ModelForward (model self) input' dataset_idx :: rest
    ∧ ∀ m i d, ModelForward m i d ∉ rest.
Proof.
  intros H.
  apply forward_inv in H
    as (_ & cell_id & cell & volume & st_b & st1 & energies & Hcell & Hc
        & Hb & Hs & He & Hout).
  assert (Htb : trace st_b = trace st).
  { destruct include_forces; [destruct Hb as (? & _ & ->)|subst st_b]; done. }
  assert (Ht1 : trace st1 = trace st).
  { rewrite <- Htb. destruct include_stresses.
    - apply strain_rewrite_inv in Hs
        as (? & ? & ? & ? & ? & ? & ? & ? & _ & _ & _ & _ & _ & _ & _ & _
            & _ & _ & ->). done.
    - by destruct Hs as (_ & _ & ->). }
  destruct include_forces.
  - assert (∃ ev, st' = log ev
              (alloc energies (map_to_list input').*2
                 (log (ModelForward (model self) input' dataset_idx) st1))
            ∧ ∀ m i d, ev ≠ ModelForward m i d) as (ev & -> & Hev).
    { destruct include_stresses.
      - destruct Hout as (? & ? & ? & ? & _ & _ & _ & _ & -> & _).
        eexists. split; [done|]. done.
      - destruct Hout as (? & ? & ? & _ & _ & _ & -> & _).
        eexists. split; [done|]. done. }
    exists [ev]. rewrite trace_log, trace_alloc, trace_log, Ht1.
    split; [by rewrite <- (assoc_L (++))|].
    intros m i d Hin. apply list_elem_of_singleton in Hin. by eapply Hev.
  - destruct Hout as [_ ->]. exists [].
    rewrite trace_alloc, trace_log, Ht1. split; [done|].
    intros m i d Hin. by apply elem_of_nil in Hin.
Qed.

Lemma no_model_forward (l : list (event R)) :
  (∀ m i d, ModelForward m i d ∉ l) →
  filter (λ ev, is_model_forward ev = true) l = [].
Proof.
  induction l as [|ev l IH]; intros H; [done|].
  destruct ev as [m i d|o i c].
  - destruct (H m i d). apply elem_of_cons. by left.
  - rewrite filter_cons_False by done. apply IH.
    intros m i' d Hin. apply (H m i' d). apply elem_of_cons. by right.
Qed.

Section ValFacts.
Variables (loss : tval R → tval R → R)
          (include_energy include_forces include_stresses : bool)
          (loss_f loss_s : R).

Lemma batch_step_val (b : graph_batch R) self st acc self' st' acc' :
  batch_step linalg_det model_forward autograd_grad L1Loss training_step
    loss include_energy include_forces include_stresses loss_f loss_s "val"
    b self st acc = Ok (self', st', acc') →
  model self' = model self ∧ optimizer self' = optimizer self
  ∧ shadow_params (ema self') = shadow_params (ema self)
  ∧ ∃ input rest,
      trace st' = trace st ++ ModelForward (shadow_model self) input (-1) :: rest
      ∧ ∀ m i d, ModelForward m i d ∉ rest.
Proof.
  unfold batch_step. intros H.
  destruct (unsupported (model_name self)); [done|].
  rewrite (bool_decide_eq_false_2 ("val" = "train")) in H by done.
  rewrite (bool_decide_eq_true_2 ("val" = "val")) in H by done.
  unfold average_parameters in H. cbn [mbind result_bind] in H.
  destruct (forward _ _ _ (ema_copy_to (ema_store self)) _ _ _ _ _)
    as [[[output inp] st1]|] eqn:Hf; [|done].
  cbn [mbind result_bind ema_restore ema_copy_to ema_store set_ema set_model
       ema model collected_params set_collected of_option fst snd] in H.
  destruct (loss_calc _ _ _ _ _ _ _ _ _ _)
    as [[[[l e] f] s']|]; [|done].
  cbn [mbind result_bind] in H.
  injection H as <- <- <-.
  cbn [model optimizer ema shadow_params set_ema set_model set_collected].
  split; [by destruct (model self)|]. split; [done|]. split; [done|].
  apply forward_trace in Hf as (rest & Ht & Hrest).
  exists inp, rest. split; [|done]. rewrite Ht.
  by rewrite (surjective_pairing (batch_to_dict b st)).
Qed.

Lemma run_batches_val (dataloader : list (graph_batch R)) self st acc
    self' st' acc' :
  run_batches linalg_det model_forward autograd_grad L1Loss training_step
    loss include_energy include_forces include_stresses loss_f loss_s "val"
    dataloader self st acc = Ok (self', st', acc') →
  model self' = model self ∧ optimizer self' = optimizer self
  ∧ shadow_params (ema self') = shadow_params (ema self)
  ∧ ∃ evs,
      trace st' = trace st ++ evs
      ∧ length (filter (λ ev, is_model_forward ev = true) evs)
        = length dataloader
      ∧ ∀ m i d, ModelForward m i d ∈ evs → m = shadow_model self.
Proof.
  revert self st acc. induction dataloader as [|b rest IH];
    intros self st acc H.
  { injection H as <- <- <-. do 3 (split; [done|]). exists [].
    split; [by rewrite app_nil_r|]. split; [done|].
    intros m i d Hin. by apply elem_of_nil in Hin. }
  cbn [run_batches] in H.
  destruct (batch_step _ _ _ _ _ _ _ _ _ _ _ _ b self st acc)
    as [[[self1 st1] acc1]|] eqn:Hb; [|done].
  cbn [mbind result_bind] in H.
  apply batch_step_val in Hb as (Hm & Ho & Hsh & inp & evs1 & Ht1 & Hno).
  apply IH in H as (Hm' & Ho' & Hsh' & evs & Ht & Hcount & Hall).
  split; [congruence|]. split; [congruence|]. split; [congruence|].
  exists (ModelForward (shadow_model self) inp (-1) :: evs1 ++ evs).
  split; [by rewrite Ht, Ht1, <- (assoc_L (++))|]. split.
  - rewrite filter_cons_True by done. cbn [length]. f_equal.
    rewrite filter_app, length_app, Hcount.
    by rewrite (no_model_forward evs1 Hno).
  - intros m i d Hin. apply elem_of_cons in Hin as [Hin|Hin].
    { by injection Hin as -> _ _. }
    apply elem_of_app in Hin as [Hin|Hin]; [by apply Hno in Hin|].
    apply Hall in Hin. rewrite Hin. unfold shadow_model. by rewrite Hm, Hsh.
Qed.

Lemma run_batches_app (l1 l2 : list (graph_batch R)) self st acc :
  run_batches linalg_det model_forward autograd_grad L1Loss training_step
    loss include_energy include_forces include_stresses loss_f loss_s "val"
    (l1 ++ l2) self st acc
  = run_batches linalg_det model_forward autograd_grad L1Loss training_step
      loss include_energy include_forces include_stresses loss_f loss_s
      "val" l1 self st acc
    ≫= λ '(self1, st1, acc1),
      run_batches linalg_det model_forward autograd_grad L1Loss
        training_step loss include_energy include_forces include_stresses
        loss_f loss_s "val" l2 self1 st1 acc1.
Proof.
  revert self st acc. induction l1 as [|b l1 IH]; intros self st acc; [done|].
  cbn [app run_batches].
  destruct (batch_step _ _ _ _ _ _ _ _ _ _ _ _ b self st acc)
    as [[[self1 st1] acc1]|]; [|done].
  cbn [mbind result_bind]. apply IH.
Qed.

(** One validation batch, step by step: the [with] block holds the forward
    call alone, runs it on the engine with the shadow parameters swapped
    in, and hands back the engine with the raw parameters restored; the
    loss is computed after that. *)
Lemma batch_step_val_inv (b : graph_batch R) self st acc self' st' acc' :
  batch_step linalg_det model_forward autograd_grad L1Loss training_step
    loss include_energy include_forces include_stresses loss_f loss_s "val"
    b self st acc = Ok (self', st', acc') →
  ∃ output input',
    forward linalg_det model_forward autograd_grad (averaged self)
      (batch_to_dict b st).1 include_forces include_stresses (-1)
      (batch_to_dict b st).2 = Ok (output, input', st')
    ∧ average_parameters (λ self,
        '(output, _, st) ←
          forward linalg_det model_forward autograd_grad self
            (batch_to_dict b st).1 include_forces include_stresses (-1)
            (batch_to_dict b st).2;
        Ok ((output, st), self)) self
      = Ok ((output, st'), restored self)
    ∧ self' = restored self
    ∧ is_ok (loss_calc L1Loss (restored self) b output loss include_energy
               include_forces include_stresses loss_f loss_s) = true.
Proof.
  unfold batch_step. intros H.
  destruct (unsupported (model_name self)); [done|].
  rewrite (bool_decide_eq_false_2 ("val" = "train")) in H by done.
  rewrite (bool_decide_eq_true_2 ("val" = "val")) in H by done.
  unfold average_parameters in *. fold (averaged self) in *.
  destruct (forward _ _ _ (averaged self) _ _ _ _ _)
    as [[[output inp] st1]|] eqn:Hf; [|done].
  cbn [mbind result_bind ema_restore averaged ema_copy_to ema_store set_ema
       set_model ema model collected_params set_collected of_option fst snd]
    in H |- *.
  match type of H with
  | context [loss_calc ?l ?s ?b ?o] =>
    destruct (loss_calc l s b o loss include_energy include_forces
                include_stresses loss_f loss_s) as [[[[l0 e] f] s']|] eqn:Hl;
      [|done]
  end.
  cbn [mbind result_bind] in H. injection H as <- <- <-.
  exists output, inp. split; [done|]. split; [done|]. split; [done|].
  match goal with
  | |- is_ok ?x = true =>
    assert (Hx : x = Ok (l0, e, f, s')) by exact Hl; by rewrite Hx
  end.
Qed.

Lemma model_restored self : model (restored self) = model self.
Proof. unfold restored. cbn. by destruct (model self). Qed.

(** C8. A completed validation epoch evaluated the model once per batch,
    each time with the EMA shadow parameters swapped in (and in eval
    mode), and the engine ends with the raw parameters, the optimizer and
    the shadow parameters it started with.  The swap is made and undone
    batch by batch: for every batch [b] of the loader, the engine that
    reaches it holds the raw parameters, the forward call of [b] runs on
    the engine with the shadow parameters in place of them, the [with]
    block around that call returns the engine with the raw parameters
    restored, and on this engine the loss of [b] is computed and the next
    batch starts. *)
Theorem validation_under_shadow_weights (dataloader : list (graph_batch R))
    self st r self' st' :
  train_one_epoch linalg_det model_forward autograd_grad L1Loss
    training_step mean loss include_energy include_forces include_stresses
    loss_f loss_s "val" dataloader self st = Ok (r, self', st') →
  m_params (model self') = m_params (model self)
  ∧ optimizer self' = optimizer self
  ∧ shadow_params (ema self') = shadow_params (ema self)
  ∧ is_Some r
  ∧ (∃ evs,
      trace st' = trace st ++ evs
      ∧ length (filter (λ ev, is_model_forward ev = true) evs)
        = length dataloader
      ∧ ∀ m i d, ModelForward m i d ∈ evs →
          m_params m = shadow_params (ema self) ∧ m_training m = false)
  ∧ ∀ pre b post, dataloader = pre ++ b :: post →
      ∃ self_b st_b acc_b output input' st_b' acc_b',
        run_batches linalg_det model_forward autograd_grad L1Loss
          training_step loss include_energy include_forces include_stresses
          loss_f loss_s "val" pre
          (set_model (set_training false (model self)) self) st
          {| loss_avg := []; train_e_mae := []; train_f_mae := [];
             train_s_mae := [] |} = Ok (self_b, st_b, acc_b)
        ∧ m_params (model self_b) = m_params (model self)
        ∧ shadow_params (ema self_b) = shadow_params (ema self)
        ∧ forward linalg_det model_forward autograd_grad (averaged self_b)
            (batch_to_dict b st_b).1 include_forces include_stresses (-1)
            (batch_to_dict b st_b).2 = Ok (output, input', st_b')
        ∧ m_params (model (averaged self_b)) = shadow_params (ema self)
        ∧ average_parameters (λ self,
            '(output, _, st) ←
              forward linalg_det model_forward autograd_grad self
                (batch_to_dict b st_b).1 include_forces include_stresses
                (-1) (batch_to_dict b st_b).2;
            Ok ((output, st), self)) self_b
          = Ok ((output, st_b'), restored self_b)
        ∧ m_params (model (restored self_b)) = m_params (model self)
        ∧ is_ok (loss_calc L1Loss (restored self_b) b output loss
                   include_energy include_forces include_stresses loss_f
                   loss_s) = true
        ∧ batch_step linalg_det model_forward autograd_grad L1Loss
            training_step loss include_energy include_forces
            include_stresses loss_f loss_s "val" b self_b st_b acc_b
          = Ok (restored self_b, st_b', acc_b').
Proof.
  unfold train_one_epoch. intros H.
  rewrite (bool_decide_eq_false_2 ("val" = "train")) in H by done.
  rewrite !(bool_decide_eq_true_2 ("val" = "val")) in H by done.
  destruct (run_batches _ _ _ _ _ _ _ _ _ _ _ _ _ _ _ _)
    as [[[self1 st1] acc1]|] eqn:Hrun; [|done].
  cbn [mbind result_bind] in H. injection H as <- <- <-.
  pose proof Hrun as Hall1.
  apply run_batches_val in Hall1 as (Hm & Ho & Hsh & evs & Ht & Hc & Hall).
  rewrite Hm, Ho, Hsh. do 3 (split; [done|]). split; [by eexists|].
  split.
  { exists evs. split; [done|]. split; [done|].
    intros m i d Hin. by rewrite (Hall m i d Hin). }
  intros pre b post ->. rewrite run_batches_app in Hrun.
  destruct (run_batches _ _ _ _ _ _ _ _ _ _ _ _ pre _ _ _)
    as [[[self_b st_b] acc_b]|] eqn:Hpre; [|done].
  cbn [mbind result_bind run_batches] in Hrun.
  destruct (batch_step _ _ _ _ _ _ _ _ _ _ _ _ b self_b st_b acc_b)
    as [[[self_b' st_b'] acc_b']|] eqn:Hb; [|done].
  apply run_batches_val in Hpre as Hfacts.
  destruct Hfacts as (Hmb & _ & Hshb & _).
  pose proof Hb as Hinv.
  apply batch_step_val_inv in Hinv
    as (output & input' & Hf & Hwith & -> & Hloss).
  exists self_b, st_b, acc_b, output, input', st_b', acc_b'.
  split; [done|]. split; [by rewrite Hmb|]. split; [done|].
  split; [done|]. split; [done|]. split; [done|].
  split; [by rewrite model_restored, Hmb|]. done.
Qed.

End ValFacts.

End LossFacts.

End ForwardFacts.

(** ** [forward]: the other branches and the frame *)

Section ForwardMore.
Context {R : Type} {SR : Scalar R}.
Variable linalg_det : mat3 R → R.
Variable model_forward :
  Model R → Torch R → gmap string nat → Z → result (tval R).
Variable autograd_grad :
  Torch R → list nat → list nat → list (tval R) → bool
  → result (list (option (tval R))).
Implicit Types (self : Potential R) (st : Torch R) (input : gmap string nat).

Lemma tensors_kept_refl st : tensors_kept st st.
Proof. split; [lia|done]. Qed.

Lemma tensors_kept_trans st1 st2 st3 :
  tensors_kept st1 st2 → tensors_kept st2 st3 → tensors_kept st1 st3.
Proof.
  intros [H1 K1] [H2 K2]. split; [lia|]. intros i Hi.
  destruct (K1 i Hi) as [<- <-]. apply K2. lia.
Qed.

Lemma tensors_kept_alloc (v : tval R) ins st :
  tensors_kept st (alloc v ins st).
Proof.
  split; [rewrite next_id_alloc; lia|]. intros i Hi.
  by rewrite value_of_alloc_old, inputs_of_alloc_old.
Qed.

Lemma tensors_kept_requires_grad_ (j : nat) st :
  tensors_kept st (requires_grad_ j st).
Proof.
  split; [rewrite next_id_requires_grad_; lia|]. intros i Hi.
  by rewrite value_of_requires_grad_, inputs_of_requires_grad_.
Qed.

Lemma tensors_kept_log (ev : event R) st : tensors_kept st (log ev st).
Proof. split; [rewrite next_id_log; lia|done]. Qed.

Lemma flag_of_requires_grad_ne (i j : nat) st :
  i ≠ j → flag_of (requires_grad_ j st) i = flag_of st i.
Proof.
  intros Hne. unfold flag_of, requires_grad_. cbn.
  by rewrite list_lookup_alter_ne by done.
Qed.

Lemma strain_rewrite_kept (strain_id : nat) strain input st input' volume st' :
  strain_rewrite linalg_det strain_id strain input st
    = Ok (input', volume, st') →
  tensors_kept st st'
  ∧ (∀ i, (i < next_id st)%nat → i ≠ strain_id →
       flag_of st' i = flag_of st i)
  ∧ (∀ k, k ≠ "cell" → k ≠ "atom_pos" → input' !! k = input !! k)
  ∧ input' !! "cell" = Some (next_id st)
  ∧ input' !! "atom_pos" = Some (S (S (next_id st))).
Proof.
  intros H. apply strain_rewrite_inv in H
    as (cell_id & cell & na_id & num_atoms & pos_id & pos & aug & new_pos
        & _ & _ & _ & _ & _ & _ & _ & _ & -> & _ & ->).
  split.
  { eapply tensors_kept_trans; [apply (tensors_kept_requires_grad_ strain_id)|].
    eapply tensors_kept_trans; [apply tensors_kept_alloc|].
    eapply tensors_kept_trans; apply tensors_kept_alloc. }
  split.
  { intros i Hi Hne.
    rewrite !flag_of_alloc_old
      by (rewrite ?next_id_alloc, ?next_id_requires_grad_; lia).
    by apply flag_of_requires_grad_ne. }
  split.
  { intros k H1 H2. by rewrite !lookup_insert_ne. }
  split; [by rewrite lookup_insert_ne, lookup_insert_eq|].
  by rewrite lookup_insert_eq.
Qed.

(** X15. [forward] never overwrites a tensor: every tensor that existed
    before the call keeps its value and its inputs, and the only flag it
    sets on one of them is [requires_grad] of the position tensor, when
    forces are requested.  The input dictionary is returned unchanged
    without stresses; with stresses only its ["cell"] and ["atom_pos"]
    entries are rebound, to tensors created by the call. *)
Theorem forward_preserves_tensors self input
    (include_forces include_stresses : bool) (dataset_idx : Z) st
    output input' st' :
  forward linalg_det model_forward autograd_grad self input include_forces
    include_stresses dataset_idx st = Ok (output, input', st') →
  tensors_kept st st'
  ∧ (∀ i, (i < next_id st)%nat → flag_of st' i ≠ flag_of st i →
       include_forces = true ∧ input !! "atom_pos" = Some i
       ∧ flag_of st' i = Some true)
  ∧ (include_stresses = false → input' = input)
  ∧ (∀ k, k ≠ "cell" → k ≠ "atom_pos" → input' !! k = input !! k)
  ∧ (include_stresses = true →
     ∃ c p, input' !! "cell" = Some c ∧ input' !! "atom_pos" = Some p
            ∧ (next_id st ≤ c)%nat ∧ (next_id st ≤ p)%nat).
Proof.
  intros H. apply forward_inv in H
    as (_ & cell_id & cell & volume & st_b & st1 & energies & Hcell & Hc
        & Hb & Hs & He & Hout).
  set (st_a := alloc (Mat3s (zeros_like cell)) [] st) in *.
  assert (Ha : tensors_kept st st_a) by apply tensors_kept_alloc.
  assert (Hfa : ∀ i, (i < next_id st)%nat → flag_of st_a i = flag_of st i).
  { intros i Hi. by apply flag_of_alloc_old. }
  assert (Hkb : tensors_kept st_a st_b
                ∧ next_id st_b = S (next_id st)
                ∧ ∀ i, (i < next_id st)%nat → flag_of st_b i ≠ flag_of st i →
                    include_forces = true ∧ input !! "atom_pos" = Some i
                    ∧ flag_of st_b i = Some true).
  { destruct include_forces.
    - destruct Hb as (pos_id & Hpos & ->).
      split; [apply tensors_kept_requires_grad_|].
      split; [by rewrite next_id_requires_grad_; unfold st_a;
              rewrite next_id_alloc|].
      intros i Hi Hne. destruct (decide (i = pos_id)) as [->|Hd].
      + split; [done|]. split; [done|]. apply flag_of_requires_grad_eq.
        unfold st_a. rewrite next_id_alloc. lia.
      + destruct Hne. by rewrite flag_of_requires_grad_ne, Hfa.
    - subst st_b. split; [apply tensors_kept_refl|].
      split; [by unfold st_a; rewrite next_id_alloc|].
      intros i Hi Hne. destruct Hne. by apply Hfa. }
  destruct Hkb as (Hkb & Hidb & Hfb).
  assert (Hk1 : tensors_kept st_b st1
                ∧ (∀ i, (i < next_id st)%nat → flag_of st1 i = flag_of st_b i)
                ∧ (include_stresses = false → input' = input)
                ∧ (∀ k, k ≠ "cell" → k ≠ "atom_pos" →
                     input' !! k = input !! k)
                ∧ (include_stresses = true →
                   ∃ c p, input' !! "cell" = Some c
                          ∧ input' !! "atom_pos" = Some p
                          ∧ (next_id st ≤ c)%nat ∧ (next_id st ≤ p)%nat)).
  { destruct include_stresses.
    - apply strain_rewrite_kept in Hs as (Hk & Hf & Hin & Hce & Hpo).
      split; [done|]. split; [intros i Hi; apply Hf; lia|].
      split; [done|]. split; [done|]. intros _.
      eexists _, _. split; [done|]. split; [done|]. lia.
    - destruct Hs as (-> & _ & ->). split; [apply tensors_kept_refl|].
      done. }
  destruct Hk1 as (Hk1 & Hf1 & Hin1 & Hin2 & Hin3).
  set (st2 := alloc energies (map_to_list input').*2
                (log (ModelForward (model self) input' dataset_idx) st1))
    in *.
  assert (Hk2 : tensors_kept st1 st2
                ∧ ∀ i, (i < next_id st1)%nat → flag_of st2 i = flag_of st1 i).
  { split.
    - eapply tensors_kept_trans; [apply tensors_kept_log|].
      apply tensors_kept_alloc.
    - intros i Hi. unfold st2. by rewrite flag_of_alloc_old, flag_of_log. }
  destruct Hk2 as [Hk2 Hf2].
  assert (Hk' : tensors_kept st2 st'
                ∧ ∀ i, flag_of st' i = flag_of st2 i).
  { cbn zeta in Hout. destruct include_forces.
    - destruct include_stresses.
      + destruct Hout as (? & ? & ? & ? & _ & _ & _ & _ & -> & _).
        split; [apply tensors_kept_log|done].
      + destruct Hout as (? & ? & ? & _ & _ & _ & -> & _).
        split; [apply tensors_kept_log|done].
    - destruct Hout as [_ ->]. split; [apply tensors_kept_refl|done]. }
  destruct Hk' as [Hk' Hf'].
  assert (Hkept : tensors_kept st st').
  { repeat (eapply tensors_kept_trans; [eassumption|]). done. }
  split; [done|]. split; [|done].
  intros i Hi Hne.
  assert (Hi1 : (i < next_id st1)%nat).
  { destruct Hk1 as [? _]. destruct Hkb as [? _]. destruct Ha as [? _]. lia. }
  rewrite Hf', Hf2, Hf1 in Hne |- * by done. by apply Hfb.
Qed.

(** X16. With forces but without stresses a completed [forward] has made
    one model evaluation on the unchanged input and then one
    differentiation call, of the energies with respect to the positions
    only (the strain tensor is not among its inputs); the forces are the
    negated gradient, and the output has no ["stresses"] entry. *)
Theorem forward_forces_only self input (dataset_idx : Z) st
    output input' st' :
  forward linalg_det model_forward autograd_grad self input true false
    dataset_idx st = Ok (output, input', st') →
  input' = input
  ∧ ∃ pos_id energies grad force_grad st_call,
      let energies_id := S (next_id st) in
      let call := AutogradGrad [energies_id] [pos_id]
                    (m_training (model self)) in
      input !! "atom_pos" = Some pos_id
      ∧ value_of st' energies_id = Ok energies
      ∧ trace st' = trace st ++ [ModelForward (model self) input dataset_idx;
                                 call]
      ∧ st' = log call st_call
      ∧ autograd_grad st_call [energies_id] [pos_id] [ones_like energies]
          (m_training (model self)) = Ok grad
      ∧ grad !! 0%nat = Some force_grad
      ∧ output !! "total_energy" = Some energies
      ∧ output !! "forces" = neg <$> force_grad
      ∧ output !! "stresses" = None.
Proof.
  intros H. apply forward_inv in H
    as (_ & cell_id & cell & volume & st_b & st1 & energies & Hcell & Hc
        & (p0 & Hp0 & ->) & (-> & -> & ->) & He
        & (pos_id & grad & fg & Hpos & Hgrad & Hfg & -> & ->)).
  split; [done|]. rewrite Hp0 in Hpos. injection Hpos as <-.
  rewrite next_id_requires_grad_, next_id_alloc in Hgrad |- *.
  eexists p0, energies, grad, fg, _. cbn zeta.
  split; [done|]. split.
  { rewrite value_of_log. apply value_of_alloc_at.
    by rewrite next_id_log, next_id_requires_grad_, next_id_alloc. }
  split.
  { rewrite !trace_log, trace_alloc, trace_log, trace_requires_grad_,
      trace_alloc. by rewrite <- (assoc_L (++)). }
  split; [reflexivity|]. split; [exact Hgrad|]. split; [done|].
  split. { unfold with_forces. destruct fg; by simplify_map_eq. }
  split. { unfold with_forces. destruct fg; by simplify_map_eq. }
  unfold with_forces. destruct fg; by simplify_map_eq.
Qed.

(** Without forces the output holds the energies only. *)
Lemma forward_without_forces self input (include_stresses : bool)
    (dataset_idx : Z) st output input' st' :
  forward linalg_det model_forward autograd_grad self input false
    include_stresses dataset_idx st = Ok (output, input', st') →
  ∃ energies, output = {[ "total_energy" := energies ]}.
Proof.
  intros H. apply forward_inv in H
    as (_ & ? & ? & ? & ? & ? & energies & _ & _ & _ & _ & _ & -> & _).
  by exists energies.
Qed.

Section EpochMore.
Variable L1Loss : tval R → tval R → R.
Variable training_step :
  Potential R → R → Torch R → state_dict R * Adam R * state_dict R.
Variable mean : list R → R.

Lemma loss_calc_needs_stresses self (b : graph_batch R)
    (result_ : gmap string (tval R)) (loss : tval R → tval R → R)
    (include_energy include_forces : bool) (loss_f loss_s : R) :
  result_ !! "stresses" = None →
  is_ok (loss_calc L1Loss self b result_ loss include_energy include_forces
           true loss_f loss_s) = false.
Proof.
  intros Hs. unfold loss_calc.
  destruct (unsupported (model_name self)); [done|].
  match goal with
  | |- context [mbind _ (if include_energy then ?a else ?b)] =>
    destruct (if include_energy then a else b) as [[l1 e1]|]; [|done]
  end.
  cbn [mbind result_bind].
  match goal with
  | |- context [mbind _ (if include_forces then ?a else ?b)] =>
    destruct (if include_forces then a else b) as [[l2 e2]|]; [|done]
  end.
  cbn [mbind result_bind]. by rewrite Hs.
Qed.

(** X17. Stresses cannot be a training or validation target without
    forces: [forward] then returns no ["stresses"] entry, and the loss
    looks it up.  With [include_stresses=True] and [include_forces=False]
    an epoch over a non-empty data loader never completes, in any mode. *)
Theorem train_one_epoch_stresses_need_forces
    (loss : tval R → tval R → R) (include_energy : bool) (loss_f loss_s : R)
    (mode : string) (b : graph_batch R) (dataloader : list (graph_batch R))
    self st :
  is_ok (train_one_epoch linalg_det model_forward autograd_grad L1Loss
           training_step mean loss include_energy false true loss_f loss_s
           mode (b :: dataloader) self st) = false.
Proof.
  unfold train_one_epoch.
  match goal with
  | |- context [run_batches _ _ _ _ _ _ _ _ _ _ _ _ _ ?s _ _] =>
    generalize s
  end.
  intros self1. cbn [run_batches].
  assert (Hb : ∀ acc, is_ok (batch_step linalg_det model_forward autograd_grad
                      L1Loss training_step loss include_energy false true
                      loss_f loss_s mode b self1 st acc) = false).
  { intros acc. unfold batch_step.
    destruct (unsupported (model_name self1)); [done|].
    destruct (bool_decide (mode = "train")).
    - destruct (forward _ _ _ self1 _ _ _ _ _) as [[[output inp] st1]|] eqn:Hf;
        [|done].
      cbn [mbind result_bind].
      apply forward_without_forces in Hf as [energies ->].
      pose proof (loss_calc_needs_stresses self1 b
                    {[ "total_energy" := energies ]} loss include_energy
                    false loss_f loss_s eq_refl) as Hl.
      by destruct (loss_calc _ _ _ _ _ _ _ _ _ _).
    - destruct (bool_decide (mode = "val")); [|done].
      unfold average_parameters.
      destruct (forward _ _ _ (ema_copy_to (ema_store self1)) _ _ _ _ _)
        as [[[output inp] st1]|] eqn:Hf; [|done].
      cbn [mbind result_bind ema_restore ema_copy_to ema_store set_ema
           set_model ema model collected_params set_collected of_option
           fst snd].
      apply forward_without_forces in Hf as [energies ->].
      match goal with
      | |- context [loss_calc ?l ?s b _ loss include_energy false true
                      loss_f loss_s] =>
        pose proof (loss_calc_needs_stresses s b
                      {[ "total_energy" := energies ]} loss include_energy
                      false loss_f loss_s eq_refl) as Hl;
        by destruct (loss_calc l s b _ loss include_energy false true
                       loss_f loss_s)
      end. }
  specialize (Hb {| loss_avg := []; train_e_mae := []; train_f_mae := [];
                    train_s_mae := [] |}).
  by destruct (batch_step _ _ _ _ _ _ _ _ _ _ _ _ b self1 st _).
Qed.

End EpochMore.

End ForwardMore.

(** ** Inference *)

Lemma length_chunks {A} (sizes : list nat) (t : list A) :
  sum_list sizes = length t → length <$> chunks sizes t = sizes.
Proof.
  revert t. induction sizes as [|n sizes IH]; intros t H; [done|].
  cbn in H |- *. rewrite length_take. f_equal; [lia|].
  apply IH. rewrite length_drop. lia.
Qed.

Lemma concat_chunks {A} (sizes : list nat) (t : list A) :
  sum_list sizes = length t → concat (chunks sizes t) = t.
Proof.
  revert t. induction sizes as [|n sizes IH]; intros t H.
  { cbn in H. symmetry in H. by apply nil_length_inv in H as ->. }
  cbn in H |- *. rewrite IH by (rewrite length_drop; lia).
  apply take_drop.
Qed.

Section InferenceFacts.
Context {R : Type} {SR : Scalar R}.
Variable linalg_det : mat3 R → R.
Variable model_forward :
  Model R → Torch R → gmap string nat → Z → result (tval R).
Variable autograd_grad :
  Torch R → list nat → list nat → list (tval R) → bool
  → result (list (option (tval R))).
Implicit Types (self : Potential R) (st : Torch R) (acc : predictions R).

(** One batch of [predict_properties]. *)
Lemma predict_step_inv (include_forces include_stresses : bool)
    (b : graph_batch R) self st acc st' acc' :
  predict_step linalg_det model_forward autograd_grad include_forces
    include_stresses b self st acc = Ok (st', acc') →
  ∃ output input' e,
    forward linalg_det model_forward autograd_grad self
      (batch_to_dict b st).1 include_forces include_stresses (-1)
      (batch_to_dict b st).2 = Ok (output, input', st')
    ∧ output !! "total_energy" = Some (Scalars e)
    ∧ pr_energies acc' = pr_energies acc ++ e
    ∧ (if include_forces
       then ∃ f, output !! "forces" = Some (Vec3s f)
                 ∧ sum_list (gb_num_atoms b) = length f
                 ∧ pr_forces acc'
                   = pr_forces acc ++ chunks (gb_num_atoms b) f
       else pr_forces acc' = pr_forces acc)
    ∧ (if include_stresses
       then ∃ s, output !! "stresses" = Some (Mat3s s)
                 ∧ pr_stresses acc' = pr_stresses acc ++ s
       else pr_stresses acc' = pr_stresses acc).
Proof.
  unfold predict_step. intros H.
  destruct (unsupported (model_name self)); [done|].
  destruct (forward _ _ _ self _ _ _ _ _) as [[[output inp] st1]|] eqn:Hf;
    [|done].
  cbn [mbind result_bind] in H.
  destruct (output !! "total_energy") as [[| |e| |]|] eqn:He; try done.
  cbn [of_option mbind result_bind as_scalars] in H.
  assert (Hfo : ∃ forces,
    (if include_forces
     then f ← of_option KeyError (output !! "forces") ≫= as_vec3s;
          forces_tuple ← torch_split f (gb_num_atoms b);
          Ok (pr_forces acc ++ forces_tuple)
     else Ok (pr_forces acc)) = Ok forces
    ∧ (if include_forces
       then ∃ f, output !! "forces" = Some (Vec3s f)
                 ∧ sum_list (gb_num_atoms b) = length f
                 ∧ forces = pr_forces acc ++ chunks (gb_num_atoms b) f
       else forces = pr_forces acc)).
  { destruct include_forces; [|by eexists].
    destruct (output !! "forces") as [[|f| | |]|] eqn:Hfk; try done.
    cbn [of_option mbind result_bind as_vec3s] in H |- *.
    unfold torch_split in H |- *.
    destruct (decide (sum_list (gb_num_atoms b) = length f)); [|done].
    cbn [mbind result_bind]. eexists. split; [done|]. by exists f. }
  destruct Hfo as (forces & Hfeq & Hforces). rewrite Hfeq in H.
  cbn [mbind result_bind] in H.
  assert (Hso : ∃ stresses,
    (if include_stresses
     then s ← of_option KeyError (output !! "stresses") ≫= as_mat3s;
          Ok (pr_stresses acc ++ s)
     else Ok (pr_stresses acc)) = Ok stresses
    ∧ (if include_stresses
       then ∃ s, output !! "stresses" = Some (Mat3s s)
                 ∧ stresses = pr_stresses acc ++ s
       else stresses = pr_stresses acc)).
  { destruct include_stresses; [|by eexists].
    destruct (output !! "stresses") as [[s| | | |]|] eqn:Hsk; try done.
    cbn [of_option mbind result_bind as_mat3s] in H |- *.
    eexists. split; [done|]. by exists s. }
  destruct Hso as (stresses & Hseq & Hstresses). rewrite Hseq in H.
  cbn [mbind result_bind] in H. injection H as <- <-.
  exists output, inp, e. done.
Qed.

Lemma predict_loop_inv (include_forces include_stresses : bool)
    (dataloader : list (graph_batch R)) self st acc st' acc' :
  predict_loop linalg_det model_forward autograd_grad include_forces
    include_stresses dataloader self st acc = Ok (st', acc') →
  (include_forces = false → pr_forces acc' = pr_forces acc)
  ∧ (include_stresses = false → pr_stresses acc' = pr_stresses acc)
  ∧ (include_forces = true →
     ∃ new, pr_forces acc' = pr_forces acc ++ new
            ∧ length <$> new = concat (gb_num_atoms <$> dataloader))
  ∧ (include_forces = false → include_stresses = true → dataloader = [])
  ∧ ∃ evs,
      trace st' = trace st ++ evs
      ∧ length (filter (λ ev, is_model_forward ev = true) evs)
        = length dataloader
      ∧ ∀ m i d, ModelForward m i d ∈ evs → m = model self ∧ d = -1.
Proof.
  revert st acc. induction dataloader as [|b rest IH]; intros st acc H.
  { injection H as <- <-. do 2 (split; [done|]).
    split; [intros _; exists []; by rewrite app_nil_r|]. split; [done|].
    exists []. split; [by rewrite app_nil_r|]. split; [done|].
    intros m i d Hin. by apply elem_of_nil in Hin. }
  cbn [predict_loop] in H.
  destruct (predict_step _ _ _ _ _ b self st acc) as [[st1 acc1]|] eqn:Hb;
    [|done].
  cbn [mbind result_bind] in H.
  apply predict_step_inv in Hb
    as (output & inp & e & Hf & He & _ & Hfo & Hso).
  apply IH in H as (Hf0 & Hs0 & Hf1 & Hnone & evs & Ht & Hcount & Hall).
  split.
  { intros ->. by rewrite Hf0, Hfo. }
  split.
  { intros ->. by rewrite Hs0, Hso. }
  split.
  { intros ->. destruct Hfo as (f & _ & Hsum & Hacc1).
    destruct (Hf1 eq_refl) as (new & Hnew & Hlen).
    exists (chunks (gb_num_atoms b) f ++ new).
    split; [by rewrite Hnew, Hacc1, (assoc_L (++))|].
    rewrite fmap_app, Hlen, length_chunks by done. done. }
  split.
  { intros -> ->. exfalso. destruct Hso as (s & Hs & _).
    apply forward_without_forces in Hf as [en ->].
    by rewrite lookup_singleton_ne in Hs. }
  apply forward_trace in Hf as (rest' & Htr & Hno).
  exists (ModelForward (model self) inp (-1) :: rest' ++ evs).
  split.
  { rewrite Ht, Htr.
    assert (Hbt : trace (batch_to_dict b st).2 = trace st).
    { unfold batch_to_dict, batch_fields. cbn. done. }
    rewrite Hbt. by rewrite <- (assoc_L (++)). }
  split.
  { rewrite filter_cons_True by done. cbn [length]. f_equal.
    rewrite filter_app, length_app, Hcount.
    by rewrite (no_model_forward rest' Hno). }
  intros m i d Hin. apply elem_of_cons in Hin as [Hin|Hin].
  { by injection Hin as -> _ ->. }
  apply elem_of_app in Hin as [Hin|Hin]; [by apply Hno in Hin|].
  by apply (Hall m i d).
Qed.

(** X18. A completed [predict_properties] returns one force array per
    structure of the data loader, in order, each with as many rows as the
    structure has atoms; without forces the force list is empty and
    without stresses the stress list is empty.  The engine is left in eval
    mode, otherwise unchanged. *)
Theorem predict_properties_shapes (dataloader : list (graph_batch R))
    (include_forces include_stresses : bool) self st r self' st' :
  predict_properties linalg_det model_forward autograd_grad dataloader
    include_forces include_stresses self st = Ok (r, self', st') →
  self' = set_model (set_training false (model self)) self
  ∧ (include_forces = false → pr_forces r = [])
  ∧ (include_stresses = false → pr_stresses r = [])
  ∧ (include_forces = true →
     length <$> pr_forces r = concat (gb_num_atoms <$> dataloader)).
Proof.
  unfold predict_properties. intros H.
  destruct (predict_loop _ _ _ _ _ _ _ _ _) as [[st1 acc1]|] eqn:Hl; [|done].
  cbn [mbind result_bind] in H. injection H as <- <- <-.
  apply predict_loop_inv in Hl as (Hf0 & Hs0 & Hf1 & _).
  split; [done|]. split; [done|]. split; [done|].
  intros Hf. destruct (Hf1 Hf) as (new & -> & Hlen). done.
Qed.

(** X19. [predict_properties] with stresses but without forces never
    completes on a non-empty data loader: [forward] puts no ["stresses"]
    entry in its output unless forces are requested too, and the entry is
    read. *)
Theorem predict_properties_stresses_need_forces (b : graph_batch R)
    (dataloader : list (graph_batch R)) self st :
  is_ok (predict_properties linalg_det model_forward autograd_grad
           (b :: dataloader) false true self st) = false.
Proof.
  unfold predict_properties.
  destruct (predict_loop _ _ _ _ _ _ _ _ _) as [[st1 acc1]|] eqn:Hl; [|done].
  by apply predict_loop_inv in Hl as (_ & _ & _ & Hnone & _);
    specialize (Hnone eq_refl eq_refl).
Qed.

(** X20. [predict_properties] evaluates the model once per batch with the
    raw parameters the engine holds (in eval mode, head index -1): unlike
    validation it does not swap in the EMA shadow parameters. *)
Theorem predict_properties_uses_raw_weights
    (dataloader : list (graph_batch R))
    (include_forces include_stresses : bool) self st r self' st' :
  predict_properties linalg_det model_forward autograd_grad dataloader
    include_forces include_stresses self st = Ok (r, self', st') →
  ∃ evs,
    trace st' = trace st ++ evs
    ∧ length (filter (λ ev, is_model_forward ev = true) evs)
      = length dataloader
    ∧ ∀ m i d, ModelForward m i d ∈ evs →
        m_params m = m_params (model self) ∧ m_training m = false ∧ d = -1.
Proof.
  unfold predict_properties. intros H.
  destruct (predict_loop _ _ _ _ _ _ _ _ _) as [[st1 acc1]|] eqn:Hl; [|done].
  cbn [mbind result_bind] in H. injection H as <- <- <-.
  apply predict_loop_inv in Hl as (_ & _ & _ & _ & evs & Ht & Hc & Hall).
  exists evs. split; [done|]. split; [done|].
  intros m i d Hin. destruct (Hall m i d Hin) as [-> ->]. done.
Qed.

(** X21. The tuple [get_properties] returns has one entry without forces
    and stresses, two with forces only and three with both; with stresses
    but without forces no branch returns, so the result is [None]. *)
Theorem get_properties_result (b : graph_batch R)
    (include_forces include_stresses : bool) (dataset_idx : Z) self st
    r st' :
  get_properties linalg_det model_forward autograd_grad b include_forces
    include_stresses dataset_idx self st = Ok (r, st') →
  match include_forces, include_stresses with
  | false, true => r = None
  | false, false => ∃ e, r = Some [e]
  | true, false => ∃ e f, r = Some [e; f]
  | true, true => ∃ e f s, r = Some [e; f; s]
  end.
Proof.
  unfold get_properties. intros H.
  destruct (unsupported (model_name self)); [done|].
  destruct (forward _ _ _ self _ _ _ _ _) as [[[output inp] st1]|]; [|done].
  cbn [mbind result_bind] in H.
  destruct include_forces, include_stresses; cbn [negb andb] in H.
  - destruct (output !! "total_energy") as [e|]; [|done].
    destruct (output !! "forces") as [f|]; [|done].
    destruct (output !! "stresses") as [s|]; [|done].
    cbn in H. injection H as <- _. by exists e, f, s.
  - destruct (output !! "total_energy") as [e|]; [|done].
    destruct (output !! "forces") as [f|]; [|done].
    cbn in H. injection H as <- _. by exists e, f.
  - by injection H as <- _.
  - destruct (output !! "total_energy") as [e|]; [|done].
    cbn in H. injection H as <- _. by exists e.
Qed.

Section LoadModelFacts.
Variable L1Loss : tval R → tval R → R.
Variable training_step :
  Potential R → R → Torch R → state_dict R * Adam R * state_dict R.
Variable mean : list R → R.
Variable model_load_state_dict_strict :
  Model R → state_dict R → result (Model R).

(** X22. [load_model] replaces the raw model parameters only: the EMA
    shadow parameters stay those of the engine before the call, and they
    are what a validation pass evaluates afterwards, not the loaded
    weights. *)
Theorem load_model_keeps_shadow_weights
    (files : gmap string (checkpoint R)) self self1
    (loss : tval R → tval R → R)
    (include_energy include_forces include_stresses : bool)
    (loss_f loss_s : R) (dataloader : list (graph_batch R)) st r self2 st' :
  load_model model_load_state_dict_strict self files = Ok self1 →
  train_one_epoch linalg_det model_forward autograd_grad L1Loss
    training_step mean loss include_energy include_forces include_stresses
    loss_f loss_s "val" dataloader self1 st = Ok (r, self2, st') →
  ema self1 = ema self ∧ optimizer self1 = optimizer self
  ∧ (∃ ck sd, files !! pretrained_path = Some ck
              ∧ ck_model ck = Some (EDict sd)
              ∧ model_load_state_dict_strict (model self) sd
                = Ok (model self1))
  ∧ ∃ evs,
      trace st' = trace st ++ evs
      ∧ length (filter (λ ev, is_model_forward ev = true) evs)
        = length dataloader
      ∧ ∀ m i d, ModelForward m i d ∈ evs →
          m_params m = shadow_params (ema self).
Proof.
  unfold load_model. intros Hload Hval.
  destruct (files !! pretrained_path) as [ck|] eqn:Hck; [|done].
  cbn [of_option mbind result_bind] in Hload.
  unfold load_direct in Hload.
  destruct (ck_model ck) as [[sd| |]|] eqn:Hm; try done.
  cbn [of_option mbind result_bind] in Hload.
  destruct (model_load_state_dict_strict (model self) sd) as [m1|] eqn:Hsd;
    [|done].
  cbn [mbind result_bind] in Hload. injection Hload as <-.
  split; [done|]. split; [done|].
  split; [by exists ck, sd|].
  unfold train_one_epoch in Hval.
  rewrite (bool_decide_eq_false_2 ("val" = "train")) in Hval by done.
  rewrite !(bool_decide_eq_true_2 ("val" = "val")) in Hval by done.
  destruct (run_batches _ _ _ _ _ _ _ _ _ _ _ _ _ _ _ _)
    as [[[s3 st3] acc3]|] eqn:Hrun; [|done].
  cbn [mbind result_bind] in Hval. injection Hval as <- <- <-.
  apply run_batches_val in Hrun as (_ & _ & _ & evs & Ht & Hc & Hall).
  exists evs. split; [done|]. split; [done|].
  intros m i d Hin. by rewrite (Hall m i d Hin).
Qed.

End LoadModelFacts.

End InferenceFacts.

(** ** The description *)

Section DescriptionFacts.
Context {R : Type} {SR : Scalar R}.
Variable construct_model : model_kind → model_args → result (state_dict R).
Variable model_load_state_dict : Model R → state_dict R → result (Model R).
Variable optimizer_load_state_dict : Adam R → state_dict R → result (Adam R).
Variable scheduler_load_state_dict :
  Scheduler R → state_dict R → result (Scheduler R).
Variable ema_load_state_dict :
  ExponentialMovingAverage R → state_dict R
  → result (ExponentialMovingAverage R).

(** X23. A description given with [set_description] travels with the
    record: after [save] and a [load] of that record with the training
    state, [get_description] returns it; a [load] with
    [load_training_state=False] drops it and returns the empty string. *)
Theorem description_round_trip (d : string) (self : Potential R)
    (path : string) (load_training_state : bool) (kw : kwargs)
    (files : gmap string (checkpoint R)) (kind : model_kind)
    (params : state_dict R) (mdl : Model R) :
  files !! path = Some (to_checkpoint (set_description d self)) →
  (model_name self = "m3gnet" ∧ kind = M3Gnet
   ∨ model_name self = "m3gnet_multi_head" ∧ kind = M3Gnet_multi_head) →
  construct_model kind (m_args (model self)) = Ok params →
  model_load_state_dict
    {| m_kind := kind; m_args := m_args (model self); m_params := params;
       m_training := true |} (m_params (model self)) = Ok mdl →
  kw_model_name kw = None → kw_last_epoch kw = None →
  kw_validation_metrics kw = None → kw_description kw = None →
  ∃ p,
    load construct_model model_load_state_dict optimizer_load_state_dict
      scheduler_load_state_dict ema_load_state_dict
      (model_name self) (Some path) load_training_state kw files = Ok p
    ∧ get_description p = (if load_training_state then d else "").
Proof.
  intros Hf Hkind Hc Hm Hk1 Hk2 Hk3 Hk4.
  destruct (load_saved_record construct_model model_load_state_dict
              optimizer_load_state_dict scheduler_load_state_dict
              ema_load_state_dict (set_description d self) path
              load_training_state kw files kind params mdl
              Hf Hkind Hc Hm Hk1 Hk2 Hk3 Hk4)
    as (p & Hload & _ & _ & _ & Hrest).
  exists p. split; [exact Hload|]. unfold get_description.
  destruct load_training_state; by destruct Hrest as (_ & _ & ->).
Qed.

End DescriptionFacts.

(** ** The multi-head epoch *)

Lemma forward_heads_app {R : Type} (l1 l2 : list (event R)) :
  forward_heads (l1 ++ l2) = forward_heads l1 ++ forward_heads l2.
Proof. apply omap_app. Qed.

Lemma forward_heads_none {R : Type} (l : list (event R)) :
  (∀ m i d, ModelForward m i d ∉ l) → forward_heads l = [].
Proof.
  induction l as [|ev l IH]; intros H; [done|].
  destruct ev as [m i d|o i c].
  - destruct (H m i d). apply elem_of_cons. by left.
  - cbn. apply IH. intros m i' d Hin. apply (H m i' d).
    apply elem_of_cons. by right.
Qed.

Section MultiHeadEpochFacts.
Context {R : Type} {SR : Scalar R}.
Variable linalg_det : mat3 R → R.
Variable model_forward :
  Model R → Torch R → gmap string nat → Z → result (tval R).
Variable autograd_grad :
  Torch R → list nat → list nat → list (tval R) → bool
  → result (list (option (tval R))).
Variable L1Loss : tval R → tval R → R.
Variable training_step :
  Potential R → R → Torch R → state_dict R * Adam R * state_dict R.
Variable mean : list R → R.
Variable shuffle : list nat → list nat.
Variables (loss : tval R → tval R → R)
          (include_forces include_stresses : bool).
Implicit Types (self : Potential R) (st : Torch R)
  (metrics : gmap string (accumulators R))
  (iters : list (list (graph_batch R))).

(** One iteration of the multi-head loop. *)
Lemma multi_head_step_inv (include_energy : bool)
    (loss_f loss_s : R) (mode : string) (dataloader_len : list nat)
    (dataset_name_list : list string) (idx : nat) iters self st metrics
    iters' self' st' metrics' :
  multi_head_step linalg_det model_forward autograd_grad L1Loss
    training_step loss include_energy include_forces include_stresses
    loss_f loss_s mode dataloader_len dataset_name_list idx iters self st
    metrics = Ok (iters', self', st', metrics') →
  is_Some (dataset_name_list !! dataset_of dataloader_len idx)
  ∧ (mode = "train" ∨ mode = "val")
  ∧ (mode = "val" →
     model self' = model self ∧ optimizer self' = optimizer self
     ∧ shadow_params (ema self') = shadow_params (ema self))
  ∧ ∃ m input rest,
      trace st'
      = trace st
        ++ ModelForward m input (Z.of_nat (dataset_of dataloader_len idx))
           :: rest
      ∧ (∀ m' i d, ModelForward m' i d ∉ rest)
      ∧ (mode = "val" → m = shadow_model self)
      ∧ (mode = "train" → m = model self).
Proof.
  unfold multi_head_step. intros H.
  destruct (iter_next iters _) as [[b iters1]|]; [|done].
  cbn [mbind result_bind] in H.
  destruct (dataset_name_list !! dataset_of dataloader_len idx)
    as [name|] eqn:Hname; [|done].
  cbn [of_option mbind result_bind] in H.
  split; [by eexists|].
  assert (Hbt : trace (batch_to_dict b st).2 = trace st) by done.
  destruct (decide (mode = "train")) as [->|Hnt].
  - rewrite !(bool_decide_eq_true_2 ("train" = "train")) in H by done.
    destruct (forward _ _ _ self _ _ _ _ _) as [[[output inp] st1]|] eqn:Hf;
      [|done].
    cbn [mbind result_bind] in H.
    destruct (loss_calc _ _ _ _ _ _ _ _ _ _) as [[[[l e] f] s']|]; [|done].
    cbn [mbind result_bind] in H.
    destruct (metrics !! name) as [acc|]; [|done].
    cbn [of_option mbind result_bind] in H. injection H as <- <- <- <-.
    split; [by left|]. split; [done|].
    apply forward_trace in Hf as (rest & Ht & Hrest).
    exists (model self), inp, rest. rewrite Ht, Hbt. done.
  - rewrite !(bool_decide_eq_false_2 (mode = "train")) in H by done.
    destruct (decide (mode = "val")) as [->|Hnv];
      [|by rewrite (bool_decide_eq_false_2 (mode = "val")) in H].
    rewrite (bool_decide_eq_true_2 ("val" = "val")) in H by done.
    unfold average_parameters in H. cbn [mbind result_bind] in H.
    destruct (forward _ _ _ (ema_copy_to (ema_store self)) _ _ _ _ _)
      as [[[output inp] st1]|] eqn:Hf; [|done].
    cbn [mbind result_bind ema_restore ema_copy_to ema_store set_ema set_model
         ema model collected_params set_collected of_option fst snd] in H.
    destruct (loss_calc _ _ _ _ _ _ _ _ _ _) as [[[[l e] f] s']|]; [|done].
    cbn [mbind result_bind] in H.
    destruct (metrics !! name) as [acc|]; [|done].
    cbn [of_option mbind result_bind] in H. injection H as <- <- <- <-.
    split; [by right|]. split.
    { intros _. cbn. split; [by destruct (model self)|done]. }
    apply forward_trace in Hf as (rest & Ht & Hrest).
    exists (shadow_model self), inp, rest. rewrite Ht, Hbt. done.
Qed.

Lemma multi_head_loop_inv (include_energy : bool)
    (loss_f loss_s : R) (mode : string) (dataloader_len : list nat)
    (dataset_name_list : list string) (idx_list : list nat) iters self st
    metrics self' st' metrics' :
  multi_head_loop linalg_det model_forward autograd_grad L1Loss
    training_step loss include_energy include_forces include_stresses
    loss_f loss_s mode dataloader_len dataset_name_list idx_list iters self
    st metrics = Ok (self', st', metrics') →
  (∀ idx, idx ∈ idx_list →
     is_Some (dataset_name_list !! dataset_of dataloader_len idx))
  ∧ (mode = "val" →
     model self' = model self ∧ optimizer self' = optimizer self
     ∧ shadow_params (ema self') = shadow_params (ema self))
  ∧ ∃ evs,
      trace st' = trace st ++ evs
      ∧ forward_heads evs
        = (λ idx, Z.of_nat (dataset_of dataloader_len idx)) <$> idx_list
      ∧ (mode = "val" →
         ∀ m i d, ModelForward m i d ∈ evs → m = shadow_model self).
Proof.
  revert iters self st metrics.
  induction idx_list as [|idx rest IH]; intros iters self st metrics H.
  { injection H as <- <- <-. split; [by intros ? ?%elem_of_nil|].
    split; [done|]. exists []. split; [by rewrite app_nil_r|].
    split; [done|]. intros _ m i d Hin. by apply elem_of_nil in Hin. }
  cbn [multi_head_loop] in H.
  destruct (multi_head_step _ _ _ _ _ _ _ _ _ _ _ _ _ _ idx iters self st
              metrics) as [[[[iters1 self1] st1] metrics1]|] eqn:Hs; [|done].
  cbn [mbind result_bind] in H.
  apply multi_head_step_inv in Hs
    as (Hname & _ & Hval1 & m & inp & evs1 & Ht1 & Hno & Hmv & _).
  apply IH in H as (Hnames & Hval & evs & Ht & Hheads & Hshadow).
  split.
  { intros i [->|Hin]%elem_of_cons; [done|by apply Hnames]. }
  split.
  { intros Hm. destruct (Hval1 Hm) as (? & ? & ?).
    destruct (Hval Hm) as (? & ? & ?). split; [congruence|].
    split; congruence. }
  exists (ModelForward m inp (Z.of_nat (dataset_of dataloader_len idx))
          :: evs1 ++ evs).
  split; [by rewrite Ht, Ht1, <- (assoc_L (++))|]. split.
  { cbn [forward_heads omap]. cbn. f_equal.
    fold (forward_heads (evs1 ++ evs)).
    by rewrite forward_heads_app, (forward_heads_none evs1 Hno), Hheads. }
  intros Hm m' i d Hin. apply elem_of_cons in Hin as [Hin|Hin].
  { injection Hin as -> _ _. by apply Hmv. }
  apply elem_of_app in Hin as [Hin|Hin]; [by apply Hno in Hin|].
  rewrite (Hshadow Hm m' i d Hin). destruct (Hval1 Hm) as (Hm1 & _ & Hs1).
  unfold shadow_model. by rewrite Hm1, Hs1.
Qed.

(** A completed call of [train_one_epoch_multi_head]. *)
Lemma train_one_epoch_multi_head_inv (include_energy : bool)
    (loss_f loss_s : R) (mode : string)
    (dataloader_list : list (list (graph_batch R)))
    (dataset_name_list : list string) self st r self' st' :
  train_one_epoch_multi_head linalg_det model_forward autograd_grad L1Loss
    training_step mean shuffle loss include_energy include_forces
    include_stresses loss_f loss_s mode dataloader_list dataset_name_list
    self st = Ok (r, self', st') →
  ∃ self0 metrics s,
    self0 = (if bool_decide (mode = "train")
             then set_model (set_training true (model self)) self
             else if bool_decide (mode = "val")
                  then set_model (set_training false (model self)) self
                  else self)
    ∧ dataloader_list ≠ []
    ∧ multi_head_loop linalg_det model_forward autograd_grad L1Loss
        training_step loss include_energy include_forces include_stresses
        loss_f loss_s mode (cumulative_len dataloader_list)
        dataset_name_list
        (shuffle (seq 0 (sum_list (length <$> dataloader_list))))
        dataloader_list self0 st (metrics_init dataset_name_list)
      = Ok (self', st', metrics)
    ∧ sum_loop mean include_energy include_forces include_stresses metrics
        {| sum_loss_all := rlit 0; sum_e_mae := rlit 0; sum_f_mae := rlit 0;
           sum_s_mae := rlit 0; sum_train_e_mae := None |}
        dataset_name_list = Ok s
    ∧ r = (if bool_decide (mode = "val")
           then Some (sum_loss_all s, sum_e_mae s, sum_f_mae s, sum_s_mae s)
           else None).
Proof.
  unfold train_one_epoch_multi_head. intros H.
  destruct (last (cumulative_len dataloader_list)) as [total|] eqn:Hlast;
    [|done].
  cbn [of_option mbind result_bind] in H.
  assert (Hne : dataloader_list ≠ []).
  { intros ->. done. }
  assert (Htot : total = sum_list (length <$> dataloader_list)).
  { rewrite cumulative_len_running_sum in Hlast.
    rewrite last_running_sum in Hlast by (by destruct dataloader_list).
    by injection Hlast as <-. }
  subst total.
  destruct (multi_head_loop _ _ _ _ _ _ _ _ _ _ _ _ _ _ _ _ _ _ _)
    as [[[s1 st1] metrics1]|] eqn:Hloop; [|done].
  cbn [mbind result_bind] in H.
  destruct (sum_loop _ _ _ _ _ _ _) as [s|] eqn:Hsum; [|done].
  cbn [mbind result_bind] in H. injection H as <- <- <-.
  eexists _, metrics1, s. split; [reflexivity|]. split; [done|].
  split; [exact Hloop|]. split; [exact Hsum|]. done.
Qed.

(** X24. In a completed multi-head epoch the model is evaluated once per
    drawn index, in schedule order, and each evaluation is given as head
    index the index of the data loader the index resolves to, the one its
    batch is drawn from (the single-head epoch always passes -1). *)
Theorem multi_head_epoch_heads (include_energy : bool)
    (loss_f loss_s : R) (mode : string)
    (dataloader_list : list (list (graph_batch R)))
    (dataset_name_list : list string) self st r self' st' :
  train_one_epoch_multi_head linalg_det model_forward autograd_grad L1Loss
    training_step mean shuffle loss include_energy include_forces
    include_stresses loss_f loss_s mode dataloader_list dataset_name_list
    self st = Ok (r, self', st') →
  ∃ evs,
    trace st' = trace st ++ evs
    ∧ forward_heads evs
      = (λ idx, Z.of_nat (dataset_of (cumulative_len dataloader_list) idx))
        <$> shuffle (seq 0 (sum_list (length <$> dataloader_list))).
Proof.
  intros H. apply train_one_epoch_multi_head_inv in H
    as (self0 & metrics & s & _ & _ & Hloop & _ & _).
  apply multi_head_loop_inv in Hloop as (_ & _ & evs & Ht & Hh & _).
  by exists evs.
Qed.

Section Shuffled.
Hypothesis shuffle_perm : ∀ l, shuffle l ≡ₚ l.

(** X26. Every data loader that holds a batch needs a name: when
    [dataset_name_list] is too short to name a non-empty data loader, the
    epoch never completes (its batch is drawn at some point, and the name
    lookup fails). *)
Theorem multi_head_epoch_needs_names (include_energy : bool)
    (loss_f loss_s : R) (mode : string)
    (dataloader_list : list (list (graph_batch R)))
    (dataset_name_list : list string) (k : nat) (b : graph_batch R)
    (batches : list (graph_batch R)) self st :
  dataloader_list !! k = Some (b :: batches) →
  (length dataset_name_list ≤ k)%nat →
  is_ok (train_one_epoch_multi_head linalg_det model_forward autograd_grad
           L1Loss training_step mean shuffle loss include_energy
           include_forces include_stresses loss_f loss_s mode
           dataloader_list dataset_name_list self st) = false.
Proof.
  intros Hk Hlen.
  destruct (train_one_epoch_multi_head _ _ _ _ _ _ _ _ _ _ _ _ _ _ _ _ _ _)
    as [[[r self'] st']|] eqn:H; [|done].
  exfalso.
  apply train_one_epoch_multi_head_inv in H
    as (self0 & metrics & s & _ & _ & Hloop & _ & _).
  apply multi_head_loop_inv in Hloop as (Hnames & _).
  set (lens := length <$> dataloader_list) in *.
  assert (Hin : k ∈ dataset_of (cumulative_len dataloader_list)
                      <$> shuffle (seq 0 (sum_list lens))).
  { rewrite (shuffle_perm (seq 0 (sum_list lens))).
    rewrite cumulative_len_running_sum. fold lens.
    rewrite dataset_of_seq.
    pose proof (count_owners k 0 lens) as Hc.
    rewrite decide_True in Hc by lia. rewrite Nat.sub_0_r in Hc.
    unfold lens in Hc at 2. rewrite list_lookup_fmap, Hk in Hc. cbn in Hc.
    destruct (filter (λ x, x = k) (owners 0 lens)) as [|x l] eqn:Hf;
      [done|].
    assert (Hx : x ∈ filter (λ x, x = k) (owners 0 lens))
      by (rewrite Hf; apply elem_of_cons; by left).
    apply list_elem_of_filter in Hx as [-> Hx]. done. }
  apply list_elem_of_fmap in Hin as (idx & -> & Hidx).
  destruct (Hnames idx Hidx) as [n Hn].
  apply lookup_lt_Some in Hn. lia.
Qed.

End Shuffled.

(** X27. [test_model] is a validation pass with the loss weights 1.0 and
    0.1: a completed call returns the four averages, has evaluated the
    model with the EMA shadow parameters only, and leaves the engine with
    the raw parameters, the optimizer and the shadow parameters it had, in
    eval mode; this holds for the single-head and the multi-head
    variant. *)
Theorem test_model_frame (include_energy : bool) (multi_head : bool)
    (val_dataloader : if multi_head then list (list (graph_batch R))
                      else list (graph_batch R))
    (dataset_name_list : option (list string)) self st r self' st' :
  test_model linalg_det model_forward autograd_grad L1Loss training_step
    mean shuffle multi_head val_dataloader loss include_energy
    include_forces include_stresses dataset_name_list self st
  = Ok (r, self', st') →
  is_Some r
  ∧ model self' = set_training false (model self)
  ∧ optimizer self' = optimizer self
  ∧ shadow_params (ema self') = shadow_params (ema self)
  ∧ ∃ evs, trace st' = trace st ++ evs
      ∧ ∀ m i d, ModelForward m i d ∈ evs →
          m_params m = shadow_params (ema self) ∧ m_training m = false.
Proof.
  destruct multi_head; cbn [test_model]; intros H.
  - destruct dataset_name_list as [names|]; [|done].
    cbn [of_option mbind result_bind] in H.
    apply train_one_epoch_multi_head_inv in H
      as (self0 & metrics & s & Hself0 & _ & Hloop & _ & ->).
    rewrite (bool_decide_eq_false_2 ("val" = "train")) in Hself0 by done.
    rewrite (bool_decide_eq_true_2 ("val" = "val")) in Hself0 |- * by done.
    apply multi_head_loop_inv in Hloop
      as (_ & Hval & evs & Ht & _ & Hshadow).
    destruct (Hval eq_refl) as (Hm & Ho & Hs). subst self0.
    split; [by eexists|]. split; [done|]. split; [done|]. split; [done|].
    exists evs. split; [done|]. intros m i d Hin.
    by rewrite (Hshadow eq_refl m i d Hin).
  - unfold train_one_epoch in H.
    rewrite (bool_decide_eq_false_2 ("val" = "train")) in H by done.
    rewrite !(bool_decide_eq_true_2 ("val" = "val")) in H by done.
    destruct (run_batches _ _ _ _ _ _ _ _ _ _ _ _ _ _ _ _)
      as [[[self1 st1] acc1]|] eqn:Hrun; [|done].
    cbn [mbind result_bind] in H. injection H as <- <- <-.
    apply run_batches_val in Hrun as (Hm & Ho & Hsh & evs & Ht & _ & Hall).
    split; [by eexists|]. split; [done|]. split; [done|]. split; [done|].
    exists evs. split; [done|]. intros m i d Hin.
    by rewrite (Hall m i d Hin).
Qed.

End MultiHeadEpochFacts.

Section MultiHeadEnergy.
Context {R : Type} {SR : Scalar R}.
Variable linalg_det : mat3 R → R.
Variable model_forward :
  Model R → Torch R → gmap string nat → Z → result (tval R).
Variable autograd_grad :
  Torch R → list nat → list nat → list (tval R) → bool
  → result (list (option (tval R))).
Variable L1Loss : tval R → tval R → R.
Variable training_step :
  Potential R → R → Torch R → state_dict R * Adam R * state_dict R.
Variable mean : list R → R.
Variable shuffle : list nat → list nat.
Variables (loss : tval R → tval R → R)
          (include_forces include_stresses : bool) (loss_f loss_s : R).
Implicit Types (self : Potential R) (st : Torch R).

(** X25. Without the energy term the multi-head epoch cannot report:
    the summing loop prints [train_e_mae], which is only assigned when
    [include_energy] is set.  With [include_energy=False] and at least one
    dataset name the call never completes. *)
Theorem multi_head_epoch_needs_energy (mode : string)
    (dataloader_list : list (list (graph_batch R)))
    (name : string) (dataset_name_list : list string) self st :
  is_ok (train_one_epoch_multi_head linalg_det model_forward autograd_grad
           L1Loss training_step mean shuffle loss false include_forces
           include_stresses loss_f loss_s mode dataloader_list
           (name :: dataset_name_list) self st) = false.
Proof.
  destruct (train_one_epoch_multi_head _ _ _ _ _ _ _ _ _ _ _ _ _ _ _ _ _ _)
    as [[[r self'] st']|] eqn:H; [|done].
  apply train_one_epoch_multi_head_inv in H
    as (self0 & metrics & s & _ & _ & _ & Hsum & _).
  cbn [sum_loop] in Hsum. unfold sum_step in Hsum.
  destruct (metrics !! name); done.
Qed.

End MultiHeadEnergy.

(** ** Fine-tuning *)

Section FinetuneFacts.
Context {R : Type}.
Variable init : R → R.
Implicit Types (m : module R) (model : Encoder R).

Lemma all_flags_set (b : bool) m : all_flags b (set_requires_grad b m).
Proof.
  intros p Hp. apply list_elem_of_fmap in Hp as (q & -> & _). done.
Qed.

Lemma all_flags_reset (b : bool) m :
  all_flags b m → all_flags b (reset_parameters init m).
Proof.
  intros H p Hp. apply list_elem_of_fmap in Hp as (q & -> & Hq).
  cbn. by apply H.
Qed.

Lemma all_flags_frozen_head (o : option (module R)) h :
  set_requires_grad false <$> o = Some h → all_flags false h.
Proof.
  destruct o as [m0|]; [|done]. intros [= <-]. apply all_flags_set.
Qed.

(** X28. [freeze_reset_model] accepts -1 and the numbers from 0 to one
    less than the number of encoder layers; anything else, the number of
    layers itself included, is a [ValueError].  With -1 nothing changes.
    With [k] in range exactly the last [k] encoder layers are trainable
    and the earlier ones frozen; the final layer norm, the output layer
    and the model's layer norm are trainable when [k > 0] and frozen when
    [k = 0]; the two heads are always trainable, and every other
    parameter is frozen, those of a module registered as [finetune_head]
    included. *)
Theorem freeze_reset_model_trainable (finetune_layers : Z)
    (reset_head_for_finetune : bool) model :
  let n := Z.of_nat (length (unified_encoder_layers model)) in
  (finetune_layers = -1 →
   freeze_reset_model init finetune_layers reset_head_for_finetune model
   = Ok model)
  ∧ (finetune_layers < -1 ∨ n ≤ finetune_layers →
     freeze_reset_model init finetune_layers reset_head_for_finetune model
     = Raise ValueError)
  ∧ (0 ≤ finetune_layers < n →
     ∃ model',
       freeze_reset_model init finetune_layers reset_head_for_finetune model
       = Ok model'
       ∧ length (unified_encoder_layers model')
         = length (unified_encoder_layers model)
       ∧ (∀ (i : nat) layer,
            unified_encoder_layers model' !! i = Some layer →
            all_flags (bool_decide (n - finetune_layers ≤ Z.of_nat i)) layer)
       ∧ all_flags (bool_decide (0 < finetune_layers))
           (unified_final_invariant_ln model')
       ∧ all_flags (bool_decide (0 < finetune_layers))
           (unified_output_layer model')
       ∧ all_flags (bool_decide (0 < finetune_layers)) (layer_norm model')
       ∧ all_flags true (lm_head_transform_weight model')
       ∧ all_flags true (energy_out model')
       ∧ (∀ h, finetune_head model' = Some h → all_flags false h)
       ∧ all_flags false (other_parameters model')).
Proof.
  intros n. unfold freeze_reset_model. fold n. split; [|split].
  - intros ->. done.
  - intros H. destruct (finetune_layers =? -1) eqn:E1.
    { apply Z.eqb_eq in E1. lia. }
    destruct (0 <=? finetune_layers) eqn:E2; [|done].
    destruct (finetune_layers <? n) eqn:E3; [|done].
    apply Z.leb_le in E2. apply Z.ltb_lt in E3. lia.
  - intros H. destruct (finetune_layers =? -1) eqn:E1.
    { apply Z.eqb_eq in E1. lia. }
    rewrite (proj2 (Z.leb_le _ _)), (proj2 (Z.ltb_lt _ _)) by lia.
    cbn [andb].
    set (layers := set_requires_grad false <$> unified_encoder_layers model).
    assert (Hlen : length layers = length (unified_encoder_layers model))
      by (unfold layers; by rewrite length_fmap).
    assert (Hfrozen : ∀ (i : nat) layer, layers !! i = Some layer →
              all_flags false layer).
    { intros i layer Hl. unfold layers in Hl.
      rewrite list_lookup_fmap in Hl.
      destruct (unified_encoder_layers model !! i); [|done].
      injection Hl as <-. apply all_flags_set. }
    destruct (0 <? finetune_layers) eqn:E4.
    + apply Z.ltb_lt in E4.
      rewrite (bool_decide_eq_true_2 (0 < finetune_layers)) by done.
      set (k := Z.to_nat finetune_layers).
      assert (Hk : (k ≤ length layers)%nat) by (unfold k, n in *; lia).
      assert (Hlen' : length (unfreeze_last k layers)
                      = length (unified_encoder_layers model)).
      { unfold unfreeze_last, last_layers.
        rewrite length_app, length_fmap, length_take, length_drop. lia. }
      assert (Hlayers : ∀ (i : nat) layer,
                unfreeze_last k layers !! i = Some layer →
                all_flags (bool_decide (n - finetune_layers ≤ Z.of_nat i))
                  layer).
      { intros i layer Hl'. unfold unfreeze_last, last_layers in Hl'.
        destruct (decide (i < length layers - k)%nat) as [Hlt|Hge].
        - rewrite lookup_app_l in Hl' by (rewrite length_take; lia).
          rewrite lookup_take_lt in Hl' by done.
          rewrite bool_decide_eq_false_2 by (unfold k, n in *; lia).
          by eapply Hfrozen.
        - rewrite lookup_app_r in Hl' by (rewrite length_take; lia).
          rewrite list_lookup_fmap in Hl'.
          destruct (drop _ layers !! _); [|done]. injection Hl' as <-.
          rewrite bool_decide_eq_true_2 by (unfold k, n in *; lia).
          apply all_flags_set. }
      destruct reset_head_for_finetune;
        (eexists; split; [reflexivity|]; split; [exact Hlen'|];
         split; [exact Hlayers|]; cbn;
         repeat split; try apply all_flags_reset; try apply all_flags_set;
         apply all_flags_frozen_head).
    + apply Z.ltb_ge in E4.
      rewrite (bool_decide_eq_false_2 (0 < finetune_layers)) by lia.
      assert (Hlayers : ∀ (i : nat) layer,
                layers !! i = Some layer →
                all_flags (bool_decide (n - finetune_layers ≤ Z.of_nat i))
                  layer).
      { intros i layer Hl'. rewrite bool_decide_eq_false_2.
        - by eapply Hfrozen.
        - apply lookup_lt_Some in Hl'. unfold n in *. lia. }
      destruct reset_head_for_finetune;
        (eexists; split; [reflexivity|]; split; [exact Hlen|];
         split; [exact Hlayers|]; cbn;
         repeat split; try apply all_flags_reset; try apply all_flags_set;
         apply all_flags_frozen_head).
Qed.

Section FinetuneAndForward.
Context {SR : Scalar R}.
Variable linalg_det : mat3 R → R.
Variable model_forward :
  Model R → Torch R → gmap string nat → Z → result (tval R).
Variable autograd_grad :
  Torch R → list nat → list nat → list (tval R) → bool
  → result (list (option (tval R))).

(** X29. [finetune_mode] acts only on engines named ["graphormer"] or
    ["geomformer"], and for exactly those names [forward] raises
    [NotImplementedError]: for every engine, either [finetune_mode]
    returns without changing anything (not even
    [use_finetune_label_loss]), or [forward] is not implemented for it. *)
Theorem finetune_mode_or_forward (finetune_layers : Z)
    (finetune_head : option (module R)) (reset_head_for_finetune : bool)
    (finetune_task_mean finetune_task_std : Q)
    (use_finetune_label_loss : bool) (fs : finetune_state R)
    (self : Potential R) (input : gmap string nat)
    (include_forces include_stresses : bool) (dataset_idx : Z)
    (st : Torch R) :
  model_name self = ft_model_name fs →
  finetune_mode init finetune_layers finetune_head reset_head_for_finetune
    finetune_task_mean finetune_task_std use_finetune_label_loss fs = Ok fs
  ∧ unsupported (model_name self) = false
  ∨ forward linalg_det model_forward autograd_grad self input include_forces
      include_stresses dataset_idx st = Raise NotImplementedError
    ∧ unsupported (model_name self) = true.
Proof.
  intros Hname. unfold finetune_mode, forward, unsupported.
  rewrite Hname.
  destruct (decide (ft_model_name fs = "graphormer")) as [Hg|Hg].
  { right. by rewrite (bool_decide_eq_true_2 _ Hg). }
  rewrite (bool_decide_eq_false_2 _ Hg).
  destruct (decide (ft_model_name fs = "geomformer")) as [Hf|Hf].
  { right. by rewrite (bool_decide_eq_true_2 _ Hf). }
  rewrite (bool_decide_eq_false_2 _ Hf). left.
  rewrite bool_decide_eq_false_2; [done|].
  intros [?|[?|?%elem_of_nil]%elem_of_cons]%elem_of_cons; done.
Qed.

End FinetuneAndForward.


End FinetuneFacts.

(** * The engine on concrete inputs *)

Lemma toy_shuffle_perm (l : list nat) : toy_shuffle l ≡ₚ l.
Proof. unfold toy_shuffle. symmetry. apply Permutation_rev. Qed.

(** Forces and stresses of [toy_batch]: energy 8 = det(2 I), forces the
    negated unit gradient, stress [1/8 * 1 * 160.21766208]. *)
Example forward_toy_batch :
  match forward toy_det toy_model_forward toy_autograd_grad toy_self
          toy_input true true (-1) toy_state with
  | Ok (output, _, st') =>
    output !! "total_energy" = Some (Scalars [8%Q])
    ∧ output !! "forces" = Some (Vec3s [(-1, -1, -1); (-1, -1, -1)]%Q)
    ∧ output !! "stresses"
      = Some (Mat3s [let s := (16021766208 # 800000000)%Q in
                     ((s, s, s), (s, s, s), (s, s, s))])
    ∧ length (trace st') = 2%nat
  | Raise _ => False
  end.
Proof. vm_compute. repeat split; reflexivity. Qed.

(** Single-process training resumed after epoch 0 with patience 2 and a best
    record of epoch 0 that no later epoch beats: the loop is left at epoch
    3, with or without persistence. *)
Example early_stop_at_epoch_3 :
  (train_model toy_run_epoch 0 2 "val_loss" true 10 false 10 toy_resumed
     toy_world ≫= λ r, Ok r.2) = Ok (Some 3)
  ∧ (train_model toy_run_epoch 0 2 "val_loss" false 10 false 10 toy_resumed
       toy_world ≫= λ r, Ok r.2) = Ok (Some 3).
Proof. split; vm_compute; reflexivity. Qed.

(** Without a best record and without persistence the loop never stops
    early: nothing is ever on record to compare the epoch with. *)
Example no_record_no_early_stop :
  (train_model toy_run_epoch 0 2 "val_loss" false 10 false 10 toy_resumed
     empty_world ≫= λ r, Ok (r.2, writes r.1.2)) = Ok (None, []).
Proof. vm_compute. reflexivity. Qed.

(** A distributed run over epochs 0..5 with losses 12, 11, 10, 9, 8, 7 on
    rank 0: the best checkpoint is written at epochs 3, 4 and 5 only. *)
Example ddp_best_writes :
  (train_model toy_run_epoch 0 2 "val_loss" true 10 true 6 toy_self
     empty_world
   ≫= λ r, Ok ((λ x, ck_last_epoch x.2)
                <$> filter (λ x, x.1 = BestModel) (writes r.1.2)))
  = Ok [Some 3; Some 4; Some 5].
Proof. vm_compute. reflexivity. Qed.

(** ** Witnesses *)

Lemma forward_joint_gradient_witness :
  ∃ output input' st',
    forward toy_det toy_model_forward toy_autograd_grad toy_self toy_input
      true true (-1) toy_state = Ok (output, input', st')
    ∧ ∃ energies_id pos_id,
        trace st'
        = trace toy_state
          ++ [ModelForward (model toy_self) input' (-1);
              AutogradGrad [energies_id] [pos_id; next_id toy_state]
                (m_training (model toy_self))].
Proof.
  destruct (forward toy_det toy_model_forward toy_autograd_grad toy_self
              toy_input true true (-1) toy_state)
    as [[[output input'] st']|] eqn:H; [|by apply (f_equal is_ok) in H; vm_compute in H].
  exists output, input', st'. split; [reflexivity|].
  destruct (forward_joint_gradient _ _ _ _ _ _ _ _ _ _ H)
    as (cell & energies & energies_id & pos_id & st_call & grad & fg & sg
        & _ & _ & _ & _ & _ & _ & Htrace & _).
  exists energies_id, pos_id. exact Htrace.
Defined.

Lemma forward_strain_transform_witness :
  ∃ output input' st',
    forward toy_det toy_model_forward toy_autograd_grad toy_self
      toy_input_two true true (-1) toy_state_two = Ok (output, input', st')
    ∧ flag_of st' (next_id toy_state_two) = Some true
    ∧ input' !! "cell" = Some (next_id toy_state_two + 1)%nat
    ∧ input' !! "atom_pos" = Some (next_id toy_state_two + 3)%nat
    ∧ flag_of st' (next_id toy_state_two + 3)%nat = Some true
    ∧ ∃ st_b volume new_pos' st1',
        strain_rewrite toy_det (next_id toy_state_two) toy_strains
          toy_input_two st_b = Ok (input', volume, st1')
        ∧ value_of st1' (next_id toy_state_two + 3)%nat
          = Ok (Vec3s new_pos')
        ∧ new_pos' !! 0%nat = Some (2, 0, 0)%Q
        ∧ new_pos' !! 1%nat = Some (0, 3, 0)%Q
        ∧ new_pos' !! 2%nat = Some (0, 0, 1)%Q.
Proof.
  destruct (forward toy_det toy_model_forward toy_autograd_grad toy_self
              toy_input_two true true (-1) toy_state_two)
    as [[[output input'] st']|] eqn:H;
    [|by apply (f_equal is_ok) in H; vm_compute in H].
  exists output, input', st'. split; [reflexivity|].
  destruct (forward_strain_transform _ _ _ _ _ _ _ _ _ _ _ H)
    as (cell_id & cell & pos_id & pos & na_id & num_atoms & aug & new_pos
        & st_b & st1 & (Hcid & Hc & Hpid & Hp & Hnid & Hn)
        & (_ & _ & _ & Hflag) & (Hcell & _)
        & (_ & _ & _ & Hpos & _ & _ & _ & _ & _ & Hflag3) & _ & _ & _
        & Hlaw).
  split; [exact Hflag|]. split; [exact Hcell|]. split; [exact Hpos|].
  split; [exact Hflag3|].
  vm_compute in Hcid. injection Hcid as <-.
  vm_compute in Hc. injection Hc as <-.
  vm_compute in Hpid. injection Hpid as <-.
  vm_compute in Hp. injection Hp as <-.
  vm_compute in Hnid. injection Hnid as <-.
  vm_compute in Hn. injection Hn as <-.
  destruct (Hlaw toy_strains eq_refl)
    as (aug' & new_pos' & st1' & Hrew & _ & _ & Hval & Hatoms).
  exists st_b. eexists. exists new_pos', st1'.
  split; [exact Hrew|]. split; [exact Hval|].
  specialize (Hatoms eq_refl).
  destruct (Hatoms 0%nat 0%nat (1, 0, 0)%Q
              ((1, 0, 0), (0, 0, 0), (0, 0, 0))%Q eq_refl eq_refl eq_refl)
    as [_ H0].
  destruct (Hatoms 1%nat 1%nat (0, 1, 0)%Q
              ((0, 0, 0), (0, 2, 0), (0, 0, 0))%Q eq_refl eq_refl eq_refl)
    as [_ H1].
  destruct (Hatoms 2%nat 1%nat (0, 0, 1)%Q
              ((0, 0, 0), (0, 2, 0), (0, 0, 0))%Q eq_refl eq_refl eq_refl)
    as [_ H2].
  split; [exact H0|]. split; [exact H1|exact H2].
Defined.

Lemma forward_stresses_without_forces_witness :
  ∃ output input' st',
    forward toy_det toy_model_forward toy_autograd_grad toy_self toy_input
      false true (-1) toy_state = Ok (output, input', st')
    ∧ dom output = ({[ "total_energy" ]} : gset string)
    ∧ output !! "stresses" = None.
Proof.
  destruct (forward toy_det toy_model_forward toy_autograd_grad toy_self
              toy_input false true (-1) toy_state)
    as [[[output input'] st']|] eqn:H; [|by apply (f_equal is_ok) in H; vm_compute in H].
  exists output, input', st'. split; [reflexivity|].
  destruct (forward_stresses_without_forces _ _ _ _ _ _ _ _ _ _ H)
    as (Hdom & Hs & _).
  split; [exact Hdom|exact Hs].
Defined.

Lemma loss_calc_composition_witness :
  ∃ loss_ e_mae f_mae,
    loss_calc toy_L1Loss toy_self toy_batch toy_result toy_loss
      true true false 1%Q (1 # 10)%Q = Ok (loss_, e_mae, f_mae, 0%Q).
Proof.
  destruct (loss_calc_composition toy_L1Loss toy_self toy_batch toy_result
              toy_loss true true false 1%Q (1 # 10)%Q [8%Q]
              (Vec3s [(1, 0, 0); (0, 1, 0)]%Q) Opaque)
    as [H _].
  - reflexivity.
  - intros _. repeat split; reflexivity.
  - intros _. reflexivity.
  - intros Hf. discriminate Hf.
  - eexists _, _, _. exact H.
Defined.

Lemma multi_head_epoch_schedule_witness :
  ∃ visits,
    multi_head_epoch toy_shuffle toy_sources = Ok visits
    ∧ length visits = 8%nat
    ∧ drawn_from 0 visits = [10; 11; 12]%nat
    ∧ length (drawn_from 0 visits) = 3%nat
    ∧ drawn_from 1 visits = [20; 21; 22; 23; 24]%nat
    ∧ length (drawn_from 1 visits) = 5%nat.
Proof.
  destruct (multi_head_epoch_schedule toy_shuffle toy_shuffle_perm
              toy_sources)
    as (_ & visits & Hrun & Hlen & _ & _ & Hdrawn).
  - discriminate.
  - exists visits. split; [exact Hrun|]. split; [exact Hlen|].
    destruct (Hdrawn 0%nat [10; 11; 12]%nat eq_refl) as [H0 H0'].
    destruct (Hdrawn 1%nat [20; 21; 22; 23; 24]%nat eq_refl) as [H1 H1'].
    repeat split; assumption.
Defined.

Lemma validation_under_shadow_weights_witness :
  ∃ r self' st',
    train_one_epoch toy_det toy_model_forward toy_autograd_grad toy_L1Loss
      toy_training_step toy_mean toy_loss true true true 1%Q (1 # 10)%Q
      "val" [toy_batch; toy_batch] toy_trained toy_state
    = Ok (r, self', st')
    ∧ m_params (model self') = [1; 2]%Q
    ∧ (∃ evs, trace st' = trace toy_state ++ evs
        ∧ length (filter (λ ev, is_model_forward ev = true) evs) = 2%nat)
    ∧ ∃ self_b st_b acc_b output input' st_b' acc_b',
        run_batches toy_det toy_model_forward toy_autograd_grad toy_L1Loss
          toy_training_step toy_loss true true true 1%Q (1 # 10)%Q "val"
          [toy_batch]
          (set_model (set_training false (model toy_trained)) toy_trained)
          toy_state
          {| loss_avg := []; train_e_mae := []; train_f_mae := [];
             train_s_mae := [] |} = Ok (self_b, st_b, acc_b)
        ∧ m_params (model self_b) = [1; 2]%Q
        ∧ m_params (model (averaged self_b)) = [3; 4]%Q
        ∧ m_params (model (restored self_b)) = [1; 2]%Q
        ∧ batch_step toy_det toy_model_forward toy_autograd_grad toy_L1Loss
            toy_training_step toy_loss true true true 1%Q (1 # 10)%Q "val"
            toy_batch self_b st_b acc_b
          = Ok (restored self_b, st_b', acc_b')
        ∧ forward toy_det toy_model_forward toy_autograd_grad
            (averaged self_b) (batch_to_dict toy_batch st_b).1 true true
            (-1) (batch_to_dict toy_batch st_b).2
          = Ok (output, input', st_b').
Proof.
  destruct (train_one_epoch toy_det toy_model_forward toy_autograd_grad
              toy_L1Loss toy_training_step toy_mean toy_loss true true true
              1%Q (1 # 10)%Q "val" [toy_batch; toy_batch] toy_trained
              toy_state)
    as [[[r self'] st']|] eqn:H;
    [|by apply (f_equal is_ok) in H; vm_compute in H].
  exists r, self', st'. split; [reflexivity|].
  pose proof H as H'.
  apply validation_under_shadow_weights in H'
    as (Hp & _ & _ & _ & (evs & Ht & Hc & _) & Hbatch).
  split; [exact Hp|]. split; [exists evs; split; [exact Ht|exact Hc]|].
  destruct (Hbatch [toy_batch] toy_batch [] eq_refl)
    as (self_b & st_b & acc_b & output & input' & st_b' & acc_b' & Hpre & Hraw
        & _ & Hf & Hsh & _ & Hres & _ & Hstep).
  exists self_b, st_b, acc_b, output, input', st_b', acc_b'.
  split; [exact Hpre|]. split; [exact Hraw|]. split; [exact Hsh|].
  split; [exact Hres|]. split; [exact Hstep|exact Hf].
Defined.

Lemma train_model_early_stop_exact_witness :
  ∃ self' w' stopped,
    train_model toy_run_epoch 0 2 "val_loss" true 10 false 10 toy_resumed
      toy_world = Ok (self', w', stopped)
    ∧ (stopped = Some 3 ↔
       ∃ self_e w_e best_model e_best,
         train_model toy_run_epoch 0 2 "val_loss" true 10 false 3
           toy_resumed toy_world = Ok (self_e, w_e, None)
         ∧ disk w_e !! BestModel = Some best_model
         ∧ usable_record true self_e best_model
         ∧ ck_last_epoch best_model = Some e_best
         ∧ 3 > e_best + 2).
Proof.
  destruct (train_model_early_stop_exact toy_run_epoch 0 2 "val_loss" true 10)
    with (epochs := 10) (self := toy_resumed) (w := toy_world)
    as (self' & w' & stopped & Hrun & Hexact & _).
  - unfold supported_metrics. apply elem_of_cons. left. reflexivity.
  - intros _. lia.
  - intros e p. reflexivity.
  - exists self', w', stopped. split; [exact Hrun|].
    apply Hexact. cbn. lia.
Defined.

(** C2 as stated fails on a best record that lacks the selected metric.
    The record on disk was saved at epoch 0 and holds the metric ["loss"]
    only; training is resumed at epoch 7 with patience 2 and the metric
    [val_mae_e].  Epoch 7 is the first epoch with [epoch > 0 + 2], yet with
    persistence the run is not stopped there: reading the missing metric
    raises inside the [try], the handler overwrites the record with the one
    of epoch 7, and the stop comes at epoch 10.  Without persistence the
    metric is not read and the run stops at epoch 7. *)
Lemma early_stop_missed_on_incomplete_record :
  disk toy_world_loss_only !! BestModel = Some toy_best_loss_only
  ∧ ck_last_epoch toy_best_loss_only = Some 0
  ∧ last_epoch toy_resumed_6 + 1 = 7 ∧ 7 > 0 + 2
  ∧ (train_model toy_run_epoch 0 2 "val_mae_e" true 10 false 20
       toy_resumed_6 toy_world_loss_only ≫= λ r, Ok r.2) = Ok (Some 10)
  ∧ (train_model toy_run_epoch 0 2 "val_mae_e" true 10 false 8
       toy_resumed_6 toy_world_loss_only
     ≫= λ r, Ok (r.2, disk r.1.2 !! BestModel ≫= ck_last_epoch))
    = Ok (None, Some 7)
  ∧ (train_model toy_run_epoch 0 2 "val_mae_e" false 10 false 20
       toy_resumed_6 toy_world_loss_only ≫= λ r, Ok r.2) = Ok (Some 7).
Proof.
  split; [reflexivity|]. split; [reflexivity|]. split; [reflexivity|].
  split; [lia|]. split; [|split]; vm_compute; reflexivity.
Qed.

Lemma save_model_ddp_best_below_ten_witness :
  ∃ self' w' stopped,
    train_model toy_run_epoch 0 2 "val_loss" true 10 true 6 toy_self
      empty_world = Ok (self', w', stopped)
    ∧ best_metric toy_self = Finite 10
    ∧ ∃ new, writes w' = writes empty_world ++ new
        ∧ ∀ ck, (BestModel, ck) ∈ new →
            ∃ e q, ck_last_epoch ck = Some e
                   ∧ selected_metric_at toy_run_epoch 0 2 "val_loss" true 10
                       toy_self empty_world e = Some q
                   ∧ flt q (Finite 10) = true.
Proof.
  destruct (train_model toy_run_epoch 0 2 "val_loss" true 10 true 6 toy_self
              empty_world) as [[[self' w'] stopped]|] eqn:H;
    [|by apply (f_equal is_ok) in H; vm_compute in H].
  exists self', w', stopped. split; [reflexivity|].
  destruct (save_model_ddp_best_below_ten toy_run_epoch 0 2 "val_loss" true
              10 toy_model None (SchedulerName "StepLR") None no_kwargs 6
              toy_self empty_world self' w' stopped eq_refl H)
    as (Hten & new & Hw & Hbest & _).
  split; [exact Hten|]. exists new. split; [exact Hw|].
  intros ck Hck. destruct (Hbest ck Hck) as (e & q & He & _ & Hq & Hlt & _).
  exists e, q. split; [exact He|]. split; [exact Hq|exact Hlt].
Defined.

(** C10 as stated fails when a validation metric is NaN.  With the losses
    NaN, 5.0, NaN, 4.0 on rank 0 the best checkpoint is written at epochs 1
    and 3; the loss NaN was seen before each of them, and neither 5.0 nor
    4.0 is below NaN. *)
Lemma ddp_best_not_below_earlier_nan :
  (train_model toy_run_epoch_nan 0 2 "val_loss" true 10 true 4 toy_self
     empty_world
   ≫= λ r, Ok ((λ x, ck_last_epoch x.2)
                <$> filter (λ x, x.1 = BestModel) (writes r.1.2)))
  = Ok [Some 1; Some 3]
  ∧ selected_metric_at toy_run_epoch_nan 0 2 "val_loss" true 10 toy_self
      empty_world 0 = Some NaN
  ∧ selected_metric_at toy_run_epoch_nan 0 2 "val_loss" true 10 toy_self
      empty_world 1 = Some (Finite 5)
  ∧ selected_metric_at toy_run_epoch_nan 0 2 "val_loss" true 10 toy_self
      empty_world 2 = Some NaN
  ∧ selected_metric_at toy_run_epoch_nan 0 2 "val_loss" true 10 toy_self
      empty_world 3 = Some (Finite 4)
  ∧ flt (Finite 5) NaN = false ∧ flt (Finite 4) NaN = false.
Proof. repeat split; vm_compute; reflexivity. Qed.



(** ** The added properties on concrete inputs *)

Example load_corrupted_record :
  load toy_construct_model toy_model_load toy_optimizer_load
    toy_scheduler_load toy_ema_load "m3gnet" (Some "corrupted.pth") true
    no_kwargs toy_files = Ok toy_loaded.
Proof. vm_compute. reflexivity. Qed.

(** *** Witnesses *)

Lemma load_returns_named_eval_engine_witness :
  ∃ p,
    load toy_construct_model toy_model_load toy_optimizer_load
      toy_scheduler_load toy_ema_load "m3gnet" (Some "corrupted.pth") true
      no_kwargs toy_files = Ok p
    ∧ model_name p = "m3gnet" ∧ m_training (model p) = false
    ∧ best_metric p = Finite 10.
Proof.
  exists toy_loaded. split; [exact load_corrupted_record|].
  destruct (load_returns_named_eval_engine toy_construct_model toy_model_load
              toy_optimizer_load toy_scheduler_load toy_ema_load "m3gnet"
              (Some "corrupted.pth") true no_kwargs toy_files toy_loaded
              load_corrupted_record)
    as (_ & _ & _ & Hn & Ht & Hb & _).
  split; [exact Hn|]. split; [exact Ht|exact Hb].
Defined.

Lemma load_without_training_state_witness :
  ∃ p,
    load toy_construct_model toy_model_load toy_optimizer_load
      toy_scheduler_load toy_ema_load "m3gnet" (Some "saved.pth") false
      no_kwargs toy_saved_files = Ok p
    ∧ last_epoch p = -1 ∧ validation_metrics p = {[ "loss" := Finite 0 ]}
    ∧ description p = "".
Proof.
  destruct (load toy_construct_model toy_model_load toy_optimizer_load
              toy_scheduler_load toy_ema_load "m3gnet" (Some "saved.pth")
              false no_kwargs toy_saved_files) as [p|] eqn:H;
    [|by apply (f_equal is_ok) in H; vm_compute in H].
  exists p. split; [reflexivity|].
  destruct (load_without_training_state _ _ _ _ _ _ _ _ _ _ H)
    as (_ & _ & _ & Hl & Hv & Hd).
  split; [exact Hl|]. split; [exact Hv|exact Hd].
Defined.

Lemma save_then_load_witness :
  ∃ p,
    load toy_construct_model toy_model_load toy_optimizer_load
      toy_scheduler_load toy_ema_load "m3gnet" (Some "saved.pth") true
      no_kwargs toy_saved_files = Ok p
    ∧ m_params (model p) = [1; 2]%Q
    ∧ last_epoch p = -1
    ∧ validation_metrics p = {[ "loss" := Finite 10000 ]}.
Proof.
  destruct (save_then_load toy_construct_model toy_model_load
              toy_optimizer_load toy_scheduler_load toy_ema_load
              toy_trained "saved.pth" no_kwargs toy_saved_files M3Gnet
              [0; 0]%Q
              {| m_kind := M3Gnet; m_args := []; m_params := [1; 2]%Q;
                 m_training := true |})
    as (p & Hload & Hm & _ & Hl & Hv & _); try reflexivity.
  - left. split; reflexivity.
  - exists p. split; [exact Hload|]. split; [by rewrite Hm|].
    split; [exact Hl|exact Hv].
Defined.



Lemma save_model_stop_skips_periodic_witness :
  ∃ w' self',
    save_model 3 2 "val_loss" true toy_metric 10 toy_indexed toy_world
    = Ok (true, w', self')
    ∧ disk w' !! LastModel = None
    ∧ (w' = toy_world ∨ w' = save (averaged toy_indexed) BestModel toy_world).
Proof.
  destruct (save_model 3 2 "val_loss" true toy_metric 10 toy_indexed
              toy_world) as [[[[|] w'] self']|] eqn:H;
    [|by vm_compute in H|by vm_compute in H].
  exists w', self'. split; [reflexivity|].
  destruct (save_model_stop_skips_periodic _ _ _ _ _ _ _ _ _ _ H)
    as (Hw & Hl & _).
  split; [by rewrite Hl|exact Hw].
Defined.

Lemma save_model_on_empty_directory_witness :
  save_model 0 2 "val_loss" true toy_metric 10 toy_trained empty_world
  = Ok (false,
        save_all (averaged toy_trained)
          [BestModel; CkptEpoch 0; LastModel] empty_world,
        restored toy_trained).
Proof.
  apply (save_model_on_empty_directory 0 2 "val_loss" toy_metric 10
           toy_trained empty_world).
  - reflexivity.
  - lia.
Defined.

Lemma train_model_unsupported_metric_witness :
  train_model toy_run_epoch 0 2 "accuracy" true 10 false 10 toy_self
    empty_world = Raise ValueError.
Proof.
  apply train_model_unsupported_metric.
  unfold supported_metrics. intros H.
  repeat (apply elem_of_cons in H as [H|H]; [discriminate H|]).
  apply elem_of_nil in H. exact H.
Defined.

Lemma train_model_nothing_left_witness :
  ∃ i : nat,
    train_model toy_run_epoch 0 2 "val_loss" true 10 false 1 toy_resumed
      toy_world
    = Ok (set_rank_idx None (Some i) toy_resumed, toy_world, None).
Proof.
  destruct (train_model_nothing_left toy_run_epoch 0 2 "val_loss" true 10
              false 1 toy_resumed toy_world) as (i & _ & H).
  - unfold supported_metrics. apply elem_of_cons. left. reflexivity.
  - cbn. lia.
  - exists i. exact H.
Defined.

Lemma train_model_ddp_never_stops_witness :
  ∃ self' w' stopped,
    train_model toy_run_epoch 0 2 "val_loss" true 10 true 6 toy_self
      empty_world = Ok (self', w', stopped)
    ∧ stopped = None ∧ last_epoch self' = 5.
Proof.
  destruct (train_model toy_run_epoch 0 2 "val_loss" true 10 true 6 toy_self
              empty_world) as [[[self' w'] stopped]|] eqn:H;
    [|by apply (f_equal is_ok) in H; vm_compute in H].
  exists self', w', stopped. split; [reflexivity|].
  destruct (train_model_ddp_never_stops _ _ _ _ _ _ _ _ _ _ _ _ H)
    as (Hs & _ & Hl).
  split; [exact Hs|]. apply Hl. cbn. lia.
Defined.

Lemma train_model_ddp_other_ranks_write_nothing_witness :
  ∃ self' stopped,
    train_model toy_run_epoch 1 2 "val_loss" true 10 true 6 toy_self
      empty_world = Ok (self', empty_world, stopped).
Proof.
  destruct (train_model toy_run_epoch 1 2 "val_loss" true 10 true 6 toy_self
              empty_world) as [[[self' w'] stopped]|] eqn:H;
    [|by apply (f_equal is_ok) in H; vm_compute in H].
  exists self', stopped.
  rewrite (train_model_ddp_other_ranks_write_nothing toy_run_epoch 1 2
             "val_loss" true 10 6 toy_self empty_world self' w' stopped);
    [reflexivity|lia|exact H].
Defined.

Lemma best_record_is_first_minimum_witness :
  ∃ self' w' stopped ck e_b q_b,
    train_model toy_run_epoch_dip 0 2 "val_loss" true 10 false 6 toy_self
      empty_world = Ok (self', w', stopped)
    ∧ disk w' !! BestModel = Some ck
    ∧ ck_last_epoch ck = Some e_b
    ∧ epoch_metric_at toy_run_epoch_dip 0 2 "val_loss" true 10 toy_self
        empty_world e_b = Some q_b.
Proof.
  destruct (train_model toy_run_epoch_dip 0 2 "val_loss" true 10 false 6
              toy_self empty_world) as [[[self' w'] stopped]|] eqn:H;
    [|by apply (f_equal is_ok) in H; vm_compute in H].
  destruct (best_record_is_first_minimum toy_run_epoch_dip 2 "val_loss" 10 0
              6 toy_self empty_world self' w' stopped)
    as (ck & e_b & q_b & i & Hd & He & _ & _ & _ & Hm & _).
  - reflexivity.
  - cbn. lia.
  - exact H.
  - exists self', w', stopped, ck, e_b, q_b. split; [reflexivity|].
    split; [exact Hd|]. split; [exact He|exact Hm].
Defined.

Lemma ddp_resume_overwrites_best_witness :
  ∃ self' w' stopped ck,
    train_model toy_run_epoch_low 0 2 "val_loss" true 10 true 1 toy_loaded
      toy_world = Ok (self', w', stopped)
    ∧ disk toy_world !! BestModel = Some toy_best
    ∧ disk w' !! BestModel = Some ck
    ∧ ck_last_epoch ck = Some 0
    ∧ ck_validation_metrics ck = Some (validation_metrics self').
Proof.
  destruct (train_model toy_run_epoch_low 0 2 "val_loss" true 10 true 1
              toy_loaded toy_world) as [[[self' w'] stopped]|] eqn:H;
    [|by apply (f_equal is_ok) in H; vm_compute in H].
  destruct (ddp_resume_overwrites_best toy_construct_model toy_model_load
              toy_optimizer_load toy_scheduler_load toy_ema_load
              toy_run_epoch_low 2 "val_loss" 10 "m3gnet"
              (Some "corrupted.pth") true no_kwargs toy_files toy_loaded
              toy_world self' w' stopped (Finite 5) load_corrupted_record H)
    as (ck & Hd & He & Hv).
  - assert (Hs : (train_model toy_run_epoch_low 0 2 "val_loss" true 10 true
                    1 toy_loaded toy_world
                  ≫= λ r, Ok (selected_metric r.1.1))
                 = Ok (Some (Finite 5))) by (vm_compute; reflexivity).
    rewrite H in Hs. cbn [mbind result_bind fst] in Hs.
    injection Hs as Hs. exact Hs.
  - reflexivity.
  - exists self', w', stopped, ck. split; [reflexivity|].
    split; [reflexivity|]. split; [exact Hd|]. split; [exact He|exact Hv].
Defined.

Lemma forward_preserves_tensors_witness :
  ∃ output input' st',
    forward toy_det toy_model_forward toy_autograd_grad toy_self toy_input
      true true (-1) toy_state = Ok (output, input', st')
    ∧ tensors_kept toy_state st'
    ∧ input' !! "num_atoms" = toy_input !! "num_atoms".
Proof.
  destruct (forward toy_det toy_model_forward toy_autograd_grad toy_self
              toy_input true true (-1) toy_state)
    as [[[output input'] st']|] eqn:H; [|by apply (f_equal is_ok) in H; vm_compute in H].
  exists output, input', st'. split; [reflexivity|].
  pose proof H as H'.
  apply forward_preserves_tensors in H' as (Hk & _ & _ & Hin & _).
  split; [exact Hk|]. apply Hin; discriminate.
Defined.

Lemma forward_forces_only_witness :
  ∃ output input' st',
    forward toy_det toy_model_forward toy_autograd_grad toy_self toy_input
      true false (-1) toy_state = Ok (output, input', st')
    ∧ input' = toy_input
    ∧ ∃ pos_id,
        trace st'
        = trace toy_state
          ++ [ModelForward (model toy_self) toy_input (-1);
              AutogradGrad [S (next_id toy_state)] [pos_id]
                (m_training (model toy_self))].
Proof.
  destruct (forward toy_det toy_model_forward toy_autograd_grad toy_self
              toy_input true false (-1) toy_state)
    as [[[output input'] st']|] eqn:H; [|by apply (f_equal is_ok) in H; vm_compute in H].
  exists output, input', st'. split; [reflexivity|].
  pose proof H as H'.
  apply forward_forces_only in H'
    as (Hin & pos_id & energies & grad & fg & st_call & _ & _ & Ht & _).
  split; [exact Hin|]. exists pos_id. exact Ht.
Defined.

Lemma predict_properties_shapes_witness :
  ∃ r self' st',
    predict_properties toy_det toy_model_forward toy_autograd_grad
      [toy_batch; toy_batch] true true toy_self toy_state
    = Ok (r, self', st')
    ∧ length <$> pr_forces r = [2; 2]%nat.
Proof.
  destruct (predict_properties toy_det toy_model_forward toy_autograd_grad
              [toy_batch; toy_batch] true true toy_self toy_state)
    as [[[r self'] st']|] eqn:H; [|by apply (f_equal is_ok) in H; vm_compute in H].
  exists r, self', st'. split; [reflexivity|].
  pose proof H as H'.
  apply predict_properties_shapes in H' as (_ & _ & _ & Hf).
  exact (Hf eq_refl).
Defined.

Lemma predict_properties_uses_raw_weights_witness :
  ∃ r self' st' evs,
    predict_properties toy_det toy_model_forward toy_autograd_grad
      [toy_batch; toy_batch] true true toy_trained toy_state
    = Ok (r, self', st')
    ∧ trace st' = trace toy_state ++ evs
    ∧ length (filter (λ ev, is_model_forward ev = true) evs) = 2%nat
    ∧ ∀ m i d, ModelForward m i d ∈ evs → m_params m = [1; 2]%Q.
Proof.
  destruct (predict_properties toy_det toy_model_forward toy_autograd_grad
              [toy_batch; toy_batch] true true toy_trained toy_state)
    as [[[r self'] st']|] eqn:H; [|by apply (f_equal is_ok) in H; vm_compute in H].
  pose proof H as H'.
  apply predict_properties_uses_raw_weights in H'
    as (evs & Ht & Hc & Hall).
  exists r, self', st', evs. split; [reflexivity|]. split; [exact Ht|].
  split; [exact Hc|]. intros m i d Hin.
  destruct (Hall m i d Hin) as (Hp & _). exact Hp.
Defined.

Lemma get_properties_result_witness :
  ∃ st',
    get_properties toy_det toy_model_forward toy_autograd_grad toy_batch
      false true (-1) toy_self toy_torch = Ok (None, st').
Proof.
  destruct (get_properties toy_det toy_model_forward toy_autograd_grad
              toy_batch false true (-1) toy_self toy_torch)
    as [[r st']|] eqn:H; [|by apply (f_equal is_ok) in H; vm_compute in H].
  exists st'.
  pose proof H as H'. apply get_properties_result in H'.
  rewrite H'. reflexivity.
Defined.

Lemma load_model_keeps_shadow_weights_witness :
  ∃ self1 r self2 st' evs,
    load_model toy_model_load toy_trained toy_pretrained_files = Ok self1
    ∧ train_one_epoch toy_det toy_model_forward toy_autograd_grad toy_L1Loss
        toy_training_step toy_mean toy_loss true true true 1%Q (1 # 10)%Q
        "val" [toy_batch] self1 toy_state = Ok (r, self2, st')
    ∧ m_params (model self1) = [1; 2]%Q
    ∧ trace st' = trace toy_state ++ evs
    ∧ ∀ m i d, ModelForward m i d ∈ evs → m_params m = [3; 4]%Q.
Proof.
  destruct (load_model toy_model_load toy_trained toy_pretrained_files)
    as [self1|] eqn:Hl; [|by apply (f_equal is_ok) in Hl; vm_compute in Hl].
  destruct (train_one_epoch toy_det toy_model_forward toy_autograd_grad
              toy_L1Loss toy_training_step toy_mean toy_loss true true true
              1%Q (1 # 10)%Q "val" [toy_batch] self1 toy_state)
    as [[[r self2] st']|] eqn:Hv.
  2:{ exfalso. vm_compute in Hl. injection Hl as <-. by vm_compute in Hv. }
  pose proof Hv as Hv'.
  eapply load_model_keeps_shadow_weights in Hv'
    as (_ & _ & _ & evs & Ht & _ & Hall); [|exact Hl].
  exists self1, r, self2, st', evs. split; [reflexivity|].
  split; [exact Hv|].
  split.
  { pose proof Hl as Hl'. vm_compute in Hl'. injection Hl' as <-.
    reflexivity. }
  split; [exact Ht|].
  intros m i d Hin. rewrite (Hall m i d Hin). reflexivity.
Defined.

Lemma description_round_trip_witness :
  ∃ p,
    load toy_construct_model toy_model_load toy_optimizer_load
      toy_scheduler_load toy_ema_load "m3gnet" (Some "saved.pth") true
      no_kwargs toy_described_files = Ok p
    ∧ get_description p = "run 7".
Proof.
  apply (description_round_trip toy_construct_model toy_model_load
           toy_optimizer_load toy_scheduler_load toy_ema_load "run 7"
           toy_trained "saved.pth" true no_kwargs toy_described_files
           M3Gnet [0; 0]%Q
           {| m_kind := M3Gnet; m_args := []; m_params := [1; 2]%Q;
              m_training := true |}); try reflexivity.
  left. split; reflexivity.
Defined.

Lemma multi_head_epoch_heads_witness :
  ∃ r self' st' evs,
    train_one_epoch_multi_head toy_det toy_model_forward toy_autograd_grad
      toy_L1Loss toy_training_step toy_mean toy_shuffle toy_loss true true
      true 1%Q (1 # 10)%Q "val" toy_loaders ["MPF"; "QM9"] toy_trained
      toy_torch = Ok (r, self', st')
    ∧ trace st' = trace toy_torch ++ evs
    ∧ forward_heads evs = [1; 1; 0].
Proof.
  destruct (train_one_epoch_multi_head toy_det toy_model_forward
              toy_autograd_grad toy_L1Loss toy_training_step toy_mean
              toy_shuffle toy_loss true true true 1%Q (1 # 10)%Q "val"
              toy_loaders ["MPF"; "QM9"] toy_trained toy_torch)
    as [[[r self'] st']|] eqn:H; [|by apply (f_equal is_ok) in H; vm_compute in H].
  pose proof H as H'.
  apply multi_head_epoch_heads in H' as (evs & Ht & Hh).
  exists r, self', st', evs. split; [reflexivity|]. split; [exact Ht|].
  rewrite Hh. reflexivity.
Defined.

Lemma multi_head_epoch_needs_names_witness :
  is_ok (train_one_epoch_multi_head toy_det toy_model_forward
           toy_autograd_grad toy_L1Loss toy_training_step toy_mean
           toy_shuffle toy_loss true true true 1%Q (1 # 10)%Q "val"
           toy_loaders ["MPF"] toy_trained toy_torch) = false.
Proof.
  apply (multi_head_epoch_needs_names toy_det toy_model_forward
           toy_autograd_grad toy_L1Loss toy_training_step toy_mean
           toy_shuffle toy_loss true true toy_shuffle_perm true 1%Q
           (1 # 10)%Q "val" toy_loaders ["MPF"] 1%nat toy_batch [toy_batch]).
  - reflexivity.
  - cbn. lia.
Defined.

Lemma test_model_frame_witness :
  ∃ r self' st',
    test_model toy_det toy_model_forward toy_autograd_grad toy_L1Loss
      toy_training_step toy_mean toy_shuffle true toy_loaders toy_loss true
      true true (Some ["MPF"; "QM9"]) toy_trained toy_torch
    = Ok (r, self', st')
    ∧ is_Some r ∧ m_params (model self') = [1; 2]%Q.
Proof.
  destruct (test_model toy_det toy_model_forward toy_autograd_grad toy_L1Loss
              toy_training_step toy_mean toy_shuffle true toy_loaders
              toy_loss true true true (Some ["MPF"; "QM9"]) toy_trained
              toy_torch) as [[[r self'] st']|] eqn:H; [|by apply (f_equal is_ok) in H; vm_compute in H].
  exists r, self', st'. split; [reflexivity|].
  destruct (test_model_frame toy_det toy_model_forward toy_autograd_grad
              toy_L1Loss toy_training_step toy_mean toy_shuffle toy_loss
              true true true true toy_loaders (Some ["MPF"; "QM9"])
              toy_trained toy_torch r self' st' H)
    as (Hr & Hm & _).
  split; [exact Hr|]. rewrite Hm. reflexivity.
Defined.

Lemma finetune_mode_or_forward_witness :
  finetune_mode (λ x : Q, x) 2 None true 0 1 true toy_finetune_state
  = Ok toy_finetune_state.
Proof.
  destruct (finetune_mode_or_forward (λ x : Q, x) toy_det toy_model_forward
              toy_autograd_grad 2 None true 0%Q 1%Q true toy_finetune_state
              toy_self toy_input true true (-1) toy_state eq_refl)
    as [[H _]|[_ H]].
  - exact H.
  - discriminate H.
Defined.


(** Fine-tuning the last layer of three: layers 0 and 1 frozen, layer 2
    and the norms and heads trainable; three layers out of three is
    refused. *)
Example freeze_last_layer_of_three :
  (freeze_reset_model (λ x : Q, x) 1 false toy_encoder
   ≫= λ m : Encoder Q,
        Ok (map (map pm_requires_grad) (unified_encoder_layers m),
            map pm_requires_grad (layer_norm m),
            map pm_requires_grad (other_parameters m)))
  = Ok ([[false; false]; [false; false]; [true; true]], [true; true],
        [false; false])
  ∧ freeze_reset_model (λ x : Q, x) 3 false toy_encoder = Raise ValueError.
Proof. split; reflexivity. Qed.

(** The validation losses 3, 1, 2, 1, 5, 6 with patience 10: the best
    record is the one of epoch 1, the first of the two epochs with the
    least loss. *)
Example best_record_of_dip :
  (train_model toy_run_epoch_dip 0 10 "val_loss" true 10 false 6 toy_self
     empty_world
   ≫= λ r, Ok (disk r.1.2 !! BestModel ≫= ck_last_epoch)) = Ok (Some 1).
Proof. vm_compute. reflexivity. Qed.

(** With stresses but without forces [get_properties] returns [None] and
    [predict_properties] raises [KeyError]. *)
Example stresses_without_forces :
  (get_properties toy_det toy_model_forward toy_autograd_grad toy_batch
     false true (-1) toy_self toy_torch ≫= λ r, Ok r.1) = Ok None
  ∧ (predict_properties toy_det toy_model_forward toy_autograd_grad
       [toy_batch] false true toy_self toy_torch ≫= λ r, Ok r.1.1)
    = Raise KeyError.
Proof. split; vm_compute; reflexivity. Qed.

(** A multi-head validation epoch without the energy term ends in
    [UnboundLocalError]. *)
Example multi_head_without_energy :
  (train_one_epoch_multi_head toy_det toy_model_forward toy_autograd_grad
     toy_L1Loss toy_training_step toy_mean toy_shuffle toy_loss false true
     true 1%Q (1 # 10)%Q "val" toy_loaders ["MPF"; "QM9"] toy_trained
     toy_torch ≫= λ r, Ok r.1.1) = Raise UnboundLocalError.
Proof. vm_compute. reflexivity. Qed.
